(** * ndf: document ingestion pipeline and disk/index reconciliation

    A shallow embedding of [ingest.py] (discovery, classification, hashing,
    extraction with retry, idempotent upsert, batch pass and watch handler)
    and of the statistics, search-filter and file endpoints of
    [api/main.py], followed by the properties of the specification that
    were checked against them.

    Conventions of the embedding:
    - a [pathlib.Path] is the list of its segments below the anchor ["/"]
      (every path the program handles is absolute and normalised); the
      [str]/[Path] round trip of a payload's ["path"] entry is the identity
      on such paths, so a payload carries the path itself;
    - a [str] is held as the bytes of its UTF-8 encoding, and a file name
      that is not UTF-8 text as the bytes of the name;
    - the filesystem is a finite tree that does not change during a run.
      The tree is what the calls that follow symbolic links see: a link to
      a file is a file under the name of the link.  In [ingest.py],
      [Path.resolve] is a field of the environment, the identity where
      there is no link; in the endpoints, which resolve a string, it is
      computed from the segments, for a tree without links.  A path that
      the tree does not have is absent, or cannot be examined
      ([stat_fails]), in which case [exists] and [is_file] raise;
    - standard output encodes the lines that [stdout_accepts] tells, and
      [print] raises [UnicodeEncodeError] on the others;
    - the two remote services are oracles indexed by the number of events
      emitted so far, so that any sequence of failures can be expressed;
    - Python exceptions are values of [exn] returned in the [Exc] branch of
      a state-and-error monad over [World];
    - [hashlib], [datetime] and [tenacity] are libraries: the digest and
      the date format are fields of the environment, the retry loop is
      written from tenacity's documented behaviour;
    - [ensure_index] is embedded on its own, and the properties of the two
      trigger paths start once the index exists; the events of the watcher
      are taken as a list, and an exception that leaves the handler ends
      the thread that dispatches them. *)

From Stdlib Require Import ZArith Ascii String List Bool Lia.
From Stdlib.Strings Require Import Byte.
From stdpp Require Import base option list gmap strings.

Set Warnings "-register-all,-abstract-large-number".

Local Open Scope Z_scope.
Local Open Scope string_scope.
Local Open Scope list_scope.

(** ** pathlib and str *)

Module Pathlib.

Definition Path := list string.

(** [s.startswith(pre)] *)
Definition startswith (s pre : string) : bool := String.prefix pre s.

(** [s.rfind(c)], [None] standing for [-1]. *)
Fixpoint rfind (c : ascii) (s : string) : option nat :=
  match s with
  | EmptyString => None
  | String a rest =>
      match rfind c rest with
      | Some i => Some (S i)
      | None => if Ascii.eqb a c then Some 0%nat else None
      end
  end.

(** [s.lower()] on the ASCII letters. *)
Definition lower_ascii (a : ascii) : ascii :=
  let n := nat_of_ascii a in
  if (65 <=? n)%nat && (n <=? 90)%nat then ascii_of_nat (n + 32) else a.

Fixpoint lower (s : string) : string :=
  match s with
  | EmptyString => EmptyString
  | String a rest => String (lower_ascii a) (lower rest)
  end.

(** [s.lstrip(".")] *)
Fixpoint lstrip_dot (s : string) : string :=
  match s with
  | String a rest => if Ascii.eqb a "." then lstrip_dot rest else s
  | EmptyString => EmptyString
  end.

(** [str.strip()].  A [str] is held as the bytes of its UTF-8 encoding.
    The white space that Python strips is the characters for which
    [str.isspace()] holds: U+0009 to U+000D and U+001C to U+0020, of one
    byte; U+0085 and U+00A0, of two bytes ([C2 85], [C2 A0]); U+1680
    ([E1 9A 80]), U+2000 to U+200A ([E2 80 80] to [E2 80 8A]), U+2028,
    U+2029, U+202F ([E2 80 A8], [E2 80 A9], [E2 80 AF]), U+205F
    ([E2 81 9F]) and U+3000 ([E3 80 80]), of three bytes. *)
Definition is_space (a : ascii) : bool :=
  let n := nat_of_ascii a in
  ((9 <=? n)%nat && (n <=? 13)%nat) || ((28 <=? n)%nat && (n <=? 32)%nat).

Definition is_space2 (a b : ascii) : bool :=
  let a := nat_of_ascii a in
  let b := nat_of_ascii b in
  (a =? 194)%nat && ((b =? 133)%nat || (b =? 160)%nat).

Definition is_space3 (a b c : ascii) : bool :=
  let a := nat_of_ascii a in
  let b := nat_of_ascii b in
  let c := nat_of_ascii c in
  ((a =? 225)%nat && (b =? 154)%nat && (c =? 128)%nat)
  || ((a =? 226)%nat && (b =? 128)%nat &&
      (((128 <=? c)%nat && (c <=? 138)%nat)
       || (c =? 168)%nat || (c =? 169)%nat || (c =? 175)%nat))
  || ((a =? 226)%nat && (b =? 129)%nat && (c =? 159)%nat)
  || ((a =? 227)%nat && (b =? 128)%nat && (c =? 128)%nat).

(** What is left of the bytes [l] once the white-space characters at its
    head are removed, for given tests of the characters of one, two and
    three bytes. *)
Fixpoint lstrip_with (p1 : ascii -> bool) (p2 : ascii -> ascii -> bool)
    (p3 : ascii -> ascii -> ascii -> bool) (l : list ascii) : list ascii :=
  match l with
  | [] => []
  | a :: r1 =>
      if p1 a then lstrip_with p1 p2 p3 r1
      else
        match r1 with
        | [] => l
        | b :: r2 =>
            if p2 a b then lstrip_with p1 p2 p3 r2
            else
              match r2 with
              | [] => l
              | c :: r3 =>
                  if p3 a b c then lstrip_with p1 p2 p3 r3 else l
              end
        end
  end.

Definition lstrip (s : string) : string :=
  string_of_list_ascii
    (lstrip_with is_space is_space2 is_space3 (list_ascii_of_string s)).

(** At the other end the bytes are met last byte first. *)
Definition rstrip (s : string) : string :=
  string_of_list_ascii
    (rev (lstrip_with is_space (fun b a => is_space2 a b)
            (fun c b a => is_space3 a b c)
            (rev (list_ascii_of_string s)))).

Definition strip (s : string) : string := rstrip (lstrip s).

(** [path.name]: the last segment, empty for the anchor itself. *)
Definition name (p : Path) : string := List.last p "".

(** [path.parent] *)
Definition parent (p : Path) : Path := removelast p.

(** Pure-path [suffix]: with [i = name.rfind(".")], the slice [name[i:]]
    when [0 < i < len(name) - 1], and the empty string otherwise. *)
Definition suffix_of_name (nm : string) : string :=
  match rfind "." nm with
  | Some i =>
      if (0 <? i)%nat && (i <? String.length nm - 1)%nat
      then substring i (String.length nm - i) nm
      else ""
  | None => ""
  end.

Definition suffix (p : Path) : string := suffix_of_name (name p).

(** Pure-path [stem]: [name[:i]] under the same condition, else [name]. *)
Definition stem_of_name (nm : string) : string :=
  match rfind "." nm with
  | Some i =>
      if (0 <? i)%nat && (i <? String.length nm - 1)%nat
      then substring 0 i nm
      else nm
  | None => nm
  end.

Definition stem (p : Path) : string := stem_of_name (name p).

(** [path.relative_to(base)]: [None] stands for the [ValueError] raised
    when [base] is not a prefix of [path]. *)
Fixpoint relative_to (p base : Path) {struct base} : option Path :=
  match base with
  | [] => Some p
  | b :: base' =>
      match p with
      | [] => None
      | s :: p' => if String.eqb s b then relative_to p' base' else None
      end
  end.

(** A filesystem node: a regular file with its bytes, modification time
    and whether the process may read it, or a directory with its entries
    in iteration order. *)
Inductive node :=
| File (data : list byte) (mtime : Z) (readable : bool)
| Dir (entries : list (string * node)).

Fixpoint find_entry (nm : string) (es : list (string * node)) : option node :=
  match es with
  | [] => None
  | (n, c) :: es' => if String.eqb n nm then Some c else find_entry nm es'
  end.

(** Resolution of a path from the filesystem root. *)
Fixpoint lookup_path (fs : node) (p : Path) : option node :=
  match p with
  | [] => Some fs
  | s :: p' =>
      match fs with
      | Dir es =>
          match find_entry s es with
          | Some c => lookup_path c p'
          | None => None
          end
      | File _ _ _ => None
      end
  end.

Definition exists_ (fs : node) (p : Path) : bool :=
  match lookup_path fs p with Some _ => true | None => false end.

Definition node_is_file (n : node) : bool :=
  match n with File _ _ _ => true | Dir _ => false end.

Definition node_is_dir (n : node) : bool :=
  match n with Dir _ => true | File _ _ _ => false end.

Definition is_file (fs : node) (p : Path) : bool :=
  match lookup_path fs p with Some n => node_is_file n | None => false end.

Definition is_dir (fs : node) (p : Path) : bool :=
  match lookup_path fs p with Some n => node_is_dir n | None => false end.

(** [dir.iterdir()] for a directory node found at [p]: the children's
    paths paired with their nodes. *)
Definition children (p : Path) (es : list (string * node)) : list (Path * node) :=
  map (fun e => (p ++ [fst e], snd e)) es.

(** [dir.rglob("*")]: every entry below the directory, at any depth; a
    directory lists its own entries before those of its subdirectories. *)
Fixpoint rglob (p : Path) (n : node) : list (Path * node) :=
  match n with
  | File _ _ _ => []
  | Dir es =>
      children p es ++
      flat_map (fun e => rglob (p ++ [fst e]) (snd e)) es
  end.

End Pathlib.

Import Pathlib.

(** ** ingest.py *)

Module Ingest.

(** *** Process configuration, read once from the environment *)

Record Config := mkConfig {
  ROOT : Path;
  FILTER_LEVEL1 : gset string;
  FILTER_LEVEL2 : gset string;
  MAX_DOCS : Z;
  MAX_OCR_MB : Z;
}.

Definition ALLOW_EXTS : gset string :=
  {[ ".pdf"; ".doc"; ".docx"; ".xls"; ".xlsx" ]}.

(** *** Records *)

(** The dictionaries yielded by [iter_documents] and built by [index_path]. *)
Record Payload := mkPayload {
  p_path : Path;
  p_file_name : string;
  p_level1 : string;
  p_level2 : string;
  p_ext : string;
  p_relative_subpath : string;
}.

(** The dictionary returned by [tika_extract_text]. *)
Record Meta := mkMeta {
  m_title : string;
  m_content : string;
  m_media_type : string;
}.

(** The document sent to the index. *)
Record Doc := mkDoc {
  d_id : string;
  d_path : Path;
  d_file_name : string;
  d_level1 : string;
  d_level2 : string;
  d_title : string;
  d_content : string;
  d_media_type : string;
  d_ext : string;
  d_modified_at : string;
  d_size_bytes : Z;
  d_sha256 : string;
  d_suggest : list string;
}.

(** *** Exceptions, events and the world *)

Inductive exn :=
| HTTPError                       (* transport failure or [raise_for_status] *)
| FileNotFoundError (p : Path)
| IsADirectoryError (p : Path)
| NotADirectoryError (p : Path)
| PermissionError (p : Path)
| OSError (p : Path)              (* a path that cannot be examined *)
| UnicodeEncodeError              (* [print], on a text that cannot be encoded *)
| RetryError (last : exn).        (* tenacity, once the stop condition holds *)

Inductive result (A : Type) :=
| Ok (a : A)
| Exc (e : exn).
Arguments Ok {A} a.
Arguments Exc {A} e.

(** What [print] writes. *)
Inductive log_line :=
| LogIndexed (file_path : Path)                  (* "Indexé: ..." *)
| LogIndexError (file_path : Path) (e : exn)     (* "Erreur indexation ...: ..." *)
| LogProgress (total : Z) (file_name : string)   (* "Indexés: ... (dernier: ...)" *)
| LogBatchError (path : Path) (e : exn)          (* "Erreur sur ...: ..." *)
| LogBatchDone (total : Z).                      (* "Indexation initiale: ... documents" *)

Inductive event :=
| TikaMetaRequest (file_path : Path)     (* PUT TIKA_URL/meta *)
| TikaTextRequest (file_path : Path)     (* PUT TIKA_URL/tika *)
| IndexPutRequest (doc_id : string)      (* PUT OPENSEARCH_URL/INDEX_NAME/_doc/doc_id *)
| Sleep (seconds : Z)                    (* tenacity waiting between two attempts *)
| Print (line : log_line).

(** The answer to one HTTP request: a success status with its body, or a
    failure (no answer, or a status that [raise_for_status] rejects). *)
Inductive response (A : Type) :=
| Success (body : A)
| Failure.
Arguments Success {A} body.
Arguments Failure {A}.

(** The state that a run changes: the content of the index, keyed by
    document identifier, and the events so far, oldest first. *)
Record World := mkWorld {
  index : gmap string Doc;
  trace : list event;
}.

(** What a run does not change: the libraries it calls ([hashlib],
    [datetime]), the configuration, the filesystem, the behaviour of the
    two services at each instant (the number of events so far), and what
    standard output can encode.  The metadata body is [None] when it is
    not JSON.

    The filesystem is the tree [fs] as the calls that follow symbolic
    links see it ([exists], [is_file], [is_dir], [iterdir], [stat],
    [open]): a link to a file is a file under the name of the link.
    [resolve] is [Path.resolve()]: the path with its links followed, the
    path itself where there is no link, [None] when it raises.  Every
    node of the tree can be examined; for a path that the tree does not
    have, [stat_fails] tells whether examining it fails otherwise than
    by its absence (a name too long, a directory that may not be
    searched), which [exists] and [is_file] do not catch.
    [stdout_accepts] tells whether [print] can encode a line: it raises
    [UnicodeEncodeError] on a file name with bytes that were decoded
    with [surrogateescape] when standard output is strict. *)
Record Env := mkEnv {
  sha256_hexdigest : list byte -> string;
  isoformat_utc : Z -> string;
  cfg : Config;
  fs : node;
  resolve : Path -> option Path;
  stat_fails : Path -> bool;
  tika_meta : nat -> list byte -> response (option (gmap string string));
  tika_text : nat -> list byte -> response string;
  opensearch_put : nat -> string -> Doc -> response unit;
  stdout_accepts : log_line -> bool;
}.

(** *** The monad of effects: state and exceptions *)

Definition M (A : Type) : Type := World -> result A * World.

#[global] Instance M_ret : MRet M := fun A a w => (Ok a, w).

#[global] Instance M_bind : MBind M := fun A B f m w =>
  match m w with
  | (Ok a, w') => f a w'
  | (Exc e, w') => (Exc e, w')
  end.

Definition raise {A} (e : exn) : M A := fun w => (Exc e, w).

(** [try: body  except Exception as e: handler(e)] *)
Definition try_except {A} (body : M A) (handler : exn -> M A) : M A := fun w =>
  match body w with
  | (Ok a, w') => (Ok a, w')
  | (Exc e, w') => handler e w'
  end.

Definition emit (e : event) : M unit := fun w =>
  (Ok tt, {| index := index w; trace := trace w ++ [e] |}).

(** What the index does with a successful [PUT .../_doc/doc_id]: the
    document replaces whatever was kept under that identifier. *)
Definition store (doc_id : string) (doc : Doc) : M unit := fun w =>
  (Ok tt, {| index := <[doc_id := doc]> (index w); trace := trace w |}).

Definition now : M nat := fun w => (Ok (length (trace w)), w).

Definition of_response {A} (r : response A) : M A :=
  match r with
  | Success body => mret body
  | Failure => raise HTTPError
  end.

(** [a or b] on strings, and [d.get(k)] followed by [or]: a missing key
    gives [None], which [or] skips like the empty string. *)
Definition py_or (a b : string) : string :=
  match a with EmptyString => b | _ => a end.

Definition get_str (d : gmap string string) (k : string) : string :=
  default "" (d !! k).

(** *** tenacity *)

(** [wait_exponential(multiplier, min, max)] after the attempt numbered
    [attempt_number] (from 1): [multiplier * 2 ** (attempt_number - 1)],
    clamped between [min] and [max]. *)
Definition wait_exponential (multiplier min max : Z) (attempt_number : nat) : Z :=
  Z.max (Z.max 0 min) (Z.min (multiplier * 2 ^ (Z.of_nat attempt_number - 1)) max).

(** The loop of [@retry(wait=..., stop=stop_after_attempt(n))] around [f],
    entered at attempt [attempt_number] with [remaining] attempts allowed
    after it: a result is returned as it is; an exception ends the loop
    with [RetryError] when no attempt remains, and otherwise is followed
    by the wait and by the next attempt. *)
Fixpoint retry_from {A} (wait : nat -> Z) (remaining attempt_number : nat)
    (f : M A) {struct remaining} : M A :=
  try_except f (fun e =>
    match remaining with
    | O => raise (RetryError e)
    | S remaining' =>
        _ ← emit (Sleep (wait attempt_number));
        retry_from wait remaining' (S attempt_number) f
    end).

Definition retry {A} (wait : nat -> Z) (stop_after_attempt : nat) (f : M A) : M A :=
  retry_from wait (stop_after_attempt - 1) 1 f.

(** A watchdog event: what happened, to a directory or not, and where. *)
Inductive event_type := Created | Modified | Moved | Deleted.

Record FileSystemEvent := mkEvent {
  ev_type : event_type;
  is_directory : bool;
  src_path : Path;
}.

Section WithEnv.

Variable E : Env.

(** *** Files *)

Definition is_hidden (path : Path) : bool :=
  existsb (fun part => startswith part ".") path.

(** [path.exists()] and [path.is_file()]: the answer, or the [OSError]
    that they let through. *)
Definition path_exists (path : Path) : M bool :=
  match lookup_path (fs E) path with
  | Some _ => mret true
  | None => if stat_fails E path then raise (OSError path) else mret false
  end.

Definition path_is_file (path : Path) : M bool :=
  match lookup_path (fs E) path with
  | Some n => mret (node_is_file n)
  | None => if stat_fails E path then raise (OSError path) else mret false
  end.

(** [print(...)] *)
Definition print (line : log_line) : M unit :=
  if stdout_accepts E line then emit (Print line) else raise UnicodeEncodeError.

(** [path.open("rb")] then reading, or [path.read_bytes()] *)
Definition read_bytes (file_path : Path) : M (list byte) :=
  match lookup_path (fs E) file_path with
  | None => raise (FileNotFoundError file_path)
  | Some (Dir _) => raise (IsADirectoryError file_path)
  | Some (File data _ readable) =>
      if readable then mret data else raise (PermissionError file_path)
  end.

(** [path.stat()]: [st_size] and [st_mtime].  The values given for a
    directory are never observed: every caller reads the bytes next. *)
Definition stat (file_path : Path) : M (Z * Z) :=
  match lookup_path (fs E) file_path with
  | None => raise (FileNotFoundError file_path)
  | Some (Dir _) => mret (0, 0)
  | Some (File data mtime _) => mret (Z.of_nat (length data), mtime)
  end.

(** The loop [for chunk in iter(lambda: f.read(8192), b""):
    hasher.update(chunk)] over what remains of the file; the hasher is
    the sequence of bytes fed to it so far.  [fuel] bounds the number of
    reads; [compute_sha256] gives one more than the length of the file,
    which is never used up ([hash_chunks_all] below). *)
Fixpoint hash_chunks (fuel : nat) (rest hasher : list byte) : list byte :=
  match fuel with
  | O => hasher
  | S fuel' =>
      match take 8192 rest with
      | [] => hasher
      | chunk => hash_chunks fuel' (drop 8192 rest) (hasher ++ chunk)
      end
  end.

Definition compute_sha256 (file_path : Path) : M string :=
  data ← read_bytes file_path;
  mret (sha256_hexdigest E (hash_chunks (S (length data)) data [])).

Definition to_iso (dt : Z) : string := isoformat_utc E dt.

(** *** Extraction *)

Definition tika_put_meta (file_path : Path) : M (option (gmap string string)) :=
  data ← read_bytes file_path;
  t ← now;
  _ ← emit (TikaMetaRequest file_path);
  of_response (tika_meta E t data).

Definition tika_put_text (file_path : Path) : M string :=
  data ← read_bytes file_path;
  t ← now;
  _ ← emit (TikaTextRequest file_path);
  of_response (tika_text E t data).

(** The body of [tika_extract_text], one attempt. *)
Definition tika_extract_text_once (file_path : Path) : M Meta :=
  meta_resp ← tika_put_meta file_path;
  let metadata := default ∅ meta_resp in
  text ← tika_put_text file_path;
  mret {| m_title :=
            py_or (strip (py_or (get_str metadata "title")
                                (py_or (get_str metadata "dc:title") "")))
                  (stem file_path);
          m_content := py_or text "";
          m_media_type :=
            py_or (get_str metadata "Content-Type")
                  (py_or (get_str metadata "Content-Type-Parsed") "") |}.

(** [@retry(wait=wait_exponential(multiplier=1, min=1, max=8),
    stop=stop_after_attempt(5))] *)
Definition tika_extract_text (file_path : Path) : M Meta :=
  retry (wait_exponential 1 1 8) 5 (tika_extract_text_once file_path).

(** *** Indexing *)

(** The body of [index_document], one attempt: the index keeps the
    document under [doc_id] when the request succeeds. *)
Definition index_document_once (doc : Doc) : M unit :=
  let doc_id := py_or (d_sha256 doc) (d_id doc) in
  t ← now;
  _ ← emit (IndexPutRequest doc_id);
  _ ← of_response (opensearch_put E t doc_id doc);
  store doc_id doc.

Definition index_document (doc : Doc) : M unit :=
  retry (wait_exponential 1 1 8) 5 (index_document_once doc).

(** The end of [build_doc]: the suggestion terms and the dictionary,
    from the payload, the file's metadata, its digest and what the
    extraction gave.  A Python set has no specified order; the list
    made from it is modelled by the terms without their repetitions. *)
Definition build_doc_record (payload : Payload) (st_size st_mtime : Z)
    (sha256 : string) (meta : Meta) : Doc :=
  let suggest_terms :=
    (if p_level1 payload is EmptyString then [] else [p_level1 payload]) ++
    (if p_level2 payload is EmptyString then [] else [p_level2 payload]) ++
    (if m_title meta is EmptyString then [] else [m_title meta]) in
  {| d_id := sha256;
     d_path := p_path payload;
     d_file_name := p_file_name payload;
     d_level1 := p_level1 payload;
     d_level2 := p_level2 payload;
     d_title := py_or (m_title meta) (stem_of_name (p_file_name payload));
     d_content := py_or (m_content meta) "";
     d_media_type := py_or (m_media_type meta) "";
     d_ext := p_ext payload;
     d_modified_at := to_iso st_mtime;
     d_size_bytes := st_size;
     d_sha256 := sha256;
     d_suggest := remove_dups (filter (fun t => t <> "") suggest_terms) |}.

(** The [try] block of [build_doc]: extraction unless the file is
    larger than [MAX_OCR_MB] megabytes, and the default metadata when
    it is skipped or raises.  [st_size / (1024 * 1024) <= MAX_OCR_MB]
    divides by a power of two, which is exact, so the test is the one
    on integers. *)
Definition extract_or_default (p : Path) (st_size : Z) : M Meta :=
  let meta0 := {| m_title := stem p; m_content := ""; m_media_type := "" |} in
  try_except
    (if (st_size <=? MAX_OCR_MB (cfg E) * (1024 * 1024))%Z
     then tika_extract_text p
     else mret meta0)
    (fun _ => mret meta0).

Definition build_doc (payload : Payload) : M Doc :=
  let p := p_path payload in
  st ← stat p;
  let '(st_size, st_mtime) := st in
  sha256 ← compute_sha256 p;
  meta ← extract_or_default p st_size;
  mret (build_doc_record payload st_size st_mtime sha256 meta).

(** *** Classification of one path (watch mode) *)

(** The [try] block catches what [resolve] and [relative_to] raise. *)
Definition derive_levels (file_path : Path) : option (string * string) :=
  match resolve E file_path with
  | None => None
  | Some resolved =>
      match relative_to resolved (ROOT (cfg E)) with
      | None => None
      | Some parts =>
          if (length parts <? 3)%nat then None
          else
            match parts with
            | level1 :: level2 :: _ => Some (level1, level2)
            | _ => None
            end
      end
  end.

Definition index_path (file_path : Path) : M unit :=
  found ← path_exists file_path;
  regular ← (if found then path_is_file file_path else mret false);
  if negb found || negb regular
  then mret tt
  else
    let ext := lower (suffix file_path) in
    if bool_decide (ext ∉ ALLOW_EXTS) then mret tt
    else
      match derive_levels file_path with
      | None => mret tt
      | Some (level1, level2) =>
          let payload :=
            {| p_path := file_path;
               p_file_name := name file_path;
               p_level1 := level1;
               p_level2 := level2;
               p_ext := lstrip_dot ext;
               p_relative_subpath := "" |} in
          try_except
            (doc ← build_doc payload;
             _ ← index_document doc;
             print (LogIndexed file_path))
            (fun e => print (LogIndexError file_path e))
      end.

(** The two methods of [IngestEventHandler]. *)
Definition on_created (ev : FileSystemEvent) : M unit :=
  if is_directory ev then mret tt else index_path (src_path ev).

Definition on_modified (ev : FileSystemEvent) : M unit :=
  if is_directory ev then mret tt else index_path (src_path ev).

(** *** Discovery (batch mode) *)

(** The body of the innermost loop of [iter_documents] for one entry
    of [level2_dir.rglob("*")]: the payload it yields, if any. *)
Definition candidate (level1 level2 : string) (level2_dir : Path)
    (entry : Path * node) : list Payload :=
  let '(file_path, n) := entry in
  if negb (node_is_file n) then []
  else if is_hidden file_path || startswith (name file_path) "~$" then []
  else
    let ext := lower (suffix file_path) in
    if bool_decide (ext ∉ ALLOW_EXTS) then []
    else
      let rel_sub :=
        if bool_decide (parent file_path ≠ level2_dir)
        then String.concat "/"
               (default [] (relative_to (parent file_path) level2_dir))
        else "" in
      [ {| p_path := file_path;
           p_file_name := name file_path;
           p_level1 := level1;
           p_level2 := level2;
           p_ext := lstrip_dot ext;
           p_relative_subpath := rel_sub |} ].

(** The body of the loop over [level1_dir.iterdir()]. *)
Definition level2_candidates (level1 : string) (entry : Path * node) : list Payload :=
  let '(level2_dir, n) := entry in
  if negb (node_is_dir n) || is_hidden level2_dir then []
  else
    let level2 := name level2_dir in
    if bool_decide (FILTER_LEVEL2 (cfg E) ≠ ∅) &&
       bool_decide (level2 ∉ FILTER_LEVEL2 (cfg E))
    then []
    else flat_map (candidate level1 level2 level2_dir) (rglob level2_dir n).

(** The body of the loop over [ROOT.iterdir()]. *)
Definition level1_candidates (entry : Path * node) : list Payload :=
  let '(level1_dir, n) := entry in
  if negb (node_is_dir n) || is_hidden level1_dir then []
  else
    let level1 := name level1_dir in
    if bool_decide (FILTER_LEVEL1 (cfg E) ≠ ∅) &&
       bool_decide (level1 ∉ FILTER_LEVEL1 (cfg E))
    then []
    else
      match n with
      | Dir es => flat_map (level2_candidates level1) (children level1_dir es)
      | File _ _ _ => []
      end.

(** The counter [yielded] and the test after each [yield]: the
    generator returns once [MAX_DOCS] is not zero and reached. *)
Fixpoint capped (yielded : Z) (candidates : list Payload) : list Payload :=
  match candidates with
  | [] => []
  | payload :: rest =>
      let yielded := yielded + 1 in
      payload ::
        (if negb (MAX_DOCS (cfg E) =? 0)%Z && (MAX_DOCS (cfg E) <=? yielded)%Z
         then []
         else capped yielded rest)
  end.

(** The payloads that the generator yields, in order; iterating over a
    root that is not a directory raises, and so does [ROOT.exists()] on a
    root that cannot be examined. *)
Definition iter_documents : result (list Payload) :=
  match lookup_path (fs E) (ROOT (cfg E)) with
  | None =>
      if stat_fails E (ROOT (cfg E)) then Exc (OSError (ROOT (cfg E))) else Ok []
  | Some (File _ _ _) => Exc (NotADirectoryError (ROOT (cfg E)))
  | Some (Dir es) =>
      Ok (capped 0 (flat_map level1_candidates (children (ROOT (cfg E)) es)))
  end.

(** *** The initial pass of [main] *)

(** One turn of [for payload in iter_documents():], with the counter
    [total] before and after.  The [try] block is written in two parts,
    because its handler finds the counter as the statement that raised
    left it: as it was when one of the two calls raised, incremented
    already when [print] did. *)
Definition main_step (total : Z) (payload : Payload) : M Z :=
  indexed ← try_except
              (doc ← build_doc payload;
               _ ← index_document doc;
               mret true)
              (fun e =>
                 _ ← print (LogBatchError (p_path payload) e);
                 mret false);
  if indexed : bool then
    let total := total + 1 in
    try_except
      (_ ← (if (total <=? 10)%Z || (total mod 50 =? 0)%Z
            then print (LogProgress total (p_file_name payload))
            else mret tt);
       mret total)
      (fun e =>
         _ ← print (LogBatchError (p_path payload) e);
         mret total)
  else mret total.

Fixpoint main_loop (total : Z) (payloads : list Payload) : M Z :=
  match payloads with
  | [] => mret total
  | payload :: rest =>
      total ← main_step total payload;
      main_loop total rest
  end.

(** The block [if initial:] of [main]. *)
Definition main_initial : M unit :=
  match iter_documents with
  | Exc e => raise e
  | Ok payloads =>
      total ← main_loop 0 payloads;
      print (LogBatchDone total)
  end.

(** The observer hands its events to the handler one after the other;
    the handler overrides [on_created] and [on_modified] only.  An
    exception that leaves the handler ends the thread that dispatches:
    the events that follow are not handled. *)
Fixpoint dispatch (events : list FileSystemEvent) : M unit :=
  match events with
  | [] => mret tt
  | ev :: rest =>
      _ ← match ev_type ev with
          | Created => on_created ev
          | Modified => on_modified ev
          | Moved | Deleted => mret tt
          end;
      dispatch rest
  end.

End WithEnv.

(** *** Creation of the index *)

(** The answer to a request whose status the caller reads itself: a status
    code, or no answer at all (the request raises). *)
Inductive answer :=
| Status (status_code : Z)
| NoAnswer.

(** The body of the creation request: the content of the file
    [opensearch-index.json] beside the script, or the minimal mapping when
    that file cannot be read or parsed. *)
Inductive index_body :=
| MappingFile (content : string)
| MappingDefault.

Inductive admin_request :=
| GetIndex                        (* GET OPENSEARCH_URL/INDEX_NAME *)
| PutIndex (body : index_body).   (* PUT OPENSEARCH_URL/INDEX_NAME *)

(** [resp.raise_for_status()] raises for the statuses 400 to 599. *)
Definition rejected (status_code : Z) : bool :=
  (400 <=? status_code)%Z && (status_code <? 600)%Z.

(** [ensure_index], given the answer to the existence check, the content of
    the mapping file ([None] when reading or parsing it raises) and the
    answer to the creation request: the outcome and the requests sent. *)
Definition ensure_index (get : answer) (mapping_file : option string)
    (create : answer) : result unit * list admin_request :=
  match get with
  | NoAnswer => (Exc HTTPError, [GetIndex])
  | Status status_code =>
      if (status_code =? 200)%Z then (Ok tt, [GetIndex])
      else if (status_code =? 404)%Z then
        let body :=
          match mapping_file with
          | Some content => MappingFile content
          | None => MappingDefault
          end in
        match create with
        | NoAnswer => (Exc HTTPError, [GetIndex; PutIndex body])
        | Status created =>
            if rejected created
            then (Exc HTTPError, [GetIndex; PutIndex body])
            else (Ok tt, [GetIndex; PutIndex body])
        end
      else if rejected status_code then (Exc HTTPError, [GetIndex])
      else (Ok tt, [GetIndex])
  end.

End Ingest.

(** ** api/main.py: the statistics endpoint *)

Module Api.

Definition ALLOW_EXTS : gset string :=
  {[ ".pdf"; ".doc"; ".docx"; ".xls"; ".xlsx" ]}.

Definition _is_hidden (path : Path) : bool :=
  existsb (fun part => startswith part ".") path.

(** The dictionary built by [_scan_disk_stats]. *)
Record DiskStats := mkDiskStats {
  ds_root : Path;
  ds_total : Z;
  ds_by_level1 : gmap string Z;
  ds_by_level2 : gmap string Z;
  ds_by_level1_level2 : gmap string (gmap string Z);
}.

(** The dictionary returned by [_fetch_index_stats]. *)
Record IndexStats := mkIndexStats {
  is_total : Z;
  is_by_level1 : gmap string Z;
  is_by_level2 : gmap string Z;
}.

(** What the endpoint reads of the body of the search response:
    [hits.total] (absent, an object with or without ["value"], or a
    number) and the buckets of the two aggregations, in order. *)
Inductive hits_total :=
| TotalObject (value : option Z)
| TotalNumber (n : Z).

Record SearchBody := mkSearchBody {
  sb_total : option hits_total;
  sb_buckets_level1 : list (string * Z);
  sb_buckets_level2 : list (string * Z);
}.

Inductive exn :=
| RequestError                           (* requests: no answer, bad status, bad body *)
| AttributeError
| NotADirectoryError (p : Path)
| HTTPException (status_code : Z) (cause : exn).

Inductive result (A : Type) :=
| Ok (a : A)
| Exc (e : exn).
Arguments Ok {A} a.
Arguments Exc {A} e.

(** The document root, the filesystem, and the answer of the index to
    the aggregation query ([None]: the request fails, the status is
    rejected by [raise_for_status], or the body is not JSON). *)
Record Env := mkEnv {
  DOC_ROOT : Path;
  fs : node;
  search : option SearchBody;
}.

(** [d.get(k, 0)] *)
Definition get0 (d : gmap string Z) (k : string) : Z := default 0 (d !! k).

(** The loop over [level2_dir.rglob("*")]; the state is the dictionary
    and the two counters [lvl1_total] and [lvl2_count]. *)
Definition scan_file (level2 : string) (st : DiskStats * Z * Z)
    (entry : Path * node) : DiskStats * Z * Z :=
  let '(stats, lvl1_total, lvl2_count) := st in
  let '(file_path, n) := entry in
  if negb (node_is_file n) || _is_hidden file_path
     || startswith (name file_path) "~$"
  then st
  else if bool_decide (lower (suffix file_path) ∉ ALLOW_EXTS) then st
  else
    ({| ds_root := ds_root stats;
        ds_total := ds_total stats + 1;
        ds_by_level1 := ds_by_level1 stats;
        ds_by_level2 :=
          <[level2 := get0 (ds_by_level2 stats) level2 + 1]> (ds_by_level2 stats);
        ds_by_level1_level2 := ds_by_level1_level2 stats |},
     lvl1_total + 1, lvl2_count + 1).

(** The loop over [level1_dir.iterdir()]; the state is the dictionary
    and [lvl1_total]. *)
Definition scan_level2 (level1 : string) (st : DiskStats * Z)
    (entry : Path * node) : DiskStats * Z :=
  let '(stats, lvl1_total) := st in
  let '(level2_dir, n) := entry in
  if negb (node_is_dir n) || _is_hidden level2_dir then st
  else
    let level2 := name level2_dir in
    let '(stats, lvl1_total, lvl2_count) :=
      foldl (scan_file level2) (stats, lvl1_total, 0) (rglob level2_dir n) in
    if (lvl2_count =? 0)%Z then (stats, lvl1_total)
    else
      let inner := default ∅ (ds_by_level1_level2 stats !! level1) in
      ({| ds_root := ds_root stats;
          ds_total := ds_total stats;
          ds_by_level1 := ds_by_level1 stats;
          ds_by_level2 := ds_by_level2 stats;
          ds_by_level1_level2 :=
            <[level1 := <[level2 := lvl2_count]> inner]> (ds_by_level1_level2 stats) |},
       lvl1_total).

(** The loop over [root_path.iterdir()]. *)
Definition scan_level1 (stats : DiskStats) (entry : Path * node) : DiskStats :=
  let '(level1_dir, n) := entry in
  if negb (node_is_dir n) || _is_hidden level1_dir then stats
  else
    let level1 := name level1_dir in
    let '(stats, lvl1_total) :=
      match n with
      | Dir es => foldl (scan_level2 level1) (stats, 0) (children level1_dir es)
      | File _ _ _ => (stats, 0)
      end in
    if (lvl1_total =? 0)%Z then stats
    else
      {| ds_root := ds_root stats;
         ds_total := ds_total stats;
         ds_by_level1 :=
           <[level1 := get0 (ds_by_level1 stats) level1 + lvl1_total]> (ds_by_level1 stats);
         ds_by_level2 := ds_by_level2 stats;
         ds_by_level1_level2 := ds_by_level1_level2 stats |}.

Definition empty_stats (root_path : Path) : DiskStats :=
  {| ds_root := root_path; ds_total := 0; ds_by_level1 := ∅;
     ds_by_level2 := ∅; ds_by_level1_level2 := ∅ |}.

Definition _scan_disk_stats (fs : node) (root_path : Path) : result DiskStats :=
  let stats := empty_stats root_path in
  match lookup_path fs root_path with
  | None => Ok stats
  | Some (File _ _ _) => Exc (NotADirectoryError root_path)
  | Some (Dir es) => Ok (foldl scan_level1 stats (children root_path es))
  end.

(** [{b["key"]: b["doc_count"] for b in buckets}]: a later bucket
    replaces an earlier one with the same key. *)
Definition of_buckets (buckets : list (string * Z)) : gmap string Z :=
  foldl (fun d b => <[fst b := snd b]> d) ∅ buckets.

Definition _fetch_index_stats (E : Env) : result IndexStats :=
  match search E with
  | None => Exc RequestError
  | Some data =>
      match (match sb_total data with
             | None => Ok 0                        (* [{}.get("value", 0)] *)
             | Some (TotalObject value) => Ok (default 0 value)
             | Some (TotalNumber _) => Exc AttributeError
             end) with
      | Exc e => Exc e
      | Ok total_value =>
          Ok {| is_total := total_value;
                is_by_level1 := of_buckets (sb_buckets_level1 data);
                is_by_level2 := of_buckets (sb_buckets_level2 data) |}
      end
  end.

(** The inner function of [stats]; the keys are those of either
    dictionary (the source lists them sorted, which a finite map does
    not record). *)
Definition diff_maps (a b : gmap string Z) : gmap string Z :=
  let keys : gset string := dom a ∪ dom b in
  set_to_map (fun k => (k, get0 a k - get0 b k)) keys.

Record Diff := mkDiff {
  total_missing : Z;
  by_level1_missing : gmap string Z;
  by_level2_missing : gmap string Z;
}.

Record StatsResponse := mkStatsResponse {
  sr_doc_root : Path;
  sr_disk : DiskStats;
  sr_index : IndexStats;
  sr_diff : Diff;
}.

Definition stats (E : Env) : result StatsResponse :=
  match _scan_disk_stats (fs E) (DOC_ROOT E) with
  | Exc e => Exc e
  | Ok disk =>
      match _fetch_index_stats E with
      | Exc e => Exc (HTTPException 502 e)
      | Ok index =>
          let diff :=
            {| total_missing := ds_total disk - is_total index;
               by_level1_missing := diff_maps (ds_by_level1 disk) (is_by_level1 index);
               by_level2_missing := diff_maps (ds_by_level2 disk) (is_by_level2 index) |} in
          Ok {| sr_doc_root := ds_root disk; sr_disk := disk;
                sr_index := index; sr_diff := diff |}
      end
  end.

(** *** Search filters *)

(** [s.split(sep)] for a separator of one character: the pieces between
    the occurrences of [sep], empty pieces included. *)
Fixpoint split (sep : ascii) (s : string) : list string :=
  match s with
  | EmptyString => [EmptyString]
  | String a rest =>
      if Ascii.eqb a sep then EmptyString :: split sep rest
      else
        match split sep rest with
        | piece :: pieces => String a piece :: pieces
        | [] => [String a EmptyString]
        end
  end.

(** [[s.strip() for s in v.split(",") if s.strip()]] *)
Definition terms_of (v : string) : list string :=
  filter (fun t => t <> "") (map strip (split "," v)).

(** [_terms_filter]: [Some (field, expanded)] stands for the dictionary
    [{"terms": {field: expanded}}]. *)
Definition _terms_filter (field : string) (values : option (list string))
    : option (string * list string) :=
  match values with
  | None | Some [] => None
  | Some values =>
      let expanded :=
        flat_map (fun v => if v is EmptyString then [] else terms_of v) values in
      match expanded with
      | [] => None
      | _ => Some (field, expanded)
      end
  end.

(** *** Serving files *)

(** [Path(path)]: whether the string is absolute, and its segments; empty
    segments and ["."] are dropped, [".."] is kept. *)
Definition parse_path (path : string) : bool * list string :=
  (startswith path "/",
   filter (fun seg => seg <> "" /\ seg <> ".") (split "/" path)).

(** What [resolve] does with the segments when no directory is a symbolic
    link: [".."] goes up one level and stays at the anchor.  [done] is what
    is resolved so far, last segment first. *)
Fixpoint collapse (done : list string) (segments : list string) : Path :=
  match segments with
  | [] => rev done
  | seg :: rest =>
      if String.eqb seg ".." then collapse (List.tl done) rest
      else collapse (seg :: done) rest
  end.

(** [Path(path).resolve()] in the working directory [cwd]. *)
Definition resolve (cwd : Path) (path : string) : Path :=
  let '(absolute, segments) := parse_path path in
  collapse (if absolute then [] else rev cwd) segments.

(** The dictionary [mime_map] and its default. *)
Definition media_type_of (ext : string) : string :=
  if String.eqb ext ".pdf" then "application/pdf"
  else if String.eqb ext ".xlsx"
  then "application/vnd.openxmlformats-officedocument.spreadsheetml.sheet"
  else if String.eqb ext ".xls" then "application/vnd.ms-excel"
  else if String.eqb ext ".doc" then "application/msword"
  else if String.eqb ext ".docx"
  then "application/vnd.openxmlformats-officedocument.wordprocessingml.document"
  else "application/octet-stream".

(** A string with a NUL character: [resolve] raises [ValueError] on it
    (the system calls behind it refuse such a path). *)
Definition has_nul (path : string) : bool :=
  existsb (Ascii.eqb Ascii.zero) (list_ascii_of_string path).

(** What the checks that the three file endpoints share come to: the
    status of the [HTTPException] raised, the [OSError] that [exists] or
    [is_file] let through, or the resolved path. *)
Inductive checked :=
| Refused (status_code : Z)
| Unexamined (abs_path : Path)
| Accepted (abs_path : Path).

(** The [try] block catches every exception of the two [resolve] and of
    [relative_to]; the tests that follow it are not protected.  Every
    node of the tree can be examined; for a path that the tree does not
    have, [stat_fails] tells whether examining it fails otherwise than by
    its absence (a name too long, a directory that may not be searched). *)
Definition checked_path (E : Env) (stat_fails : Path -> bool) (cwd : Path)
    (path : string) : checked :=
  if has_nul path then Refused 403
  else
    let abs_path := resolve cwd path in
    let root := collapse [] (DOC_ROOT E) in
    match relative_to abs_path root with
    | None => Refused 403
    | Some _ =>
        match lookup_path (fs E) abs_path with
        | None => if stat_fails abs_path then Unexamined abs_path else Refused 404
        | Some n => if node_is_file n then Accepted abs_path else Refused 404
        end
    end.

(** What [get_file] answers: the status of an [HTTPException], the
    [OSError] of the tests, or a [FileResponse] with its path, media type
    and download name. *)
Inductive file_response :=
| FileError (status_code : Z)
| FileOSError (path : Path)
| FileResponse (path : Path) (media_type filename : string).

Definition get_file (E : Env) (stat_fails : Path -> bool) (cwd : Path)
    (path : string) : file_response :=
  match checked_path E stat_fails cwd path with
  | Refused status_code => FileError status_code
  | Unexamined abs_path => FileOSError abs_path
  | Accepted abs_path =>
      FileResponse abs_path (media_type_of (lower (suffix abs_path))) (name abs_path)
  end.

(** The generator [file_iterator] of [get_file_inline] over what remains of
    the file: the chunks it yields.  [fuel] bounds the number of reads; the
    endpoint gives one more than the length of the file. *)
Fixpoint file_iterator (fuel : nat) (chunk_size : nat) (rest : list byte)
    : list (list byte) :=
  match fuel with
  | O => []
  | S fuel' =>
      match take chunk_size rest with
      | [] => []
      | chunk => chunk :: file_iterator fuel' chunk_size (drop chunk_size rest)
      end
  end.

(** What [get_file_inline] answers: a status, the [OSError] of the tests,
    or a [StreamingResponse] with the chunks of the body ([None] when
    opening the file raises), the media type and the [Content-Disposition]
    header. *)
Inductive streaming_response :=
| StreamError (status_code : Z)
| StreamOSError (path : Path)
| StreamingResponse (body : option (list (list byte)))
    (media_type content_disposition : string).

Definition get_file_inline (E : Env) (stat_fails : Path -> bool) (cwd : Path)
    (path : string) : streaming_response :=
  match checked_path E stat_fails cwd path with
  | Refused status_code => StreamError status_code
  | Unexamined abs_path => StreamOSError abs_path
  | Accepted abs_path =>
      let body :=
        match lookup_path (fs E) abs_path with
        | Some (File data _ true) =>
            Some (file_iterator (S (length data)) 8192 data)
        | _ => None
        end in
      StreamingResponse body (media_type_of (lower (suffix abs_path)))
        ("inline; filename=" ++ String (ascii_of_nat 34) (name abs_path)
           ++ String (ascii_of_nat 34) "")%string
  end.

End Api.

(** ** A small installation, for the examples

    A document root [/data/ndf] with two categories, a hidden file, an
    office lock file, a file that is too shallow, an unreadable file and a
    copy of a document under another name; a stand-in for the digest that
    spells the bytes; and services that always or never answer. *)

Module Demo.

Definition hexdigest (data : list byte) : string := string_of_list_byte data.

Definition isoformat (t : Z) : string :=
  if (t =? 0)%Z then "1970-01-01T00:00:00+00:00" else "1970-01-01T00:00:05+00:00".

Definition abc : list byte := [x61; x62; x63]%byte.

Definition tree : node :=
  Dir [("data", Dir [("ndf", Dir [
    ("A", Dir [
       ("B", Dir [
          ("report.pdf", File abc 0 true);
          ("sub", Dir [("copy.PDF", File abc 5 true)]);
          (".secret.pdf", File [x73]%byte 0 true);
          ("~$lock.docx", File [x6c]%byte 0 true);
          ("notes.txt", File [x6e]%byte 0 true);
          ("locked.pdf", File [x6b]%byte 0 false)]);
       ("top.pdf", File [x74]%byte 0 true)]);
    ("C", Dir [("D", Dir [("sheet.xlsx", File [x78; x79]%byte 0 true)])]);
    ("loose.pdf", File [x6f]%byte 0 true)])])].

Definition root : Path := ["data"; "ndf"].

Definition config : Ingest.Config :=
  {| Ingest.ROOT := root; Ingest.FILTER_LEVEL1 := ∅; Ingest.FILTER_LEVEL2 := ∅;
     Ingest.MAX_DOCS := 0; Ingest.MAX_OCR_MB := 30 |}.

(** Only category [C] is allowed, and one document at most. *)
Definition config_only_C : Ingest.Config :=
  {| Ingest.ROOT := root; Ingest.FILTER_LEVEL1 := {[ "C" ]};
     Ingest.FILTER_LEVEL2 := ∅; Ingest.MAX_DOCS := 1; Ingest.MAX_OCR_MB := 30 |}.

(** No extraction above zero megabytes. *)
Definition config_no_ocr : Ingest.Config :=
  {| Ingest.ROOT := root; Ingest.FILTER_LEVEL1 := ∅; Ingest.FILTER_LEVEL2 := ∅;
     Ingest.MAX_DOCS := 0; Ingest.MAX_OCR_MB := 0 |}.

Definition env (c : Ingest.Config) (tika_up opensearch_up : bool) : Ingest.Env :=
  {| Ingest.sha256_hexdigest := hexdigest;
     Ingest.isoformat_utc := isoformat;
     Ingest.cfg := c;
     Ingest.fs := tree;
     Ingest.resolve := Some;
     Ingest.stat_fails := fun _ => false;
     Ingest.tika_meta := fun _ _ =>
       if tika_up then Ingest.Success (Some {[ "title" := " Expenses " ]})
       else Ingest.Failure;
     Ingest.tika_text := fun _ _ =>
       if tika_up then Ingest.Success "lunch 12 EUR" else Ingest.Failure;
     Ingest.opensearch_put := fun _ _ _ =>
       if opensearch_up then Ingest.Success tt else Ingest.Failure;
     Ingest.stdout_accepts := fun _ => true |}.

Definition world0 : Ingest.World := {| Ingest.index := ∅; Ingest.trace := [] |}.

Definition report : Path := root ++ ["A"; "B"; "report.pdf"].
Definition copy : Path := root ++ ["A"; "B"; "sub"; "copy.PDF"].
Definition secret : Path := root ++ ["A"; "B"; ".secret.pdf"].
Definition lock : Path := root ++ ["A"; "B"; "~$lock.docx"].
Definition locked : Path := root ++ ["A"; "B"; "locked.pdf"].
Definition top : Path := root ++ ["A"; "top.pdf"].
Definition sheet : Path := root ++ ["C"; "D"; "sheet.xlsx"].

End Demo.

(** * Vocabulary of the properties *)

Import Ingest.

(** A computation that leaves the index as it is. *)
Definition keeps_index {A} (m : M A) : Prop :=
  forall w, index (snd (m w)) = index w.

(** The identifier that [index_document] puts in the URL:
    [doc.get("sha256") or doc.get("id")]. *)
Definition doc_id_of (doc : Doc) : string := py_or (d_sha256 doc) (d_id doc).

(** The number of selected events in a sequence. *)
Definition requests (sel : event -> bool) (evs : list event) : nat :=
  length (List.filter sel evs).

(** A computation that appends to the trace at most [n] selected events. *)
Definition at_most {A} (sel : event -> bool) (n : nat) (m : M A) : Prop :=
  forall w, exists evs,
    trace (snd (m w)) = trace w ++ evs /\ (requests sel evs <= n)%nat.

(** The waits recorded in a sequence of events. *)
Definition sleeps (evs : list event) : list Z :=
  flat_map (fun e => match e with Sleep s => [s] | _ => [] end) evs.

(** The two kinds of request that count the attempts of the decorated
    functions. *)
Definition is_put (e : event) : bool :=
  match e with IndexPutRequest _ => true | _ => false end.

Definition is_meta_request (e : event) : bool :=
  match e with TikaMetaRequest _ => true | _ => false end.

(** One attempt: some events, none of them a wait, and at most one of the
    selected requests. *)
Definition one_attempt {A} (sel : event -> bool) (f : M A) : Prop :=
  forall w, exists evs,
    trace (snd (f w)) = trace w ++ evs /\ sleeps evs = [] /\
    (requests sel evs <= 1)%nat.

(** The policy of the two decorated functions, read on the trace: a result
    comes after the waits 1, 2, 4, 8 or a beginning of them; a failure is a
    [RetryError] and comes after exactly these four waits, that is, after
    the fifth attempt. *)
Definition follows_policy {A} (m : M A) : Prop :=
  forall w, exists evs,
    trace (snd (m w)) = trace w ++ evs /\
    match fst (m w) with
    | Ok _ => sleeps evs `prefix_of` [1; 2; 4; 8]
    | Exc e => (exists last, e = RetryError last) /\ sleeps evs = [1; 2; 4; 8]
    end.

(** The metadata that [build_doc] starts from, kept when the extraction is
    skipped or raises. *)
Definition meta0 (p : Path) : Meta :=
  {| m_title := stem p; m_content := ""; m_media_type := "" |}.

(** The two calls of the [try] blocks of [main] and [index_path]. *)
Definition build_and_index (E : Env) (payload : Payload) : M unit :=
  doc ← build_doc E payload; index_document E doc.

(** The world after [print]. *)
Definition say (line : log_line) (w : World) : World :=
  {| index := index w; trace := trace w ++ [Print line] |}.

(** The facts that hold of every payload of [iter_documents]. *)
Definition batch_accepts (E : Env) (pb : Payload) : Prop :=
  exists l1 l2 rest,
    rest <> [] /\
    p_path pb = ROOT (cfg E) ++ l1 :: l2 :: rest /\
    p_level1 pb = l1 /\ p_level2 pb = l2 /\
    p_file_name pb = name (p_path pb) /\
    p_ext pb = lstrip_dot (lower (suffix (p_path pb))) /\
    lower (suffix (p_path pb)) ∈ ALLOW_EXTS /\
    is_hidden (p_path pb) = false /\
    startswith (name (p_path pb)) "~$" = false /\
    (FILTER_LEVEL1 (cfg E) = ∅ \/ l1 ∈ FILTER_LEVEL1 (cfg E)) /\
    (FILTER_LEVEL2 (cfg E) = ∅ \/ l2 ∈ FILTER_LEVEL2 (cfg E)).

(** The payload that [index_path] builds for an accepted path. *)
Definition watch_payload (f : Path) (l1 l2 : string) : Payload :=
  {| p_path := f; p_file_name := name f; p_level1 := l1; p_level2 := l2;
     p_ext := lstrip_dot (lower (suffix f)); p_relative_subpath := "" |}.

(** The end of [index_path], after the two calls: the line for the
    outcome is printed; when the line of a success cannot be printed, the
    handler prints that failure instead; the handler's own [print] is not
    protected. *)
Definition watch_finish (E : Env) (f : Path) (rw : result unit * World)
    : result unit * World :=
  match fst rw with
  | Ok _ =>
      try_except (print E (LogIndexed f)) (fun e => print E (LogIndexError f e))
        (snd rw)
  | Exc e => print E (LogIndexError f e) (snd rw)
  end.

(** A standard output that encodes every line. *)
Definition stdout_accepts_all (E : Env) : Prop :=
  forall line, stdout_accepts E line = true.

(** An index that accepts every request. *)
Definition index_accepts_all (E : Env) : Prop :=
  forall t doc_id doc, opensearch_put E t doc_id doc = Success tt.

(** A record whose path has three segments or more below the root and whose
    categories are the first two of them. *)
Definition classified (E : Env) (doc : Doc) : Prop :=
  exists l1 l2 rest,
    rest <> [] /\ d_path doc = ROOT (cfg E) ++ l1 :: l2 :: rest /\
    d_level1 doc = l1 /\ d_level2 doc = l2.

(** The same of the path that the record's path resolves to. *)
Definition classified_resolved (E : Env) (doc : Doc) : Prop :=
  exists resolved l1 l2 rest,
    resolve E (d_path doc) = Some resolved /\
    rest <> [] /\ resolved = ROOT (cfg E) ++ l1 :: l2 :: rest /\
    d_level1 doc = l1 /\ d_level2 doc = l2.

(** Every record of the index after is a record of the index before, or
    satisfies [Q]. *)
Definition only_adds (Q : Doc -> Prop) (w w' : World) : Prop :=
  forall id doc, index w' !! id = Some doc -> index w !! id = Some doc \/ Q doc.

(** The payloads that [iter_documents] would yield without the cap, for a
    root directory with the entries [es]. *)
Definition candidates (E : Env) (es : list (string * node)) : list Payload :=
  flat_map (level1_candidates E) (children (ROOT (cfg E)) es).

(** An installation whose document root has a hidden segment. *)
Module Hidden.

Definition tree : node :=
  Dir [("home", Dir [(".cache", Dir [
    ("A", Dir [("B", Dir [("report.pdf", File Demo.abc 0 true)])])])])].

Definition root : Path := ["home"; ".cache"].

Definition env : Env :=
  {| sha256_hexdigest := Demo.hexdigest;
     isoformat_utc := Demo.isoformat;
     cfg := {| ROOT := root; FILTER_LEVEL1 := ∅; FILTER_LEVEL2 := ∅;
               MAX_DOCS := 0; MAX_OCR_MB := 30 |};
     fs := tree;
     resolve := Some;
     stat_fails := fun _ => false;
     tika_meta := fun _ _ => Success None;
     tika_text := fun _ _ => Success "text";
     opensearch_put := fun _ _ _ => Success tt;
     stdout_accepts := fun _ => true |}.

Definition report : Path := root ++ ["A"; "B"; "report.pdf"].

End Hidden.

(** The values that the field [ext] of a payload can take. *)
Definition EXTS : gset string := {[ "pdf"; "doc"; "docx"; "xls"; "xlsx" ]}.

(** A record that describes a readable regular file of the tree as it is:
    identifier and [sha256] are the digest of its bytes, the size and the
    date are the file's, the name is the last segment of the path, and the
    extension is one of the five. *)
Definition faithful_record (E : Env) (doc : Doc) : Prop :=
  exists data mtime,
    lookup_path (fs E) (d_path doc) = Some (File data mtime true) /\
    d_id doc = sha256_hexdigest E data /\
    d_sha256 doc = sha256_hexdigest E data /\
    d_size_bytes doc = Z.of_nat (length data) /\
    d_modified_at doc = isoformat_utc E mtime /\
    d_file_name doc = name (d_path doc) /\
    d_ext doc ∈ EXTS.

(** From [w] to [w']: each record of the index is the one that was there
    or a new one that satisfies [Q] and is kept under its own identifier;
    no identifier is lost; the trace is extended. *)
Definition grows (Q : Doc -> Prop) (w w' : World) : Prop :=
  (forall id doc,
      index w' !! id = Some doc ->
      index w !! id = Some doc \/ (Q doc /\ d_id doc = id)) /\
  dom (index w) ⊆ dom (index w') /\
  exists evs, trace w' = trace w ++ evs.

(** A payload as both trigger paths make them. *)
Definition regular_payload (payload : Payload) : Prop :=
  p_file_name payload = name (p_path payload) /\
  p_ext payload ∈ EXTS.

(** The record that [build_doc] makes keeps the path and the categories of
    its payload: what is said of a payload in these terms holds of its
    record. *)
Definition of_payload (C : Path -> string -> string -> Prop) (doc : Doc) : Prop :=
  C (d_path doc) (d_level1 doc) (d_level2 doc).

(** Categories that are the first two segments of the path below the
    root, and of the path it resolves to. *)
Definition levels_of_path (E : Env) (path : Path) (l1 l2 : string) : Prop :=
  exists rest, rest <> [] /\ path = ROOT (cfg E) ++ l1 :: l2 :: rest.

Definition levels_of_resolved (E : Env) (path : Path) (l1 l2 : string) : Prop :=
  exists resolved, resolve E path = Some resolved /\ levels_of_path E resolved l1 l2.

(** Services whose answers do not depend on the instant of the request. *)
Definition steady (E : Env) : Prop :=
  (forall t t' data, tika_meta E t data = tika_meta E t' data) /\
  (forall t t' data, tika_text E t data = tika_text E t' data) /\
  (forall t t' id doc, opensearch_put E t id doc = opensearch_put E t' id doc).

(** A computation whose result and events are the same in every world, and
    that leaves the index as it is. *)
Definition stateless {A} (m : M A) : Prop :=
  exists r evs, forall w,
    m w = (r, {| index := index w; trace := trace w ++ evs |}).

(** An upsert, or nothing. *)
Definition upsert (o : option (string * Doc)) (idx : gmap string Doc)
    : gmap string Doc :=
  match o with
  | Some (id, doc) => <[id := doc]> idx
  | None => idx
  end.

(** A sequence of them, the first one first. *)
Fixpoint upserts (os : list (option (string * Doc))) (idx : gmap string Doc)
    : gmap string Doc :=
  match os with
  | [] => idx
  | o :: rest => upserts rest (upsert o idx)
  end.

(** The record that a sequence of upserts leaves under [k], if any of them
    is for [k]. *)
Fixpoint last_upsert (os : list (option (string * Doc))) (k : string) : option Doc :=
  match os with
  | [] => None
  | o :: rest =>
      match last_upsert rest k with
      | Some doc => Some doc
      | None =>
          match o with
          | Some (id, doc) => if decide (id = k) then Some doc else None
          | None => None
          end
      end
  end.

(** The event that the watcher receives when a file is written. *)
Definition modified (f : Path) : FileSystemEvent :=
  {| ev_type := Modified; is_directory := false; src_path := f |}.

(** The number of payloads of a category. *)
Definition count_level1 (l : string) (payloads : list Payload) : Z :=
  Z.of_nat (length (List.filter (fun p => String.eqb (p_level1 p) l) payloads)).

Definition count_level2 (l : string) (payloads : list Payload) : Z :=
  Z.of_nat (length (List.filter (fun p => String.eqb (p_level2 p) l) payloads)).

(** A dictionary of counts without a zero or negative entry. *)
Definition positive_counts (d : gmap string Z) : Prop :=
  forall l v, d !! l = Some v -> 0 < v.

(** What the handler does with one event. *)
Definition handle (E : Env) (ev : FileSystemEvent) : M unit :=
  match ev_type ev with
  | Created => on_created E ev
  | Modified => on_modified E ev
  | Moved | Deleted => mret tt
  end.


(** An installation with a file whose name has a byte that is not UTF-8
    text (the system gives such a name with a lone surrogate), and a
    standard output that encodes only what can be decoded, as it does
    under a UTF-8 locale. *)
Module Strict.

Definition bad_name : string := String (ascii_of_nat 255) "x.pdf".

Definition tree : node :=
  Dir [("data", Dir [("ndf", Dir [
    ("A", Dir [("B", Dir [
       (bad_name, File [x62]%byte 0 true);
       ("next.pdf", File [x6e]%byte 0 true)])])])])].

Definition root : Path := ["data"; "ndf"].
Definition bad : Path := root ++ ["A"; "B"; bad_name].
Definition next : Path := root ++ ["A"; "B"; "next.pdf"].

(** No byte [0xFF], which no UTF-8 text has. *)
Definition decodable (s : string) : bool :=
  forallb (fun c => negb (Ascii.eqb c (ascii_of_nat 255))) (list_ascii_of_string s).

Definition accepts (line : log_line) : bool :=
  match line with
  | LogIndexed p | LogIndexError p _ | LogBatchError p _ => forallb decodable p
  | LogProgress _ file_name => decodable file_name
  | LogBatchDone _ => true
  end.

(** [index_up] tells whether the index accepts the requests or refuses
    them all. *)
Definition installation (index_up : bool) : Env :=
  {| sha256_hexdigest := Demo.hexdigest;
     isoformat_utc := Demo.isoformat;
     cfg := {| ROOT := root; FILTER_LEVEL1 := ∅; FILTER_LEVEL2 := ∅;
               MAX_DOCS := 0; MAX_OCR_MB := 30 |};
     fs := tree;
     resolve := Some;
     stat_fails := fun _ => false;
     tika_meta := fun _ _ => Success None;
     tika_text := fun _ _ => Success "text";
     opensearch_put := fun _ _ _ => if index_up then Success tt else Failure;
     stdout_accepts := accepts |}.

Definition env : Env := installation false.

End Strict.

(** An installation where [A/B/link.pdf] and [short.pdf], just under the
    root, are symbolic links to [C/D/real.pdf]. *)
Module Linked.

Definition tree : node :=
  Dir [("data", Dir [("ndf", Dir [
    ("A", Dir [("B", Dir [("link.pdf", File Demo.abc 0 true)])]);
    ("C", Dir [("D", Dir [("real.pdf", File Demo.abc 0 true)])]);
    ("short.pdf", File Demo.abc 0 true)])])].

Definition root : Path := ["data"; "ndf"].
Definition link : Path := root ++ ["A"; "B"; "link.pdf"].
Definition short : Path := root ++ ["short.pdf"].
Definition real : Path := root ++ ["C"; "D"; "real.pdf"].

Definition env : Env :=
  {| sha256_hexdigest := Demo.hexdigest;
     isoformat_utc := Demo.isoformat;
     cfg := {| ROOT := root; FILTER_LEVEL1 := ∅; FILTER_LEVEL2 := ∅;
               MAX_DOCS := 0; MAX_OCR_MB := 30 |};
     fs := tree;
     resolve := fun p =>
       if decide (p = link \/ p = short) then Some real else Some p;
     stat_fails := fun _ => false;
     tika_meta := fun _ _ => Success None;
     tika_text := fun _ _ => Success "text";
     opensearch_put := fun _ _ _ => Success tt;
     stdout_accepts := fun _ => true |}.

End Linked.

(** * Properties *)

(** ** Evaluations of the string and path functions *)

Example suffix_pdf : suffix ["data"; "A"; "B"; "Report.PDF"] = ".PDF".
Proof. reflexivity. Qed.

Example suffix_dotfile : suffix ["data"; ".pdf"] = "".
Proof. reflexivity. Qed.

Example suffix_hidden_pdf : suffix ["data"; ".secret.pdf"] = ".pdf".
Proof. reflexivity. Qed.

Example stem_tar : stem ["x"; "a.b.pdf"] = "a.b".
Proof. reflexivity. Qed.

Example strip_ex : strip "  a b  " = "a b".
Proof. reflexivity. Qed.

Example rglob_ex :
  map fst (rglob ["r"] (Dir [("a", Dir [("x", File [] 0 true)]); ("b", File [] 0 true)]))
  = [["r"; "a"]; ["r"; "b"]; ["r"; "a"; "x"]].
Proof. reflexivity. Qed.

Example diff_maps_ex :
  Api.diff_maps {[ "A" := 3; "B" := 2 ]} {[ "A" := 2; "B" := 2 ]}
  = {[ "A" := 1; "B" := 0 ]}.
Proof. vm_compute. reflexivity. Qed.

(** ** Paths and files *)

Lemma relative_to_app (base rel : Path) :
  relative_to (base ++ rel) base = Some rel.
Proof.
  induction base as [|b base IH]; simpl; [reflexivity|].
  rewrite String.eqb_refl. exact IH.
Qed.

Lemma relative_to_Some (p base rel : Path) :
  relative_to p base = Some rel -> p = base ++ rel.
Proof.
  revert p. induction base as [|b base IH]; intros p H; simpl in *.
  - congruence.
  - destruct p as [|s p]; [discriminate|].
    destruct (String.eqb s b) eqn:Hsb; [|discriminate].
    apply String.eqb_eq in Hsb. subst s. f_equal. auto.
Qed.

Lemma name_snoc (p : Path) (s : string) : name (p ++ [s]) = s.
Proof. unfold name. apply last_last. Qed.

Lemma name_app (p rest : Path) : rest <> [] -> name (p ++ rest) = name rest.
Proof.
  intros Hne. unfold name.
  destruct (exists_last Hne) as (l & x & ->).
  rewrite app_assoc, !last_last. reflexivity.
Qed.

(** An induction principle that reaches the entries of a directory. *)
Lemma node_tree_ind (P : node -> Prop) :
  (forall data mtime readable, P (File data mtime readable)) ->
  (forall es, Forall (fun e => P (snd e)) es -> P (Dir es)) ->
  forall n, P n.
Proof.
  intros HF HD. fix IH 1. intros [data mtime readable|es].
  - apply HF.
  - apply HD. induction es as [|e es IHes]; constructor.
    + apply IH.
    + exact IHes.
Qed.

(** Every entry that [rglob] lists lies strictly below the directory. *)
Lemma rglob_below (n : node) :
  forall p e, In e (rglob p n) -> exists rest, rest <> [] /\ fst e = p ++ rest.
Proof.
  induction n as [|es IH] using node_tree_ind; intros p e Hin; simpl in Hin.
  - contradiction.
  - apply in_app_or in Hin as [Hin|Hin].
    + unfold children in Hin. apply in_map_iff in Hin as (x & <- & _).
      exists [fst x]. split; [discriminate|reflexivity].
    + apply in_flat_map in Hin as (x & Hx & Hin).
      rewrite Forall_forall in IH.
      destruct (IH x ltac:(apply list_elem_of_In; exact Hx) _ _ Hin) as (rest & Hne & ->).
      exists (fst x :: rest). split; [discriminate|].
      rewrite <- app_assoc. reflexivity.
Qed.

(** ** The hasher sees the whole file *)

Lemma hash_chunks_all (fuel : nat) :
  forall rest hasher,
    (length rest < fuel)%nat -> hash_chunks fuel rest hasher = hasher ++ rest.
Proof.
  induction fuel as [|fuel IH]; intros rest hasher Hlt; [lia|].
  cbn [hash_chunks].
  destruct rest as [|b rest].
  - rewrite take_nil. symmetry. apply app_nil_r.
  - destruct (take 8192 (b :: rest)) as [|c chunk] eqn:Htake.
    + apply (f_equal length) in Htake. rewrite length_take in Htake.
      simpl in Htake. lia.
    + rewrite <- Htake, IH.
      * rewrite <- app_assoc, take_drop. reflexivity.
      * rewrite length_drop. simpl in *. lia.
Qed.

(** ** The monad: what a computation may change *)

Ltac unfold_monad :=
  unfold mbind, M_bind, mret, M_ret, raise, try_except, emit, now,
    of_response, store in *.

Lemma keeps_index_ret {A} (a : A) : keeps_index (mret a : M A).
Proof. intros w. reflexivity. Qed.

Lemma keeps_index_raise {A} (e : exn) : keeps_index (raise e : M A).
Proof. intros w. reflexivity. Qed.

Lemma keeps_index_emit (e : event) : keeps_index (emit e).
Proof. intros w. reflexivity. Qed.

Lemma keeps_index_now : keeps_index now.
Proof. intros w. reflexivity. Qed.

Lemma keeps_index_of_response {A} (r : response A) : keeps_index (of_response r).
Proof. intros w. destruct r; reflexivity. Qed.

Lemma keeps_index_bind {A B} (m : M A) (f : A -> M B) :
  keeps_index m -> (forall a, keeps_index (f a)) -> keeps_index (m ≫= f).
Proof.
  intros Hm Hf w. unfold mbind, M_bind.
  specialize (Hm w). destruct (m w) as [[a|e] w1]; simpl in *.
  - rewrite Hf. exact Hm.
  - exact Hm.
Qed.

Lemma keeps_index_try {A} (m : M A) (h : exn -> M A) :
  keeps_index m -> (forall e, keeps_index (h e)) -> keeps_index (try_except m h).
Proof.
  intros Hm Hh w. unfold try_except.
  specialize (Hm w). destruct (m w) as [[a|e] w1]; simpl in *.
  - exact Hm.
  - rewrite Hh. exact Hm.
Qed.

Lemma keeps_index_retry_from {A} wait (f : M A) :
  keeps_index f -> forall remaining k, keeps_index (retry_from wait remaining k f).
Proof.
  intros Hf remaining. induction remaining as [|r IH]; intros k; simpl.
  - apply keeps_index_try; [exact Hf|]. intros e. apply keeps_index_raise.
  - apply keeps_index_try; [exact Hf|]. intros e.
    apply keeps_index_bind; [apply keeps_index_emit|]. intros _. apply IH.
Qed.

Create HintDb keeps.

#[local] Hint Resolve keeps_index_ret keeps_index_raise keeps_index_emit
  keeps_index_now keeps_index_of_response : keeps.

Section IngestFacts.

Variable E : Env.

Lemma keeps_index_read_bytes p : keeps_index (read_bytes E p).
Proof.
  unfold read_bytes.
  destruct (lookup_path (fs E) p) as [[data mtime [|]|es]|]; auto with keeps.
Qed.

Lemma keeps_index_tika_once p : keeps_index (tika_extract_text_once E p).
Proof.
  unfold tika_extract_text_once, tika_put_meta, tika_put_text.
  repeat (apply keeps_index_bind; [|intros ?]);
    auto using keeps_index_read_bytes with keeps.
Qed.

Lemma keeps_index_tika p : keeps_index (tika_extract_text E p).
Proof. apply keeps_index_retry_from, keeps_index_tika_once. Qed.

Lemma keeps_index_extract p size : keeps_index (extract_or_default E p size).
Proof.
  unfold extract_or_default. apply keeps_index_try; [|auto with keeps].
  destruct (_ <=? _)%Z; auto using keeps_index_tika with keeps.
Qed.

Lemma keeps_index_build_doc payload : keeps_index (build_doc E payload).
Proof.
  unfold build_doc, stat, compute_sha256.
  apply keeps_index_bind.
  - destruct (lookup_path _ _) as [[? ? ?|?]|]; auto with keeps.
  - intros [size mtime].
    repeat (apply keeps_index_bind; [|intros ?]);
      auto using keeps_index_read_bytes, keeps_index_extract with keeps.
Qed.

End IngestFacts.

(** ** Building a record *)

Section BuildDoc.

Variable E : Env.

(** The extraction step never raises: it answers with what the service
    gave, or with the default metadata. *)
Lemma extract_or_default_total p size w :
  exists meta w', extract_or_default E p size w = (Ok meta, w').
Proof.
  unfold extract_or_default, try_except.
  match goal with |- context [match ?c w with _ => _ end] =>
    destruct (c w) as [[meta|e] w1] end; unfold_monad; eauto.
Qed.

(** On a regular file, [build_doc] is the extraction step followed by the
    construction of the record from the digest of all the bytes; on an
    unreadable one it raises before any request is made. *)
Lemma build_doc_file payload data mtime readable w :
  lookup_path (fs E) (p_path payload) = Some (File data mtime readable) ->
  build_doc E payload w =
    if readable
    then (meta ← extract_or_default E (p_path payload) (Z.of_nat (length data));
          mret (build_doc_record E payload (Z.of_nat (length data)) mtime
                  (sha256_hexdigest E data) meta)) w
    else (Exc (PermissionError (p_path payload)), w).
Proof.
  intros Hlk. unfold build_doc, stat, compute_sha256, read_bytes.
  rewrite Hlk. destruct readable; unfold_monad; [|reflexivity].
  rewrite hash_chunks_all by lia. reflexivity.
Qed.

Lemma build_doc_Ok payload doc w w' :
  build_doc E payload w = (Ok doc, w') ->
  exists data mtime meta,
    lookup_path (fs E) (p_path payload) = Some (File data mtime true) /\
    extract_or_default E (p_path payload) (Z.of_nat (length data)) w = (Ok meta, w') /\
    doc = build_doc_record E payload (Z.of_nat (length data)) mtime
            (sha256_hexdigest E data) meta.
Proof.
  intros Hb.
  destruct (lookup_path (fs E) (p_path payload)) as [[data mtime readable|es]|] eqn:Hlk.
  - rewrite (build_doc_file _ _ _ _ _ Hlk) in Hb. destruct readable; [|discriminate].
    unfold_monad.
    destruct (extract_or_default E _ _ w) as [[meta|e] w1] eqn:Hx; [|discriminate].
    inversion Hb; subst. eauto 6.
  - unfold build_doc, stat, compute_sha256, read_bytes in Hb. rewrite Hlk in Hb.
    unfold_monad. discriminate.
  - unfold build_doc, stat in Hb. rewrite Hlk in Hb. unfold_monad. discriminate.
Qed.

(** ** One indexing request, and the retried ones *)

Lemma index_document_once_eq doc w :
  index_document_once E doc w =
    match opensearch_put E (length (trace w)) (doc_id_of doc) doc with
    | Success _ =>
        (Ok tt, {| index := <[doc_id_of doc := doc]> (index w);
                   trace := trace w ++ [IndexPutRequest (doc_id_of doc)] |})
    | Failure =>
        (Exc HTTPError, {| index := index w;
                           trace := trace w ++ [IndexPutRequest (doc_id_of doc)] |})
    end.
Proof.
  unfold index_document_once, doc_id_of. unfold_monad. simpl.
  destruct (opensearch_put E _ _ doc); reflexivity.
Qed.

(** However many attempts are made, the index either holds the document
    under its identifier (success) or is what it was (failure). *)
Lemma retry_index_document doc wait remaining :
  forall k w,
    let r := retry_from wait remaining k (index_document_once E doc) w in
    (fst r = Ok tt /\ index (snd r) = <[doc_id_of doc := doc]> (index w)) \/
    (exists e, fst r = Exc e /\ index (snd r) = index w).
Proof.
  induction remaining as [|n IH]; intros k w; simpl;
    unfold try_except; rewrite index_document_once_eq;
    destruct (opensearch_put E _ _ doc) as [[]|]; simpl; eauto.
  unfold_monad. simpl.
  exact (IH (S k) {| index := index w;
                     trace := (trace w ++ [IndexPutRequest (doc_id_of doc)])
                              ++ [Sleep (wait k)] |}).
Qed.

Lemma index_document_index doc w :
  (fst (index_document E doc w) = Ok tt /\
   index (snd (index_document E doc w)) = <[doc_id_of doc := doc]> (index w)) \/
  (exists e, fst (index_document E doc w) = Exc e /\
             index (snd (index_document E doc w)) = index w).
Proof. apply retry_index_document. Qed.

End BuildDoc.

(** ** Counting the attempts of a retried call *)

Lemma requests_app sel evs1 evs2 :
  requests sel (evs1 ++ evs2) = (requests sel evs1 + requests sel evs2)%nat.
Proof. unfold requests. rewrite List.filter_app, length_app. reflexivity. Qed.

Lemma at_most_retry_from {A} sel wait (f : M A) :
  (forall s, sel (Sleep s) = false) ->
  at_most sel 1 f ->
  forall remaining k, at_most sel (S remaining) (retry_from wait remaining k f).
Proof.
  intros Hsleep Hf remaining.
  induction remaining as [|n IH]; intros k w; simpl; unfold try_except;
    destruct (Hf w) as (evs & Htr & Hle); destruct (f w) as [[a|e] w1]; simpl in *.
  - exists evs. split; [assumption|lia].
  - exists evs. split; [assumption|lia].
  - exists evs. split; [assumption|lia].
  - unfold_monad. simpl.
    destruct (IH (S k) {| index := index w1; trace := trace w1 ++ [Sleep (wait k)] |})
      as (evs' & Htr' & Hle').
    exists (evs ++ Sleep (wait k) :: evs'). split.
    + rewrite Htr'. simpl. rewrite Htr, <- !app_assoc. reflexivity.
    + rewrite requests_app. unfold requests in *. simpl. rewrite Hsleep. lia.
Qed.

(** ** C1: content-addressed identifier and idempotent upsert *)

Lemma py_or_same (a : string) : py_or a a = a.
Proof. destruct a; reflexivity. Qed.

Lemma doc_id_of_record E payload size mtime sha meta :
  doc_id_of (build_doc_record E payload size mtime sha meta) = sha.
Proof. unfold doc_id_of. simpl. apply py_or_same. Qed.

(** C1.  Whatever payload names the file (any name, path, categories; from
    the batch pass or from a watch event), a record built for a file holding
    [data] has the digest of [data] as its identifier, so two records for
    identical bytes share it; when the upsert succeeds the index is the
    former one with the record put under that very identifier, so an
    identifier that was already present gives no further entry. *)
Theorem C1_content_addressed_upsert
    (E : Env) (payload : Payload) (data : list byte) (mtime : Z) (readable : bool)
    (doc : Doc) (w w1 w2 : World) :
  lookup_path (fs E) (p_path payload) = Some (File data mtime readable) ->
  build_doc E payload w = (Ok doc, w1) ->
  index_document E doc w1 = (Ok tt, w2) ->
  d_id doc = sha256_hexdigest E data /\
  (forall payload' mtime' readable' doc' wa wb,
      lookup_path (fs E) (p_path payload') = Some (File data mtime' readable') ->
      build_doc E payload' wa = (Ok doc', wb) ->
      d_id doc' = d_id doc) /\
  index w2 = <[sha256_hexdigest E data := doc]> (index w) /\
  (sha256_hexdigest E data ∈ dom (index w) ->
   dom (index w2) = dom (index w) /\ size (index w2) = size (index w)).
Proof.
  intros Hlk Hb Hi.
  assert (Hid : forall payload' mtime' readable' doc' wa wb,
             lookup_path (fs E) (p_path payload') = Some (File data mtime' readable') ->
             build_doc E payload' wa = (Ok doc', wb) ->
             doc_id_of doc' = sha256_hexdigest E data /\
             d_id doc' = sha256_hexdigest E data).
  { intros payload' mtime' readable' doc' wa wb Hlk' Hb'.
    apply build_doc_Ok in Hb' as (data' & mt & meta & Hlk2 & _ & ->).
    rewrite Hlk' in Hlk2. inversion Hlk2; subst.
    split; [apply doc_id_of_record|reflexivity]. }
  destruct (Hid _ _ _ _ _ _ Hlk Hb) as [Hdoc_id Hd_id].
  assert (Hw1 : index w1 = index w).
  { pose proof (keeps_index_build_doc E payload w) as H. rewrite Hb in H. exact H. }
  assert (Hw2 : index w2 = <[sha256_hexdigest E data := doc]> (index w)).
  { destruct (index_document_index E doc w1) as [[_ H]|(e & H & _)];
      rewrite Hi in H; simpl in H; [|discriminate].
    rewrite H, Hdoc_id, Hw1. reflexivity. }
  split; [exact Hd_id|]. split.
  - intros payload' mtime' readable' doc' wa wb Hlk' Hb'.
    rewrite Hd_id. exact (proj2 (Hid _ _ _ _ _ _ Hlk' Hb')).
  - split; [exact Hw2|]. intros Hin. rewrite Hw2.
    apply elem_of_dom in Hin as [old Hold]. split.
    + apply dom_insert_lookup_L. eauto.
    + eapply map_size_insert_Some. eauto.
Qed.

(** The copy of the report, indexed after the report itself: same
    identifier, and the index keeps its single entry. *)
Lemma C1_witness :
  let E := Demo.env Demo.config true true in
  let payload :=
    {| p_path := Demo.copy; p_file_name := "copy.PDF"; p_level1 := "A";
       p_level2 := "B"; p_ext := "pdf"; p_relative_subpath := "sub" |} in
  let w := snd (index_path E Demo.report Demo.world0) in
  exists doc w1 w2,
    build_doc E payload w = (Ok doc, w1) /\
    index_document E doc w1 = (Ok tt, w2) /\
    d_id doc = Demo.hexdigest Demo.abc /\
    size (index w) = 1%nat /\
    dom (index w2) = dom (index w) /\ size (index w2) = size (index w).
Proof.
  intros E payload w.
  destruct (build_doc E payload w) as [r w1] eqn:Hb.
  destruct r as [doc|e]; [|vm_compute in Hb; discriminate].
  destruct (index_document E doc w1) as [r2 w2] eqn:Hi.
  assert (Hr2 : r2 = Ok tt).
  { vm_compute in Hb. inversion Hb; subst doc w1. vm_compute in Hi.
    inversion Hi. reflexivity. }
  subst r2.
  exists doc, w1, w2.
  destruct (C1_content_addressed_upsert E payload Demo.abc 5 true doc w w1 w2
              eq_refl Hb Hi) as (Hid & _ & _ & Hdom).
  repeat split; try assumption; try reflexivity.
  - apply Hdom. vm_compute. reflexivity.
  - apply Hdom. vm_compute. reflexivity.
Defined.

(** ** C5: the retry policy *)

Lemma sleeps_app evs1 evs2 : sleeps (evs1 ++ evs2) = sleeps evs1 ++ sleeps evs2.
Proof. unfold sleeps. apply flat_map_app. Qed.

Lemma wait_exponential_values :
  wait_exponential 1 1 8 1 = 1 /\ wait_exponential 1 1 8 2 = 2 /\
  wait_exponential 1 1 8 3 = 4 /\ wait_exponential 1 1 8 4 = 8.
Proof. repeat split; reflexivity. Qed.

Lemma wait_exponential_capped (n : nat) :
  (4 <= n)%nat -> wait_exponential 1 1 8 n = 8.
Proof.
  intros Hn. unfold wait_exponential.
  assert (2 ^ 3 <= 2 ^ (Z.of_nat n - 1)) by (apply Z.pow_le_mono_r; lia).
  change (2 ^ 3) with 8 in H. lia.
Qed.

(** One more attempt of [f], from the world [w]. *)
Ltac attempt Hf w evs Htr w' :=
  destruct (Hf w) as (evs & Htr & ? & _);
  destruct (_ w) as [[?|?] w'] in Htr |- *; simpl in Htr |- *.

Lemma retry_follows_policy {A} sel (f : M A) :
  one_attempt sel f -> follows_policy (retry (wait_exponential 1 1 8) 5 f).
Proof.
  intros Hf w. unfold retry. simpl. unfold try_except.
  attempt Hf w evs1 H1 w1.
  { exists evs1. split; [assumption|]. rewrite H. apply prefix_nil. }
  unfold_monad. simpl.
  attempt Hf {| index := index w1; trace := trace w1 ++ [Sleep (wait_exponential 1 1 8 1)] |}
    evs2 H2 w2.
  { eexists. split; [rewrite H2, H1, <- !app_assoc; reflexivity|].
    rewrite !sleeps_app, H, H0. simpl. exists [2; 4; 8]. reflexivity. }
  attempt Hf {| index := index w2; trace := trace w2 ++ [Sleep (wait_exponential 1 1 8 2)] |}
    evs3 H3 w3.
  { eexists. split; [rewrite H3, H2, H1, <- !app_assoc; reflexivity|].
    rewrite !sleeps_app, H, H0, H4. simpl. exists [4; 8]. reflexivity. }
  attempt Hf {| index := index w3; trace := trace w3 ++ [Sleep (wait_exponential 1 1 8 3)] |}
    evs4 H4' w4.
  { eexists. split; [rewrite H4', H3, H2, H1, <- !app_assoc; reflexivity|].
    rewrite !sleeps_app, H, H0, H4, H5. simpl. exists [8]. reflexivity. }
  attempt Hf {| index := index w4; trace := trace w4 ++ [Sleep (wait_exponential 1 1 8 4)] |}
    evs5 H5' w5.
  { eexists. split; [rewrite H5', H4', H3, H2, H1, <- !app_assoc; reflexivity|].
    rewrite !sleeps_app, H, H0, H4, H5, H6. simpl. exists []. reflexivity. }
  eexists. split; [rewrite H5', H4', H3, H2, H1, <- !app_assoc; reflexivity|].
  split; [eauto|]. rewrite !sleeps_app, H, H0, H4, H5, H6. reflexivity.
Qed.

Lemma one_attempt_at_most {A} sel (f : M A) : one_attempt sel f -> at_most sel 1 f.
Proof. intros Hf w. destruct (Hf w) as (evs & ? & _ & ?). eauto. Qed.

Lemma one_attempt_index_document_once E doc :
  one_attempt is_put (index_document_once E doc).
Proof.
  intros w. rewrite index_document_once_eq.
  exists [IndexPutRequest (doc_id_of doc)].
  destruct (opensearch_put E _ _ doc); simpl; auto.
Qed.

Lemma one_attempt_tika_once E p :
  one_attempt is_meta_request (tika_extract_text_once E p).
Proof.
  intros w. unfold tika_extract_text_once, tika_put_meta, tika_put_text, read_bytes.
  destruct (lookup_path (fs E) p) as [[data mtime [|]|es]|]; unfold_monad; simpl;
    try (exists []; rewrite app_nil_r; auto; fail).
  destruct (tika_meta E _ data); simpl.
  - destruct (tika_text E _ data); simpl;
      exists [TikaMetaRequest p; TikaTextRequest p];
      rewrite <- app_assoc; auto.
  - exists [TikaMetaRequest p]. auto.
Qed.

(** When the index refuses every request, [index_document] makes five
    requests separated by waits of 1, 2, 4 and 8, and then raises. *)
Lemma index_document_exhausted E doc w :
  (forall t, opensearch_put E t (doc_id_of doc) doc = Failure) ->
  index_document E doc w =
    (Exc (RetryError HTTPError),
     {| index := index w;
        trace := trace w ++
          [IndexPutRequest (doc_id_of doc); Sleep 1;
           IndexPutRequest (doc_id_of doc); Sleep 2;
           IndexPutRequest (doc_id_of doc); Sleep 4;
           IndexPutRequest (doc_id_of doc); Sleep 8;
           IndexPutRequest (doc_id_of doc)] |}).
Proof.
  intros Hfail. unfold index_document, retry. simpl. unfold try_except.
  repeat (rewrite index_document_once_eq, Hfail; unfold_monad; simpl).
  rewrite <- !app_assoc. reflexivity.
Qed.

(** When the extraction service refuses every metadata request for a
    readable file, [tika_extract_text] does the same. *)
Lemma tika_extract_text_exhausted E p data mtime w :
  lookup_path (fs E) p = Some (File data mtime true) ->
  (forall t, tika_meta E t data = Failure) ->
  tika_extract_text E p w =
    (Exc (RetryError HTTPError),
     {| index := index w;
        trace := trace w ++
          [TikaMetaRequest p; Sleep 1; TikaMetaRequest p; Sleep 2;
           TikaMetaRequest p; Sleep 4; TikaMetaRequest p; Sleep 8;
           TikaMetaRequest p] |}).
Proof.
  intros Hlk Hfail.
  assert (Honce : forall w', tika_extract_text_once E p w' =
            (Exc HTTPError, {| index := index w';
                               trace := trace w' ++ [TikaMetaRequest p] |})).
  { intros w'. unfold tika_extract_text_once, tika_put_meta, read_bytes.
    rewrite Hlk. unfold_monad. simpl. rewrite Hfail. reflexivity. }
  unfold tika_extract_text, retry. simpl. unfold try_except.
  repeat (rewrite Honce; unfold_monad; simpl).
  rewrite <- !app_assoc. reflexivity.
Qed.

(** C5.  Both decorated calls, extraction and upsert, follow the same
    policy whatever the services do: the waits between attempts are 1, 2,
    4, 8 (the formula doubles from 1 and stays at 8), at most five requests
    are sent, and a failure reaches the caller as [RetryError] only after
    the four waits, that is, after the fifth attempt; when every request
    fails, exactly five are made, none after the fifth. *)
Theorem C5_retry_policy (E : Env) :
  (wait_exponential 1 1 8 1 = 1 /\ wait_exponential 1 1 8 2 = 2 /\
   wait_exponential 1 1 8 3 = 4 /\ wait_exponential 1 1 8 4 = 8 /\
   forall n, (4 <= n)%nat -> wait_exponential 1 1 8 n = 8) /\
  (forall p, follows_policy (tika_extract_text E p) /\
             at_most is_meta_request 5 (tika_extract_text E p)) /\
  (forall doc, follows_policy (index_document E doc) /\
               at_most is_put 5 (index_document E doc)) /\
  (forall p data mtime w,
      lookup_path (fs E) p = Some (File data mtime true) ->
      (forall t, tika_meta E t data = Failure) ->
      tika_extract_text E p w =
        (Exc (RetryError HTTPError),
         {| index := index w;
            trace := trace w ++
              [TikaMetaRequest p; Sleep 1; TikaMetaRequest p; Sleep 2;
               TikaMetaRequest p; Sleep 4; TikaMetaRequest p; Sleep 8;
               TikaMetaRequest p] |})) /\
  (forall doc w,
      (forall t, opensearch_put E t (doc_id_of doc) doc = Failure) ->
      index_document E doc w =
        (Exc (RetryError HTTPError),
         {| index := index w;
            trace := trace w ++
              [IndexPutRequest (doc_id_of doc); Sleep 1;
               IndexPutRequest (doc_id_of doc); Sleep 2;
               IndexPutRequest (doc_id_of doc); Sleep 4;
               IndexPutRequest (doc_id_of doc); Sleep 8;
               IndexPutRequest (doc_id_of doc)] |})).
Proof.
  split; [|split; [|split; [|split]]].
  - pose proof wait_exponential_values as (H1 & H2 & H3 & H4).
    repeat split; try assumption. apply wait_exponential_capped.
  - intros p. split.
    + eapply retry_follows_policy, one_attempt_tika_once.
    + apply (at_most_retry_from is_meta_request); [reflexivity|].
      apply one_attempt_at_most, one_attempt_tika_once.
  - intros doc. split.
    + eapply retry_follows_policy, one_attempt_index_document_once.
    + apply (at_most_retry_from is_put); [reflexivity|].
      apply one_attempt_at_most, one_attempt_index_document_once.
  - intros p data mtime w. apply tika_extract_text_exhausted.
  - intros doc w. apply index_document_exhausted.
Qed.

(** With both services down, the report: five metadata requests, then five
    upserts, each series with its four waits. *)
Lemma C5_witness :
  let E := Demo.env Demo.config false false in
  let payload :=
    {| p_path := Demo.report; p_file_name := "report.pdf"; p_level1 := "A";
       p_level2 := "B"; p_ext := "pdf"; p_relative_subpath := "" |} in
  let doc := build_doc_record E payload 3 0 "abc"
               {| m_title := "report"; m_content := ""; m_media_type := "" |} in
  fst (tika_extract_text E Demo.report Demo.world0) = Exc (RetryError HTTPError) /\
  sleeps (trace (snd (tika_extract_text E Demo.report Demo.world0))) = [1; 2; 4; 8] /\
  fst (index_document E doc Demo.world0) = Exc (RetryError HTTPError) /\
  requests is_put (trace (snd (index_document E doc Demo.world0))) = 5%nat.
Proof.
  intros E payload doc.
  destruct (C5_retry_policy E) as (_ & _ & _ & Htika & Hput).
  rewrite (Htika Demo.report Demo.abc 0 Demo.world0 eq_refl (fun t => eq_refl)).
  rewrite (Hput doc Demo.world0 (fun t => eq_refl)).
  repeat split; reflexivity.
Defined.

(** ** C4: the size threshold *)

(** A retried call begins with the events of its first attempt. *)
Lemma retry_from_first {A} sel wait (f : M A) :
  at_most sel 1 f ->
  forall remaining k w, exists evs,
    trace (snd (retry_from wait remaining k f w)) = trace (snd (f w)) ++ evs.
Proof.
  intros Hf remaining k w.
  destruct remaining as [|n]; simpl; unfold try_except;
    destruct (f w) as [[a|e] w1]; simpl;
    try (exists []; rewrite app_nil_r; reflexivity).
  unfold_monad. simpl.
  destruct (at_most_retry_from (fun _ => false) wait f (fun _ => eq_refl)) with
    (remaining := n) (k := S k)
    (w := {| index := index w1; trace := trace w1 ++ [Sleep (wait k)] |})
    as (evs & Htr & _).
  { intros w'. destruct (Hf w') as (evs & ? & _). exists evs. split; [assumption|].
    unfold requests. clear. induction evs; simpl; auto. }
  exists (Sleep (wait k) :: evs). rewrite Htr. simpl.
  rewrite <- app_assoc. reflexivity.
Qed.

Lemma record_of_meta0 E payload size mtime sha :
  p_file_name payload = name (p_path payload) ->
  let doc := build_doc_record E payload size mtime sha (meta0 (p_path payload)) in
  d_content doc = "" /\ d_media_type doc = "" /\
  d_title doc = stem_of_name (p_file_name payload).
Proof.
  intros Hname. simpl. repeat split.
  rewrite Hname. apply py_or_same.
Qed.

(** At or below the threshold, the first event of [build_doc] on a readable
    file is the metadata request. *)
Lemma build_doc_first_request E payload data mtime w :
  lookup_path (fs E) (p_path payload) = Some (File data mtime true) ->
  Z.of_nat (length data) <= MAX_OCR_MB (cfg E) * (1024 * 1024) ->
  exists evs,
    trace (snd (build_doc E payload w)) =
      trace w ++ TikaMetaRequest (p_path payload) :: evs.
Proof.
  intros Hlk Hsize. rewrite (build_doc_file E _ _ _ _ w Hlk).
  unfold extract_or_default.
  apply Z.leb_le in Hsize. rewrite Hsize.
  destruct (retry_from_first is_meta_request (wait_exponential 1 1 8)
              (tika_extract_text_once E (p_path payload))
              (one_attempt_at_most _ _ (one_attempt_tika_once E _)) 4 1%nat w)
    as (evs & Htr).
  assert (Hfirst : exists evs1,
             trace (snd (tika_extract_text_once E (p_path payload) w)) =
               trace w ++ TikaMetaRequest (p_path payload) :: evs1).
  { unfold tika_extract_text_once, tika_put_meta, tika_put_text, read_bytes.
    rewrite Hlk. unfold_monad. simpl.
    destruct (tika_meta E _ data); simpl; [|exists []; reflexivity].
    destruct (tika_text E _ data); simpl;
      exists [TikaTextRequest (p_path payload)]; rewrite <- app_assoc; reflexivity. }
  destruct Hfirst as (evs1 & Hfirst). rewrite Hfirst in Htr.
  unfold tika_extract_text, retry. change (5 - 1)%nat with 4%nat.
  unfold mbind, M_bind, try_except.
  destruct (retry_from _ 4 1 _ w) as [[meta|e] w1]; simpl in *;
    exists (evs1 ++ evs); rewrite Htr, <- app_assoc; reflexivity.
Qed.

(** C4.  For a readable file named by the payload: above [MAX_OCR_MB]
    megabytes, [build_doc] returns its record without any event (no request
    to the extraction service), with empty text and the stem of the file
    name as title; at or below it, the first thing it does is a request to
    the extraction service. *)
Theorem C4_size_threshold
    (E : Env) (payload : Payload) (data : list byte) (mtime : Z) (w : World) :
  lookup_path (fs E) (p_path payload) = Some (File data mtime true) ->
  p_file_name payload = name (p_path payload) ->
  (MAX_OCR_MB (cfg E) * (1024 * 1024) < Z.of_nat (length data) ->
   exists doc,
     build_doc E payload w = (Ok doc, w) /\
     d_content doc = "" /\
     d_title doc = stem_of_name (p_file_name payload)) /\
  (Z.of_nat (length data) <= MAX_OCR_MB (cfg E) * (1024 * 1024) ->
   exists evs,
     trace (snd (build_doc E payload w)) =
       trace w ++ TikaMetaRequest (p_path payload) :: evs).
Proof.
  intros Hlk Hname. split; intros Hsize.
  - rewrite (build_doc_file E _ _ _ _ w Hlk). unfold extract_or_default.
    apply Z.leb_gt in Hsize. rewrite Hsize. unfold_monad. simpl.
    eexists. split; [reflexivity|].
    pose proof (record_of_meta0 E payload (Z.of_nat (length data)) mtime
                  (sha256_hexdigest E data) Hname) as (Hc & _ & Ht).
    split; [exact Hc|exact Ht].
  - eapply build_doc_first_request; eassumption.
Qed.

Lemma C4_witness :
  let payload :=
    {| p_path := Demo.sheet; p_file_name := "sheet.xlsx"; p_level1 := "C";
       p_level2 := "D"; p_ext := "xlsx"; p_relative_subpath := "" |} in
  (exists doc,
     build_doc (Demo.env Demo.config_no_ocr true true) payload Demo.world0
       = (Ok doc, Demo.world0) /\
     d_content doc = "" /\ d_title doc = "sheet") /\
  (exists evs,
     trace (snd (build_doc (Demo.env Demo.config true true) payload Demo.world0))
       = TikaMetaRequest Demo.sheet :: evs).
Proof.
  intros payload. split.
  - apply (C4_size_threshold (Demo.env Demo.config_no_ocr true true) payload
             [x78; x79]%byte 0 Demo.world0 eq_refl eq_refl).
    reflexivity.
  - apply (C4_size_threshold (Demo.env Demo.config true true) payload
             [x78; x79]%byte 0 Demo.world0 eq_refl eq_refl).
    vm_compute. discriminate.
Defined.

(** ** The first request of an upsert *)

Lemma index_document_trace E doc w :
  exists evs,
    trace (snd (index_document E doc w)) =
      trace w ++ IndexPutRequest (doc_id_of doc) :: evs.
Proof.
  destruct (retry_from_first is_put (wait_exponential 1 1 8)
              (index_document_once E doc)
              (one_attempt_at_most _ _ (one_attempt_index_document_once E doc))
              4 1%nat w) as (evs & Htr).
  rewrite index_document_once_eq in Htr.
  exists evs. unfold index_document, retry. change (5 - 1)%nat with 4%nat.
  rewrite Htr. destruct (opensearch_put E _ _ doc); simpl;
    rewrite <- app_assoc; reflexivity.
Qed.

Lemma index_document_first_ok E doc w :
  opensearch_put E (length (trace w)) (doc_id_of doc) doc = Success tt ->
  index_document E doc w =
    (Ok tt, {| index := <[doc_id_of doc := doc]> (index w);
               trace := trace w ++ [IndexPutRequest (doc_id_of doc)] |}).
Proof.
  intros Hok. unfold index_document, retry. simpl. unfold try_except.
  rewrite index_document_once_eq, Hok. reflexivity.
Qed.

(** ** C6: tolerance to failures *)

Lemma print_eq E line w :
  print E line w =
    if stdout_accepts E line then (Ok tt, say line w)
    else (Exc UnicodeEncodeError, w).
Proof. unfold print. destruct (stdout_accepts E line); reflexivity. Qed.

(** One turn of the loop of [main], in terms of the two calls and of what
    [print] does. *)
Lemma main_step_eq E total payload w :
  main_step E total payload w =
    match build_and_index E payload w with
    | (Ok _, w1) =>
        if (total + 1 <=? 10)%Z || ((total + 1) mod 50 =? 0)%Z
        then
          match print E (LogProgress (total + 1) (p_file_name payload)) w1 with
          | (Ok _, w2) => (Ok (total + 1), w2)
          | (Exc e, w2) =>
              match print E (LogBatchError (p_path payload) e) w2 with
              | (Ok _, w3) => (Ok (total + 1), w3)
              | (Exc e', w3) => (Exc e', w3)
              end
          end
        else (Ok (total + 1), w1)
    | (Exc e, w1) =>
        match print E (LogBatchError (p_path payload) e) w1 with
        | (Ok _, w2) => (Ok total, w2)
        | (Exc e', w2) => (Exc e', w2)
        end
    end.
Proof.
  unfold main_step, build_and_index, try_except, mbind, M_bind, mret, M_ret.
  destruct (build_doc E payload w) as [[doc|e] w1].
  - destruct (index_document E doc w1) as [[[]|e] w2].
    + destruct (_ || _); [|reflexivity].
      destruct (print E (LogProgress _ _) w2) as [[[]|e] w3]; [reflexivity|].
      destruct (print E (LogBatchError _ _) w3) as [[[]|e'] w4]; reflexivity.
    + destruct (print E (LogBatchError _ _) w2) as [[[]|e'] w3]; reflexivity.
  - destruct (print E (LogBatchError _ _) w1) as [[[]|e'] w2]; reflexivity.
Qed.

(** The same when the lines can be printed: the counter moves and the
    progress line is printed if both calls return; if either raises, the
    exception is printed and the turn ends normally. *)
Lemma main_step_accepted E total payload w :
  stdout_accepts_all E ->
  main_step E total payload w =
    match build_and_index E payload w with
    | (Ok _, w1) =>
        (Ok (total + 1),
         if (total + 1 <=? 10)%Z || ((total + 1) mod 50 =? 0)%Z
         then say (LogProgress (total + 1) (p_file_name payload)) w1
         else w1)
    | (Exc e, w1) => (Ok total, say (LogBatchError (p_path payload) e) w1)
    end.
Proof.
  intros Hout. rewrite main_step_eq.
  destruct (build_and_index E payload w) as [[[]|e] w1]; rewrite !print_eq, !Hout.
  - destruct (_ || _); reflexivity.
  - reflexivity.
Qed.

(** Whatever [print] does, a turn leaves the index as the two calls left
    it, and adds to their events the lines that it prints. *)
Lemma main_step_world E total payload w :
  index (snd (main_step E total payload w)) = index (snd (build_and_index E payload w)) /\
  exists lines,
    trace (snd (main_step E total payload w)) =
      trace (snd (build_and_index E payload w)) ++ map Print lines.
Proof.
  rewrite main_step_eq.
  assert (Hnil : forall w' : World, trace w' = trace w' ++ map Print [])
    by (intros w'; symmetry; apply app_nil_r).
  destruct (build_and_index E payload w) as [[[]|e] w1]; cbn [fst snd].
  - destruct (_ || _); [|split; [reflexivity|exists []; apply Hnil]].
    rewrite print_eq.
    destruct (stdout_accepts E (LogProgress _ _));
      [split; [reflexivity|eexists [_]; reflexivity]|].
    rewrite print_eq.
    destruct (stdout_accepts E (LogBatchError _ _));
      [split; [reflexivity|eexists [_]; reflexivity]|].
    split; [reflexivity|exists []; apply Hnil].
  - rewrite print_eq.
    destruct (stdout_accepts E (LogBatchError _ _));
      [split; [reflexivity|eexists [_]; reflexivity]|].
    split; [reflexivity|exists []; apply Hnil].
Qed.

Lemma main_step_index E total payload w :
  index (snd (main_step E total payload w)) = index (snd (build_and_index E payload w)).
Proof. apply main_step_world. Qed.

Lemma main_step_total E total payload w :
  stdout_accepts_all E ->
  exists total' w', main_step E total payload w = (Ok total', w').
Proof.
  intros Hout. rewrite (main_step_accepted E total payload w Hout).
  destruct (build_and_index E payload w) as [[[]|e] w1]; eauto.
Qed.

Lemma main_loop_total E payloads :
  stdout_accepts_all E ->
  forall total w, exists total' w', main_loop E total payloads w = (Ok total', w').
Proof.
  intros Hout. induction payloads as [|payload rest IH]; intros total w; simpl.
  - unfold_monad. eauto.
  - unfold mbind, M_bind.
    destruct (main_step_total E total payload w Hout) as (t1 & w1 & ->). apply IH.
Qed.

Lemma main_loop_app E before after :
  forall total w t1 w1,
    main_loop E total before w = (Ok t1, w1) ->
    main_loop E total (before ++ after) w = main_loop E t1 after w1.
Proof.
  induction before as [|payload rest IH]; intros total w t1 w1 H; simpl in *.
  - unfold_monad. inversion H. reflexivity.
  - unfold mbind, M_bind in *.
    destruct (main_step E total payload w) as [[t|e] w']; [|discriminate].
    eapply IH. exact H.
Qed.

(** X21.  Tolerance to failures, where the lines can be printed.  (1) When the extraction of a readable file of admissible
    size raises, [build_doc] still returns a record: empty text, empty
    media type, the stem of the file name as title; the turn of the batch
    loop then goes on to send it to the index.  (2) When one of the two
    calls of a turn raises and the line that reports it can be printed,
    the turn prints it and ends normally with the counter as it was.
    (3) When standard output encodes every line, no turn raises, each file
    of the sequence gets its turn whatever happened to the files before
    it, and the loop runs to the end of the sequence. *)
Theorem X21_failure_tolerance (E : Env) :
  (forall payload data mtime e total w w',
      lookup_path (fs E) (p_path payload) = Some (File data mtime true) ->
      p_file_name payload = name (p_path payload) ->
      Z.of_nat (length data) <= MAX_OCR_MB (cfg E) * (1024 * 1024) ->
      tika_extract_text E (p_path payload) w = (Exc e, w') ->
      exists doc evs,
        build_doc E payload w = (Ok doc, w') /\
        d_content doc = "" /\ d_media_type doc = "" /\
        d_title doc = stem_of_name (p_file_name payload) /\
        trace (snd (main_step E total payload w)) =
          trace w' ++ IndexPutRequest (d_id doc) :: evs) /\
  (forall total payload e w w1,
      build_and_index E payload w = (Exc e, w1) ->
      stdout_accepts E (LogBatchError (p_path payload) e) = true ->
      main_step E total payload w =
        (Ok total, say (LogBatchError (p_path payload) e) w1)) /\
  (stdout_accepts_all E ->
   (forall total payload w,
       exists total' w', main_step E total payload w = (Ok total', w')) /\
   (forall before payload after total w,
       exists t1 w1 t2 w2 t3 w3,
         main_loop E total before w = (Ok t1, w1) /\
         main_step E t1 payload w1 = (Ok t2, w2) /\
         main_loop E t2 after w2 = (Ok t3, w3) /\
         main_loop E total (before ++ payload :: after) w = (Ok t3, w3))).
Proof.
  split; [|split].
  - intros payload data mtime e total w w' Hlk Hname Hsize Hx.
    pose proof (build_doc_file E payload data mtime true w Hlk) as Hb.
    unfold extract_or_default, try_except, mbind, M_bind in Hb.
    apply Z.leb_le in Hsize. rewrite Hsize, Hx in Hb.
    unfold mret, M_ret in Hb.
    change {| m_title := stem (p_path payload); m_content := ""; m_media_type := "" |}
      with (meta0 (p_path payload)) in Hb.
    pose proof (record_of_meta0 E payload (Z.of_nat (length data)) mtime
                  (sha256_hexdigest E data) Hname) as (Hc & Hm & Ht).
    set (doc := build_doc_record E payload _ _ _ _) in *.
    destruct (index_document_trace E doc w') as (evs & Htr').
    assert (Hid : doc_id_of doc = d_id doc) by apply doc_id_of_record.
    rewrite Hid in Htr'.
    destruct (main_step_world E total payload w) as (_ & lines & Hlines).
    assert (Hbi : snd (build_and_index E payload w) = snd (index_document E doc w')).
    { unfold build_and_index, mbind, M_bind. rewrite Hb. reflexivity. }
    rewrite Hbi, Htr' in Hlines.
    exists doc, (evs ++ map Print lines).
    rewrite Hlines, <- app_assoc. auto 6.
  - intros total payload e w w1 Hbi Hout.
    rewrite main_step_eq, Hbi, print_eq, Hout. reflexivity.
  - intros Hout. split.
    + intros total payload w. apply main_step_total. exact Hout.
    + intros before payload after total w.
      destruct (main_loop_total E before Hout total w) as (t1 & w1 & H1).
      destruct (main_step_total E t1 payload w1 Hout) as (t2 & w2 & H2).
      destruct (main_loop_total E after Hout t2 w2) as (t3 & w3 & H3).
      exists t1, w1, t2, w2, t3, w3. repeat split; try assumption.
      rewrite (main_loop_app E before (payload :: after) total w t1 w1 H1).
      simpl. unfold mbind, M_bind. rewrite H2. exact H3.
Qed.

(** With the extraction service down, the report is still built, without
    text; and in a batch the unreadable file is reported while the counter
    stays at its value. *)
Lemma X21_witness :
  let E := Demo.env Demo.config false true in
  let report :=
    {| p_path := Demo.report; p_file_name := "report.pdf"; p_level1 := "A";
       p_level2 := "B"; p_ext := "pdf"; p_relative_subpath := "" |} in
  let locked :=
    {| p_path := Demo.locked; p_file_name := "locked.pdf"; p_level1 := "A";
       p_level2 := "B"; p_ext := "pdf"; p_relative_subpath := "" |} in
  (exists doc evs,
     build_doc E report Demo.world0
       = (Ok doc, snd (tika_extract_text E Demo.report Demo.world0)) /\
     d_content doc = "" /\ d_media_type doc = "" /\ d_title doc = "report" /\
     trace (snd (main_step E 0 report Demo.world0)) =
       trace (snd (tika_extract_text E Demo.report Demo.world0))
         ++ IndexPutRequest (d_id doc) :: evs) /\
  main_step E 7 locked Demo.world0
    = (Ok 7, say (LogBatchError Demo.locked (PermissionError Demo.locked)) Demo.world0) /\
  stdout_accepts_all E /\
  exists total w', main_loop E 0 [locked; report] Demo.world0 = (Ok total, w').
Proof.
  intros E report locked.
  destruct (X21_failure_tolerance E) as (H1 & H2 & H3).
  assert (Hout : stdout_accepts_all E) by (intros line; reflexivity).
  split; [|split; [|split; [exact Hout|]]].
  - apply (H1 report Demo.abc 0 (RetryError HTTPError) 0 Demo.world0
             (snd (tika_extract_text E Demo.report Demo.world0)) eq_refl eq_refl).
    + vm_compute. discriminate.
    + rewrite (tika_extract_text_exhausted E Demo.report Demo.abc 0 Demo.world0
                 eq_refl (fun t => eq_refl)).
      reflexivity.
  - apply (H2 7 locked (PermissionError Demo.locked) Demo.world0 Demo.world0);
      reflexivity.
  - destruct (proj2 (H3 Hout) [locked] report [] 0 Demo.world0)
      as (t1 & w1 & t2 & w2 & t3 & w3 & _ & _ & _ & Hall).
    exists t3, w3. exact Hall.
Defined.

(** C6.  A failure of one file can end the pass.  The index refuses the
    first file of the sequence, whose name standard output cannot encode:
    the [print] of the handler raises inside the handler, the exception
    leaves the loop and [main], nothing is logged and the next file is
    never read. *)
Theorem C6_unprintable_name_ends_the_pass :
  iter_documents Strict.env
    = Ok [ {| p_path := Strict.bad; p_file_name := Strict.bad_name; p_level1 := "A";
              p_level2 := "B"; p_ext := "pdf"; p_relative_subpath := "" |};
           {| p_path := Strict.next; p_file_name := "next.pdf"; p_level1 := "A";
              p_level2 := "B"; p_ext := "pdf"; p_relative_subpath := "" |} ] /\
  main_initial Strict.env Demo.world0
    = (Exc UnicodeEncodeError,
       {| index := ∅;
          trace := [TikaMetaRequest Strict.bad; TikaTextRequest Strict.bad;
                    IndexPutRequest "b"; Sleep 1; IndexPutRequest "b"; Sleep 2;
                    IndexPutRequest "b"; Sleep 4; IndexPutRequest "b"; Sleep 8;
                    IndexPutRequest "b"] |}).
Proof. split; vm_compute; reflexivity. Qed.

(** ** What the batch pass yields *)

Lemma capped_incl E candidates :
  forall yielded pb, In pb (capped E yielded candidates) -> In pb candidates.
Proof.
  induction candidates as [|c rest IH]; intros yielded pb Hin; simpl in *.
  - contradiction.
  - destruct Hin as [->|Hin]; [auto|].
    destruct (_ && _); [contradiction|]. right. eapply IH. exact Hin.
Qed.

Lemma filter_passes (F : gset string) (l : string) :
  bool_decide (F ≠ ∅) && bool_decide (l ∉ F) = false -> F = ∅ \/ l ∈ F.
Proof.
  intros H. apply andb_false_iff in H as [H|H]; apply bool_decide_eq_false in H.
  - left. destruct (decide (F = ∅)); [assumption|contradiction].
  - right. destruct (decide (l ∈ F)); [assumption|contradiction].
Qed.

Lemma candidate_In level1 level2 level2_dir file_path n pb :
  In pb (candidate level1 level2 level2_dir (file_path, n)) ->
  p_path pb = file_path /\ p_level1 pb = level1 /\ p_level2 pb = level2 /\
  p_file_name pb = name file_path /\
  p_ext pb = lstrip_dot (lower (suffix file_path)) /\
  lower (suffix file_path) ∈ ALLOW_EXTS /\
  is_hidden file_path = false /\
  startswith (name file_path) "~$" = false.
Proof.
  unfold candidate. intros Hin.
  destruct (negb (node_is_file n)); [contradiction|].
  destruct (is_hidden file_path || startswith (name file_path) "~$") eqn:Hh;
    [contradiction|].
  apply orb_false_iff in Hh as [Hh Ht].
  destruct (bool_decide (lower (suffix file_path) ∉ ALLOW_EXTS)) eqn:Hext;
    [contradiction|].
  apply bool_decide_eq_false in Hext.
  destruct Hin as [<-|[]]. simpl. repeat split; try assumption.
  destruct (decide (lower (suffix file_path) ∈ ALLOW_EXTS)); [assumption|contradiction].
Qed.

Lemma iter_documents_Ok E payloads :
  iter_documents E = Ok payloads ->
  payloads = [] \/
  exists es,
    lookup_path (fs E) (ROOT (cfg E)) = Some (Dir es) /\
    payloads = capped E 0 (flat_map (level1_candidates E) (children (ROOT (cfg E)) es)).
Proof.
  unfold iter_documents. intros Hit.
  destruct (lookup_path (fs E) (ROOT (cfg E))) as [[data mtime readable|es]|].
  - discriminate.
  - inversion Hit. eauto.
  - destruct (stat_fails E _); inversion Hit. auto.
Qed.

Lemma iter_documents_sound E payloads pb :
  iter_documents E = Ok payloads -> In pb payloads -> batch_accepts E pb.
Proof.
  intros Hit Hin.
  apply iter_documents_Ok in Hit as [->|(es & _ & ->)]; [contradiction|].
  apply capped_incl in Hin.
  apply in_flat_map in Hin as ([level1_dir n1] & Hc1 & Hin).
  apply in_map_iff in Hc1 as ([l1 n1'] & Heq & _). simpl in Heq.
  inversion Heq; subst level1_dir n1'; clear Heq.
  unfold level1_candidates in Hin.
  destruct (negb (node_is_dir n1) || is_hidden (ROOT (cfg E) ++ [l1]));
    [contradiction|].
  rewrite name_snoc in Hin.
  destruct (bool_decide _ && bool_decide _) eqn:Hf1 in Hin; [contradiction|].
  apply filter_passes in Hf1.
  destruct n1 as [|es1]; [contradiction|].
  apply in_flat_map in Hin as ([level2_dir n2] & Hc2 & Hin).
  apply in_map_iff in Hc2 as ([l2 n2'] & Heq & _). simpl in Heq.
  inversion Heq; subst level2_dir n2'; clear Heq.
  unfold level2_candidates in Hin.
  destruct (negb (node_is_dir n2) || is_hidden ((ROOT (cfg E) ++ [l1]) ++ [l2]));
    [contradiction|].
  rewrite name_snoc in Hin.
  destruct (bool_decide _ && bool_decide _) eqn:Hf2 in Hin; [contradiction|].
  apply filter_passes in Hf2.
  apply in_flat_map in Hin as ([file_path n] & Hr & Hin).
  apply rglob_below in Hr as (rest & Hne & Hpath). simpl in Hpath.
  apply candidate_In in Hin as (Hp & Hl1 & Hl2 & Hn & Hx & Ha & Hh & Ht).
  exists l1, l2, rest. rewrite Hp.
  repeat split; try assumption.
  - rewrite Hpath, <- !app_assoc. reflexivity.
Qed.

(** ** What a watch event does *)

Lemma derive_levels_deep E f l1 l2 rest :
  resolve E f = Some (ROOT (cfg E) ++ l1 :: l2 :: rest) -> rest <> [] ->
  derive_levels E f = Some (l1, l2).
Proof.
  intros Hres Hne. unfold derive_levels. rewrite Hres, relative_to_app.
  destruct rest as [|x rest]; [contradiction|]. reflexivity.
Qed.

Lemma derive_levels_shallow E f rel :
  resolve E f = Some (ROOT (cfg E) ++ rel) -> (length rel < 3)%nat ->
  derive_levels E f = None.
Proof.
  intros Hres Hlen. unfold derive_levels. rewrite Hres, relative_to_app.
  apply Nat.ltb_lt in Hlen. rewrite Hlen. reflexivity.
Qed.

Lemma derive_levels_Some E f l1 l2 :
  derive_levels E f = Some (l1, l2) -> levels_of_resolved E f l1 l2.
Proof.
  unfold derive_levels. intros H.
  destruct (resolve E f) as [resolved|] eqn:Hres; [|discriminate].
  destruct (relative_to resolved (ROOT (cfg E))) as [parts|] eqn:Hrel; [|discriminate].
  apply relative_to_Some in Hrel.
  destruct parts as [|a [|b [|c parts]]]; try discriminate.
  simpl in H. inversion H; subst.
  exists (ROOT (cfg E) ++ l1 :: l2 :: c :: parts). split; [exact Hres|].
  exists (c :: parts). split; [discriminate|reflexivity].
Qed.

(** The event is dropped when the path is not a regular file; the test
    itself raises on a path that cannot be examined. *)
Lemma index_path_file E f data mtime readable w :
  lookup_path (fs E) f = Some (File data mtime readable) ->
  index_path E f w =
    (if bool_decide (lower (suffix f) ∉ ALLOW_EXTS) then mret tt
     else
       match derive_levels E f with
       | None => mret tt
       | Some (level1, level2) =>
           try_except
             (doc ← build_doc E (watch_payload f level1 level2);
              _ ← index_document E doc;
              print E (LogIndexed f))
             (fun e => print E (LogIndexError f e))
       end) w.
Proof.
  intros Hlk. unfold index_path, path_exists, path_is_file, mbind, M_bind.
  rewrite Hlk. reflexivity.
Qed.

Lemma index_path_not_file E f w :
  is_file (fs E) f = false ->
  index_path E f w =
    if negb (exists_ (fs E) f) && stat_fails E f then (Exc (OSError f), w)
    else (Ok tt, w).
Proof.
  unfold is_file, exists_, index_path, path_exists, path_is_file, mbind, M_bind.
  destruct (lookup_path (fs E) f) as [[data mtime readable|es]|]; intros H.
  - discriminate.
  - reflexivity.
  - simpl. destruct (stat_fails E f); reflexivity.
Qed.

Lemma try_build_and_index E f payload w :
  try_except
    (doc ← build_doc E payload;
     _ ← index_document E doc;
     print E (LogIndexed f))
    (fun e => print E (LogIndexError f e)) w
  = watch_finish E f (build_and_index E payload w).
Proof.
  unfold watch_finish, build_and_index, try_except, mbind, M_bind.
  destruct (build_doc E payload w) as [[doc|e] w1]; [|reflexivity].
  destruct (index_document E doc w1) as [[[]|e] w2]; reflexivity.
Qed.

Lemma index_path_accepted E f l1 l2 rest w :
  is_file (fs E) f = true ->
  lower (suffix f) ∈ ALLOW_EXTS ->
  resolve E f = Some (ROOT (cfg E) ++ l1 :: l2 :: rest) -> rest <> [] ->
  index_path E f w = watch_finish E f (build_and_index E (watch_payload f l1 l2) w).
Proof.
  intros Hfile Hext Hres Hne. unfold is_file in Hfile.
  destruct (lookup_path (fs E) f) as [[data mtime readable|es]|] eqn:Hlk;
    try discriminate.
  rewrite (index_path_file E f data mtime readable w Hlk).
  rewrite bool_decide_eq_false_2 by (intros Hn; apply Hn; exact Hext).
  rewrite (derive_levels_deep E f l1 l2 rest Hres Hne).
  apply try_build_and_index.
Qed.

(** Either the event is dropped without a trace, or the test of existence
    raises, or the path is a regular file with an allowed extension that
    resolves to three segments or more below the root, and the two calls
    are made for its payload. *)
Lemma index_path_cases E f w :
  index_path E f w = (Ok tt, w) \/
  index_path E f w = (Exc (OSError f), w) \/
  exists l1 l2,
    levels_of_resolved E f l1 l2 /\
    is_file (fs E) f = true /\ lower (suffix f) ∈ ALLOW_EXTS /\
    index_path E f w = watch_finish E f (build_and_index E (watch_payload f l1 l2) w).
Proof.
  destruct (is_file (fs E) f) eqn:Hfile.
  - unfold is_file in Hfile.
    destruct (lookup_path (fs E) f) as [[data mtime readable|es]|] eqn:Hlk;
      try discriminate.
    rewrite (index_path_file E f data mtime readable w Hlk).
    destruct (decide (lower (suffix f) ∈ ALLOW_EXTS)) as [Hext|Hext].
    + rewrite bool_decide_eq_false_2 by (intros Hn; apply Hn; exact Hext).
      destruct (derive_levels E f) as [[l1 l2]|] eqn:Hd; [|left; reflexivity].
      right. right. exists l1, l2.
      split; [apply derive_levels_Some; exact Hd|]. split; [reflexivity|].
      split; [exact Hext|]. apply try_build_and_index.
    + left. rewrite (bool_decide_eq_true_2 _ Hext). reflexivity.
  - rewrite (index_path_not_file E f w Hfile).
    destruct (negb (exists_ (fs E) f) && stat_fails E f); auto.
Qed.

(** Whatever [print] does, the end of [index_path] leaves the index as the
    two calls left it and adds the lines that it prints; it raises nothing
    but the exception of [print]. *)
Lemma watch_finish_world E f rw :
  index (snd (watch_finish E f rw)) = index (snd rw) /\
  (exists lines, trace (snd (watch_finish E f rw)) = trace (snd rw) ++ map Print lines) /\
  (fst (watch_finish E f rw) = Ok tt \/
   fst (watch_finish E f rw) = Exc UnicodeEncodeError).
Proof.
  assert (Hnil : forall w' : World, trace w' = trace w' ++ map Print [])
    by (intros w'; symmetry; apply app_nil_r).
  unfold watch_finish, try_except. destruct rw as [[[]|e] w1]; cbn [fst snd].
  - rewrite print_eq.
    destruct (stdout_accepts E (LogIndexed f));
      [split; [reflexivity|split; [eexists [_]; reflexivity|auto]]|].
    rewrite print_eq.
    destruct (stdout_accepts E (LogIndexError f _)); cbn [fst snd].
    + split; [reflexivity|split; [eexists [_]; reflexivity|auto]].
    + split; [reflexivity|split; [exists []; apply Hnil|auto]].
  - rewrite print_eq.
    destruct (stdout_accepts E (LogIndexError f _)); cbn [fst snd].
    + split; [reflexivity|split; [eexists [_]; reflexivity|auto]].
    + split; [reflexivity|split; [exists []; apply Hnil|auto]].
Qed.

(** When the lines can be printed, one line is printed and nothing is
    raised. *)
Lemma watch_finish_accepted E f rw :
  stdout_accepts_all E ->
  watch_finish E f rw =
    (Ok tt,
     say (match fst rw with
          | Ok _ => LogIndexed f
          | Exc e => LogIndexError f e
          end) (snd rw)).
Proof.
  intros Hout. unfold watch_finish, try_except.
  destruct rw as [[[]|e] w1]; cbn [fst snd]; rewrite print_eq, Hout; reflexivity.
Qed.

(** ** What the index receives *)

Lemma grows_refl Q w : grows Q w w.
Proof.
  split; [auto|]. split; [reflexivity|]. exists []. symmetry. apply app_nil_r.
Qed.

Lemma grows_trans Q w1 w2 w3 : grows Q w1 w2 -> grows Q w2 w3 -> grows Q w1 w3.
Proof.
  intros (Ha & Hd & evs & Ht) (Ha' & Hd' & evs' & Ht'). split; [|split].
  - intros id doc Hl. destruct (Ha' _ _ Hl) as [H|H]; [|auto]. exact (Ha _ _ H).
  - etransitivity; eassumption.
  - exists (evs ++ evs'). rewrite Ht', Ht, app_assoc. reflexivity.
Qed.

(** More events, the same index. *)
Lemma grows_events Q w w' evs :
  index w' = index w -> trace w' = trace w ++ evs -> grows Q w w'.
Proof.
  intros Hi Ht. split; [|split].
  - intros id doc Hl. rewrite Hi in Hl. auto.
  - rewrite Hi. reflexivity.
  - eauto.
Qed.

Lemma grows_say Q line w : grows Q w (say line w).
Proof. apply (grows_events Q w _ [Print line]); reflexivity. Qed.

Lemma grows_print Q E line w : grows Q w (snd (print E line w)).
Proof.
  rewrite print_eq. destruct (stdout_accepts E line); [apply grows_say|apply grows_refl].
Qed.

Lemma grows_weaken (Q Q' : Doc -> Prop) w w' :
  (forall doc, Q doc -> Q' doc) -> grows Q w w' -> grows Q' w w'.
Proof.
  intros HQ (Ha & Hd & Ht). split; [|auto].
  intros id doc Hl. destruct (Ha _ _ Hl) as [H|[H1 H2]]; auto.
Qed.

Lemma grows_only_adds (Q : Doc -> Prop) w w' : grows Q w w' -> only_adds Q w w'.
Proof. intros (Ha & _) id doc Hl. destruct (Ha _ _ Hl) as [H|[H _]]; auto. Qed.

(** A record that is there stays or is replaced. *)
Lemma grows_lookup Q w w' id doc :
  grows Q w w' -> index w !! id = Some doc ->
  exists doc', index w' !! id = Some doc' /\ (doc' = doc \/ Q doc').
Proof.
  intros (Ha & Hd & _) Hl.
  assert (Hin : id ∈ dom (index w')) by (apply Hd, elem_of_dom; eauto).
  apply elem_of_dom in Hin as [doc' Hl']. exists doc'. split; [exact Hl'|].
  destruct (Ha _ _ Hl') as [H|[H _]]; [left; congruence|auto].
Qed.

Lemma py_or_empty a b : py_or a b = "" -> b = "".
Proof. destruct a; simpl; [auto|discriminate]. Qed.

Lemma retry_from_Ok_inv {A} wait (f : M A) remaining :
  forall k w a w',
    retry_from wait remaining k f w = (Ok a, w') ->
    exists w0 w1, f w0 = (Ok a, w1).
Proof.
  induction remaining as [|n IH]; intros k w a w' H; simpl in H;
    unfold try_except in H; destruct (f w) as [[a0|e] w1] eqn:Hf.
  - inversion H; subst. eauto.
  - unfold_monad. discriminate.
  - inversion H; subst. eauto.
  - unfold_monad. simpl in H. eapply IH. exact H.
Qed.

(** The title that the extraction step gives is empty only when the stem of
    the file name is. *)
Lemma extract_title E p size w meta w' :
  extract_or_default E p size w = (Ok meta, w') ->
  m_title meta = "" -> stem p = "".
Proof.
  unfold extract_or_default, try_except. intros H Ht.
  destruct (size <=? _)%Z.
  - destruct (tika_extract_text E p w) as [[m|e] w1] eqn:Hx.
    + inversion H; subst m w1. unfold tika_extract_text, retry in Hx.
      apply retry_from_Ok_inv in Hx as (w0 & w1 & Hx).
      unfold tika_extract_text_once, mbind, M_bind in Hx.
      destruct (tika_put_meta E p w0) as [[md|e] w2]; [|discriminate].
      destruct (tika_put_text E p w2) as [[text|e] w3]; [|discriminate].
      unfold mret, M_ret in Hx. inversion Hx; subst meta. simpl in Ht.
      eapply py_or_empty. exact Ht.
    + unfold_monad. inversion H; subst meta. exact Ht.
  - unfold_monad. inversion H; subst meta. exact Ht.
Qed.

(** The two calls raise and leave the index as it is, or return after
    putting under the digest of the file the record built from it. *)
Lemma build_and_index_cases E payload w :
  (exists e, fst (build_and_index E payload w) = Exc e /\
             index (snd (build_and_index E payload w)) = index w) \/
  (fst (build_and_index E payload w) = Ok tt /\
   exists data mtime meta,
     lookup_path (fs E) (p_path payload) = Some (File data mtime true) /\
     (m_title meta = "" -> stem (p_path payload) = "") /\
     index (snd (build_and_index E payload w)) =
       <[sha256_hexdigest E data :=
           build_doc_record E payload (Z.of_nat (length data)) mtime
             (sha256_hexdigest E data) meta]> (index w)).
Proof.
  unfold build_and_index, mbind, M_bind.
  pose proof (keeps_index_build_doc E payload w) as Hk.
  destruct (build_doc E payload w) as [[doc|e] w1] eqn:Hb; simpl in Hk; [|eauto].
  apply build_doc_Ok in Hb as (data & mtime & meta & Hlk & Hx & Hdoc).
  destruct (index_document_index E doc w1) as [[Hr H]|(e & Hr & H)]; rewrite Hk in H.
  - right. split; [exact Hr|]. exists data, mtime, meta.
    split; [exact Hlk|]. split; [eapply extract_title; exact Hx|].
    rewrite H. subst doc. rewrite doc_id_of_record. reflexivity.
  - left. eauto.
Qed.

(** With an index that accepts every request, the two calls on a readable
    file return after putting its record there. *)
Lemma build_and_index_accepted E payload data mtime w :
  lookup_path (fs E) (p_path payload) = Some (File data mtime true) ->
  index_accepts_all E ->
  exists meta,
    fst (build_and_index E payload w) = Ok tt /\
    index (snd (build_and_index E payload w)) =
      <[sha256_hexdigest E data :=
          build_doc_record E payload (Z.of_nat (length data)) mtime
            (sha256_hexdigest E data) meta]> (index w).
Proof.
  intros Hlk Hidx. unfold build_and_index, mbind, M_bind.
  pose proof (keeps_index_build_doc E payload w) as Hk.
  rewrite (build_doc_file E payload data mtime true w Hlk) in *.
  destruct (extract_or_default_total E (p_path payload) (Z.of_nat (length data)) w)
    as (meta & w1 & Hx).
  unfold mbind, M_bind in *. rewrite Hx in *. unfold mret, M_ret in *.
  cbn [snd] in Hk. exists meta.
  rewrite index_document_first_ok by apply Hidx.
  cbn [fst snd index]. rewrite doc_id_of_record, Hk. auto.
Qed.

Lemma build_and_index_trace E payload w :
  exists evs, trace (snd (build_and_index E payload w)) = trace w ++ evs.
Proof.
  unfold build_and_index, mbind, M_bind.
  assert (Hb : exists evs, trace (snd (build_doc E payload w)) = trace w ++ evs).
  { unfold build_doc, stat, compute_sha256, read_bytes.
    destruct (lookup_path (fs E) (p_path payload)) as [[data mtime [|]|es]|];
      unfold_monad; simpl; try (exists []; rewrite app_nil_r; reflexivity).
    unfold extract_or_default, try_except.
    destruct (_ <=? _)%Z; [|exists []; rewrite app_nil_r; reflexivity].
    destruct (at_most_retry_from is_meta_request (wait_exponential 1 1 8)
                (tika_extract_text_once E (p_path payload)) (fun _ => eq_refl)
                (one_attempt_at_most _ _ (one_attempt_tika_once E _)) 4 1%nat w)
      as (evs & Htr & _).
    unfold tika_extract_text, retry. change (5 - 1)%nat with 4%nat.
    destruct (retry_from _ 4 1 _ w) as [[m|e] w1]; simpl in *; eauto. }
  destruct Hb as (evs & Hb).
  destruct (build_doc E payload w) as [[doc|e] w1]; simpl in *; [|eauto].
  destruct (index_document_trace E doc w1) as (evs' & Hi).
  exists (evs ++ IndexPutRequest (doc_id_of doc) :: evs').
  rewrite Hi, Hb, <- app_assoc. reflexivity.
Qed.

Lemma ext_of_allowed x : x ∈ ALLOW_EXTS -> lstrip_dot x ∈ EXTS.
Proof.
  unfold ALLOW_EXTS, EXTS. intros H.
  repeat (apply elem_of_union in H as [H|H]);
    apply elem_of_singleton in H; subst x; vm_compute; set_solver.
Qed.

(** What the two calls add to the index is a faithful record, of which
    holds whatever holds of the path and categories of the payload. *)
Lemma build_and_index_grows E (C : Path -> string -> string -> Prop) payload w :
  regular_payload payload ->
  C (p_path payload) (p_level1 payload) (p_level2 payload) ->
  grows (fun doc => faithful_record E doc /\ of_payload C doc) w
    (snd (build_and_index E payload w)).
Proof.
  intros (Hn & Hx) HC.
  split; [|split; [|apply build_and_index_trace]];
    destruct (build_and_index_cases E payload w)
      as [(e & _ & Hi)|(_ & data & mtime & meta & Hlk & _ & Hi)];
    rewrite Hi; try reflexivity; try (apply dom_insert_subseteq); auto.
  intros id doc Hl.
  destruct (decide (sha256_hexdigest E data = id)) as [Heq|Hneq].
  - subst id. rewrite lookup_insert_eq in Hl. inversion Hl; subst doc. right.
    split; [|reflexivity]. split; [|exact HC].
    exists data, mtime. simpl. repeat split; assumption.
  - rewrite lookup_insert_ne in Hl by assumption. auto.
Qed.

Lemma classified_of E doc :
  faithful_record E doc /\ of_payload (levels_of_path E) doc -> classified E doc.
Proof.
  intros (_ & rest & Hne & Hp). exists (d_level1 doc), (d_level2 doc), rest. auto.
Qed.

Lemma classified_resolved_of E doc :
  faithful_record E doc /\ of_payload (levels_of_resolved E) doc ->
  classified_resolved E doc.
Proof.
  intros (_ & resolved & Hres & rest & Hne & Hp).
  exists resolved, (d_level1 doc), (d_level2 doc), rest. auto.
Qed.

Lemma batch_payload_regular E payloads pb :
  iter_documents E = Ok payloads -> In pb payloads ->
  regular_payload pb /\ levels_of_path E (p_path pb) (p_level1 pb) (p_level2 pb).
Proof.
  intros Hit Hin.
  destruct (iter_documents_sound E payloads pb Hit Hin)
    as (l1 & l2 & rest & Hne & Hp & H1 & H2 & Hn & Hx & Ha & _).
  split; [split; [exact Hn|rewrite Hx; apply ext_of_allowed; exact Ha]|].
  exists rest. rewrite H1, H2. auto.
Qed.

Lemma main_step_grows E Q total payload w :
  grows Q w (snd (build_and_index E payload w)) ->
  grows Q w (snd (main_step E total payload w)).
Proof.
  intros Hg. destruct (main_step_world E total payload w) as (Hi & lines & Ht).
  eapply grows_trans; [exact Hg|]. eapply grows_events; eassumption.
Qed.

Lemma main_loop_grows E Q payloads :
  (forall payload w, In payload payloads ->
                     grows Q w (snd (build_and_index E payload w))) ->
  forall total w, grows Q w (snd (main_loop E total payloads w)).
Proof.
  induction payloads as [|payload rest IH]; intros Hall total w; simpl.
  - apply grows_refl.
  - unfold mbind, M_bind.
    pose proof (main_step_grows E Q total payload w (Hall payload w (or_introl eq_refl)))
      as Hg.
    destruct (main_step E total payload w) as [[t1|e] w1]; simpl in Hg; [|exact Hg].
    eapply grows_trans; [exact Hg|]. apply IH. intros. apply Hall. right. assumption.
Qed.

Lemma main_initial_grows E w :
  grows (fun doc => faithful_record E doc /\ of_payload (levels_of_path E) doc) w
    (snd (main_initial E w)).
Proof.
  unfold main_initial. destruct (iter_documents E) as [payloads|e] eqn:Hit.
  - unfold mbind, M_bind.
    pose proof (main_loop_grows E _ payloads
                  (fun payload w Hin =>
                     build_and_index_grows E (levels_of_path E) payload w
                       (proj1 (batch_payload_regular E payloads payload Hit Hin))
                       (proj2 (batch_payload_regular E payloads payload Hit Hin)))
                  0 w) as H.
    destruct (main_loop E 0 payloads w) as [[total|e] w1]; simpl in *; [|exact H].
    eapply grows_trans; [exact H|]. apply grows_print.
  - apply grows_refl.
Qed.

Lemma index_path_grows E f w :
  grows (fun doc => faithful_record E doc /\ of_payload (levels_of_resolved E) doc) w
    (snd (index_path E f w)).
Proof.
  destruct (index_path_cases E f w)
    as [->|[->|(l1 & l2 & Hlev & _ & Hext & ->)]]; try apply grows_refl.
  destruct (watch_finish_world E f (build_and_index E (watch_payload f l1 l2) w))
    as (Hi & (lines & Ht) & _).
  eapply grows_trans; [|eapply grows_events; eassumption].
  apply build_and_index_grows; [|exact Hlev].
  split; [reflexivity|]. simpl. apply ext_of_allowed. exact Hext.
Qed.

Lemma handle_eq E ev w :
  handle E ev w =
    if is_directory ev then (Ok tt, w)
    else match ev_type ev with
         | Created | Modified => index_path E (src_path ev) w
         | Moved | Deleted => (Ok tt, w)
         end.
Proof.
  unfold handle, on_created, on_modified.
  destruct (ev_type ev), (is_directory ev); reflexivity.
Qed.

Lemma dispatch_step E ev rest w :
  dispatch E (ev :: rest) w =
    match handle E ev w with
    | (Ok _, w1) => dispatch E rest w1
    | (Exc e, w1) => (Exc e, w1)
    end.
Proof. reflexivity. Qed.

Lemma handle_grows E ev w :
  grows (fun doc => faithful_record E doc /\ of_payload (levels_of_resolved E) doc) w
    (snd (handle E ev w)).
Proof.
  rewrite handle_eq. destruct (is_directory ev); [apply grows_refl|].
  destruct (ev_type ev); try apply grows_refl; apply index_path_grows.
Qed.

Lemma dispatch_grows E evs :
  forall w,
    grows (fun doc => faithful_record E doc /\ of_payload (levels_of_resolved E) doc) w
      (snd (dispatch E evs w)).
Proof.
  induction evs as [|ev rest IH]; intros w.
  - apply grows_refl.
  - rewrite dispatch_step. pose proof (handle_grows E ev w) as Hg.
    destruct (handle E ev w) as [[[]|e] w1]; simpl in Hg; [|exact Hg].
    eapply grows_trans; [exact Hg|apply IH].
Qed.

(** ** C3: classification by depth *)

Lemma main_initial_index E w :
  index (snd (main_initial E w)) =
    match iter_documents E with
    | Ok payloads => index (snd (main_loop E 0 payloads w))
    | Exc _ => index w
    end.
Proof.
  unfold main_initial. destruct (iter_documents E) as [payloads|e]; [|reflexivity].
  unfold mbind, M_bind.
  destruct (main_loop E 0 payloads w) as [[total|e] w1]; [|reflexivity].
  rewrite print_eq. destruct (stdout_accepts E _); reflexivity.
Qed.

(** The record that the two calls leave for a payload of the batch pass,
    when the index accepts it. *)
Lemma batch_record E payloads pb data mtime w :
  iter_documents E = Ok payloads -> In pb payloads ->
  lookup_path (fs E) (p_path pb) = Some (File data mtime true) ->
  index_accepts_all E ->
  exists doc,
    index (snd (build_and_index E pb w)) !! sha256_hexdigest E data = Some doc /\
    d_path doc = p_path pb /\
    d_level1 doc = p_level1 pb /\ d_level2 doc = p_level2 pb.
Proof.
  intros Hit Hin Hlk Hidx.
  destruct (build_and_index_accepted E pb data mtime w Hlk Hidx) as (meta & _ & Hi).
  eexists. rewrite Hi, lookup_insert_eq. split; [reflexivity|]. auto.
Qed.

(** When every line is printed and every request accepted, the record of
    each payload is in the index at the end of the loop, unless a record
    for the same bytes, classified as well, has taken its place. *)
Lemma main_loop_reaches E payloads pb data mtime :
  stdout_accepts_all E -> index_accepts_all E ->
  (forall pb', In pb' payloads ->
               regular_payload pb' /\
               levels_of_path E (p_path pb') (p_level1 pb') (p_level2 pb')) ->
  In pb payloads ->
  lookup_path (fs E) (p_path pb) = Some (File data mtime true) ->
  forall total w,
    exists doc,
      index (snd (main_loop E total payloads w)) !! sha256_hexdigest E data = Some doc /\
      classified E doc.
Proof.
  intros Hout Hidx Hall Hin Hlk total w.
  apply in_split in Hin as (before & after & ->).
  destruct (main_loop_total E before Hout total w) as (t1 & w1 & H1).
  rewrite (main_loop_app E before (pb :: after) total w t1 w1 H1).
  simpl. unfold mbind, M_bind.
  destruct (main_step_total E t1 pb w1 Hout) as (t2 & w2 & H2).
  pose proof (main_step_index E t1 pb w1) as Hi. rewrite H2 in *. cbn [snd] in Hi.
  destruct (Hall pb) as [Hreg Hlev]; [apply in_or_app; right; left; reflexivity|].
  destruct (build_and_index_accepted E pb data mtime w1 Hlk Hidx) as (meta & _ & Hbi).
  assert (Hl : index w2 !! sha256_hexdigest E data =
               Some (build_doc_record E pb (Z.of_nat (length data)) mtime
                       (sha256_hexdigest E data) meta))
    by (rewrite Hi, Hbi; apply lookup_insert_eq).
  assert (Hafter : forall payload, In payload after ->
                    regular_payload payload /\
                    levels_of_path E (p_path payload) (p_level1 payload) (p_level2 payload))
    by (intros payload Hin'; apply Hall, in_or_app; right; right; exact Hin').
  pose proof (main_loop_grows E _ after
                (fun payload w Hin' =>
                   build_and_index_grows E (levels_of_path E) payload w
                     (proj1 (Hafter payload Hin')) (proj2 (Hafter payload Hin')))
                t2 w2) as Hg.
  destruct (grows_lookup _ _ _ _ _ Hg Hl) as (doc' & Hl' & [->|HQ]).
  - eexists. split; [exact Hl'|].
    destruct Hlev as (rest & Hne & Hp).
    exists (p_level1 pb), (p_level2 pb), rest. auto.
  - exists doc'. split; [exact Hl'|]. apply classified_of. exact HQ.
Qed.

(** X22.  Classification by depth.  (1) A watch event for a file whose resolved path has fewer than
    three segments below the root returns normally and changes nothing: no
    request, no record, no line.  (2) Every payload of the batch pass names
    a path with three segments or more below the root and carries the first
    two as its categories, so a shallower file is never yielded.  (3)
    Whatever the services do, each record that the batch pass adds to the
    index has such a path and these categories, and each record that a
    watch event adds has as categories the first two segments, below the
    root, of the path that its own path resolves to.  (4) When the index
    accepts the requests, a watch event for a readable file with an allowed
    extension, three segments or more below the root, leaves in the index,
    under the digest of the file, the record of that path with these two
    categories; so does the turn of the batch loop for each of its
    payloads; and when the lines can be printed as well, the index at the
    end of the initial pass has under the digest of each readable file of
    the pass a record classified in this way. *)
Theorem X22_classification_by_depth (E : Env) :
  (forall f n rel w,
      lookup_path (fs E) f = Some n ->
      resolve E f = Some (ROOT (cfg E) ++ rel) ->
      (length rel < 3)%nat ->
      index_path E f w = (Ok tt, w)) /\
  (forall payloads pb,
      iter_documents E = Ok payloads -> In pb payloads ->
      exists l1 l2 rest,
        rest <> [] /\ p_path pb = ROOT (cfg E) ++ l1 :: l2 :: rest /\
        p_level1 pb = l1 /\ p_level2 pb = l2) /\
  (forall w, only_adds (classified E) w (snd (main_initial E w))) /\
  (forall f w, only_adds (classified_resolved E) w (snd (index_path E f w))) /\
  (forall f data mtime l1 l2 rest w,
      lookup_path (fs E) f = Some (File data mtime true) ->
      lower (suffix f) ∈ ALLOW_EXTS ->
      resolve E f = Some (ROOT (cfg E) ++ l1 :: l2 :: rest) -> rest <> [] ->
      index_accepts_all E ->
      exists doc,
        index (snd (index_path E f w)) !! sha256_hexdigest E data = Some doc /\
        d_path doc = f /\ d_level1 doc = l1 /\ d_level2 doc = l2) /\
  (forall payloads pb data mtime total w,
      iter_documents E = Ok payloads -> In pb payloads ->
      lookup_path (fs E) (p_path pb) = Some (File data mtime true) ->
      index_accepts_all E ->
      exists doc l1 l2 rest,
        index (snd (main_step E total pb w)) !! sha256_hexdigest E data = Some doc /\
        d_path doc = p_path pb /\
        rest <> [] /\ p_path pb = ROOT (cfg E) ++ l1 :: l2 :: rest /\
        d_level1 doc = l1 /\ d_level2 doc = l2) /\
  (forall payloads pb data mtime w,
      iter_documents E = Ok payloads -> In pb payloads ->
      lookup_path (fs E) (p_path pb) = Some (File data mtime true) ->
      index_accepts_all E -> stdout_accepts_all E ->
      exists doc,
        index (snd (main_initial E w)) !! sha256_hexdigest E data = Some doc /\
        classified E doc).
Proof.
  split; [|split; [|split; [|split; [|split; [|split]]]]].
  - intros f n rel w Hlk Hres Hlen.
    destruct n as [data mtime readable|es].
    + rewrite (index_path_file E f data mtime readable w Hlk).
      rewrite (derive_levels_shallow E f rel Hres Hlen).
      destruct (bool_decide _); reflexivity.
    + rewrite index_path_not_file by (unfold is_file; rewrite Hlk; reflexivity).
      unfold exists_. rewrite Hlk. reflexivity.
  - intros payloads pb Hit Hin.
    destruct (iter_documents_sound E payloads pb Hit Hin)
      as (l1 & l2 & rest & Hne & Hp & H1 & H2 & _).
    exists l1, l2, rest. auto.
  - intros w. apply grows_only_adds.
    eapply grows_weaken; [apply classified_of|apply main_initial_grows].
  - intros f w. apply grows_only_adds.
    eapply grows_weaken; [apply classified_resolved_of|apply index_path_grows].
  - intros f data mtime l1 l2 rest w Hlk Hext Hres Hne Hidx.
    assert (Hfile : is_file (fs E) f = true) by (unfold is_file; rewrite Hlk; reflexivity).
    rewrite (index_path_accepted E f l1 l2 rest w Hfile Hext Hres Hne).
    destruct (watch_finish_world E f (build_and_index E (watch_payload f l1 l2) w))
      as (Hi & _).
    rewrite Hi.
    destruct (build_and_index_accepted E (watch_payload f l1 l2) data mtime w Hlk Hidx)
      as (meta & _ & Hbi).
    eexists. rewrite Hbi, lookup_insert_eq. split; [reflexivity|]. auto.
  - intros payloads pb data mtime total w Hit Hin Hlk Hidx.
    destruct (iter_documents_sound E payloads pb Hit Hin)
      as (l1 & l2 & rest & Hne & Hp & H1 & H2 & _).
    destruct (batch_record E payloads pb data mtime w Hit Hin Hlk Hidx)
      as (doc & Hl & Hdp & Hd1 & Hd2).
    exists doc, l1, l2, rest. rewrite main_step_index.
    repeat split; try assumption; congruence.
  - intros payloads pb data mtime w Hit Hin Hlk Hidx Hout.
    rewrite main_initial_index, Hit.
    eapply main_loop_reaches; try eassumption.
    intros pb' Hin'. eapply batch_payload_regular; eassumption.
Qed.

(** The file [A/top.pdf] is dropped by the watcher; the batch pass yields
    the report with the categories [A] and [B]; a watch event for the sheet
    leaves its record with the categories [C] and [D]; and at the end of
    the initial pass the index has a classified record under the digest of
    the sheet. *)
Lemma X22_witness :
  let E := Demo.env Demo.config true true in
  index_path E Demo.top Demo.world0 = (Ok tt, Demo.world0) /\
  (forall pb,
      In pb [ {| p_path := Demo.report; p_file_name := "report.pdf";
                 p_level1 := "A"; p_level2 := "B"; p_ext := "pdf";
                 p_relative_subpath := "" |} ] ->
      exists l1 l2 rest,
        rest <> [] /\ p_path pb = Demo.root ++ l1 :: l2 :: rest /\
        p_level1 pb = l1 /\ p_level2 pb = l2) /\
  (exists doc,
      index (snd (index_path E Demo.sheet Demo.world0)) !! "xy" = Some doc /\
      d_path doc = Demo.sheet /\ d_level1 doc = "C" /\ d_level2 doc = "D") /\
  (exists doc,
      index (snd (main_initial E Demo.world0)) !! "xy" = Some doc /\
      classified E doc).
Proof.
  intros E.
  destruct (X22_classification_by_depth E)
    as (Hwatch & Hbatch & _ & _ & Hwatch_in & _ & Hpass).
  assert (Hidx : index_accepts_all E) by (intros t doc_id doc; reflexivity).
  assert (Hout : stdout_accepts_all E) by (intros line; reflexivity).
  split; [|split; [|split]].
  - apply (Hwatch Demo.top (File [x74]%byte 0 true) ["A"; "top.pdf"] Demo.world0);
      [reflexivity|reflexivity|simpl; lia].
  - intros pb [<-|[]].
    eapply Hbatch; [vm_compute; reflexivity|]. left. reflexivity.
  - apply (Hwatch_in Demo.sheet [x78; x79]%byte 0 "C" "D" ["sheet.xlsx"] Demo.world0);
      [reflexivity|vm_compute; reflexivity|reflexivity|discriminate|exact Hidx].
  - destruct (iter_documents E) as [payloads|e] eqn:Hit; [|vm_compute in Hit; discriminate].
    apply (Hpass payloads
             {| p_path := Demo.sheet; p_file_name := "sheet.xlsx"; p_level1 := "C";
                p_level2 := "D"; p_ext := "xlsx"; p_relative_subpath := "" |}
             [x78; x79]%byte 0 Demo.world0 eq_refl);
      [|reflexivity|exact Hidx|exact Hout].
    vm_compute in Hit. inversion Hit. right. right. right. left. reflexivity.
Defined.

(** C3.  The watcher classifies a symbolic link by the file it resolves
    to, and not by its place.  The link [A/B/link.pdf] is at depth three
    and its record, which keeps the link's path, gets the categories [C]
    and [D] of the target, where the batch pass gives [A] and [B] to the
    same path; and the link [short.pdf], one segment below the root, gets
    a record, where the batch pass yields nothing for it. *)
Theorem C3_watch_classifies_a_link_by_its_target :
  let E := Linked.env in
  (exists doc,
      index (snd (index_path E Linked.link Demo.world0)) !! "abc" = Some doc /\
      d_path doc = ROOT (cfg E) ++ ["A"; "B"; "link.pdf"] /\
      d_level1 doc = "C" /\ d_level2 doc = "D" /\
      ~ classified E doc) /\
  (exists doc,
      fst (index_path E Linked.short Demo.world0) = Ok tt /\
      index (snd (index_path E Linked.short Demo.world0)) !! "abc" = Some doc /\
      d_path doc = ROOT (cfg E) ++ ["short.pdf"] /\
      d_level1 doc = "C" /\ d_level2 doc = "D") /\
  is_file (fs E) Linked.link = true /\
  is_file (fs E) Linked.short = true /\
  iter_documents E
    = Ok [ {| p_path := Linked.link; p_file_name := "link.pdf"; p_level1 := "A";
              p_level2 := "B"; p_ext := "pdf"; p_relative_subpath := "" |};
           {| p_path := Linked.real; p_file_name := "real.pdf"; p_level1 := "C";
              p_level2 := "D"; p_ext := "pdf"; p_relative_subpath := "" |} ].
Proof.
  intros E. split; [|split; [|split; [|split]]].
  - eexists. split; [vm_compute; reflexivity|].
    split; [reflexivity|]. split; [reflexivity|]. split; [reflexivity|].
    intros (l1 & l2 & rest & _ & Hp & H1 & _).
    cbn in Hp, H1. congruence.
  - eexists. split; [vm_compute; reflexivity|].
    split; [vm_compute; reflexivity|].
    repeat split; reflexivity.
  - reflexivity.
  - reflexivity.
  - vm_compute. reflexivity.
Qed.

(** ** C10: the two trigger paths build the same record *)

Lemma build_doc_ignores_subpath E pa pb :
  p_path pa = p_path pb -> p_file_name pa = p_file_name pb ->
  p_level1 pa = p_level1 pb -> p_level2 pa = p_level2 pb ->
  p_ext pa = p_ext pb ->
  forall w, build_doc E pa w = build_doc E pb w.
Proof.
  intros Hp Hn H1 H2 Hx w. unfold build_doc, build_doc_record.
  rewrite Hp, Hn, H1, H2, Hx. reflexivity.
Qed.

(** X23.  Without a symbolic link the two trigger paths build the same
    record.  For a file that the batch pass yields, that the
    watcher sees as a regular file and whose path is the one it resolves
    to (no symbolic link on it), the payload built by [index_path] differs
    from the batch payload in [relative_subpath] only (empty there),
    [build_doc] returns the same result and the same world for both in
    every world, and [index_path] is the two calls on that payload. *)
Theorem X23_batch_and_watch_records_agree
    (E : Env) (payloads : list Payload) (pb : Payload) :
  iter_documents E = Ok payloads ->
  In pb payloads ->
  is_file (fs E) (p_path pb) = true ->
  resolve E (p_path pb) = Some (p_path pb) ->
  exists pw,
    p_path pw = p_path pb /\ p_file_name pw = p_file_name pb /\
    p_level1 pw = p_level1 pb /\ p_level2 pw = p_level2 pb /\
    p_ext pw = p_ext pb /\ p_relative_subpath pw = "" /\
    (forall w, build_doc E pw w = build_doc E pb w) /\
    (forall w, index_path E (p_path pb) w =
               watch_finish E (p_path pb) (build_and_index E pw w)).
Proof.
  intros Hit Hin Hfile Hres.
  destruct (iter_documents_sound E payloads pb Hit Hin)
    as (l1 & l2 & rest & Hne & Hp & H1 & H2 & Hn & Hx & Ha & _).
  exists (watch_payload (p_path pb) l1 l2). simpl.
  repeat split; try reflexivity; try (symmetry; assumption).
  - intros w.
    apply build_doc_ignores_subpath; simpl;
      first [reflexivity | symmetry; assumption].
  - intros w. eapply index_path_accepted; try eassumption.
    rewrite Hres. f_equal. exact Hp.
Qed.

Lemma X23_witness :
  let E := Demo.env Demo.config true true in
  let pb := {| p_path := Demo.copy; p_file_name := "copy.PDF"; p_level1 := "A";
               p_level2 := "B"; p_ext := "pdf"; p_relative_subpath := "sub" |} in
  exists pw,
    p_path pw = p_path pb /\ p_file_name pw = p_file_name pb /\
    p_level1 pw = p_level1 pb /\ p_level2 pw = p_level2 pb /\
    p_ext pw = p_ext pb /\ p_relative_subpath pw = "" /\
    (forall w, build_doc E pw w = build_doc E pb w) /\
    (forall w, index_path E (p_path pb) w =
               watch_finish E (p_path pb) (build_and_index E pw w)).
Proof.
  intros E pb.
  eapply (X23_batch_and_watch_records_agree E _ pb).
  - vm_compute. reflexivity.
  - right. right. left. reflexivity.
  - reflexivity.
  - reflexivity.
Defined.

(** C10.  The two trigger paths build different records for a symbolic
    link: the batch pass yields [A/B/link.pdf] with the categories of the
    directories it was found in, the watcher accepts the same path and
    gives it the categories of the file that the link resolves to. *)
Theorem C10_link_records_differ :
  let E := Linked.env in
  let pb := {| p_path := Linked.link; p_file_name := "link.pdf"; p_level1 := "A";
               p_level2 := "B"; p_ext := "pdf"; p_relative_subpath := "" |} in
  exists payloads batch_doc watch_doc,
    iter_documents E = Ok payloads /\ In pb payloads /\
    is_file (fs E) Linked.link = true /\
    index (snd (main_step E 0 pb Demo.world0)) !! "abc" = Some batch_doc /\
    index (snd (index_path E Linked.link Demo.world0)) !! "abc" = Some watch_doc /\
    d_path batch_doc = Linked.link /\ d_path watch_doc = Linked.link /\
    d_level1 batch_doc = "A" /\ d_level2 batch_doc = "B" /\
    d_level1 watch_doc = "C" /\ d_level2 watch_doc = "D" /\
    batch_doc <> watch_doc.
Proof.
  intros E pb. eexists _, _, _.
  split; [vm_compute; reflexivity|].
  split; [left; reflexivity|].
  split; [reflexivity|].
  split; [vm_compute; reflexivity|].
  split; [vm_compute; reflexivity|].
  repeat split; try reflexivity. discriminate.
Qed.

(** ** C9: the watcher applies neither allow-list nor cap *)



(** ** C2: hidden files and office lock files *)

(** The batch pass never yields a path with a hidden segment, nor a file
    whose name starts with the lock marker. *)
Lemma batch_skips_hidden_and_lock E payloads pb :
  iter_documents E = Ok payloads -> In pb payloads ->
  is_hidden (p_path pb) = false /\ startswith (name (p_path pb)) "~$" = false.
Proof.
  intros Hit Hin.
  destruct (iter_documents_sound E payloads pb Hit Hin)
    as (l1 & l2 & rest & _ & _ & _ & _ & _ & _ & _ & Hh & Ht & _).
  auto.
Qed.

(** C2 (watch mode).  In the demonstration tree, [A/B/.secret.pdf] has a
    hidden segment and [A/B/~$lock.docx] is an office lock file; the batch
    pass yields neither, but the events that the watcher receives for them
    put a record for each in the index. *)
Theorem C2_watch_indexes_hidden_and_lock_files :
  let E := Demo.env Demo.config true true in
  let w := snd (dispatch E [ {| ev_type := Created; is_directory := false;
                                src_path := Demo.secret |};
                             {| ev_type := Modified; is_directory := false;
                                src_path := Demo.lock |} ] Demo.world0) in
  is_hidden Demo.secret = true /\
  startswith (name Demo.lock) "~$" = true /\
  (forall payloads pb,
      iter_documents E = Ok payloads -> In pb payloads ->
      p_path pb <> Demo.secret /\ p_path pb <> Demo.lock) /\
  (exists doc, index w !! "s" = Some doc /\ d_path doc = Demo.secret) /\
  (exists doc, index w !! "l" = Some doc /\ d_path doc = Demo.lock).
Proof.
  intros E w. split; [reflexivity|]. split; [reflexivity|]. split; [|split].
  - intros payloads pb Hit Hin.
    destruct (batch_skips_hidden_and_lock E payloads pb Hit Hin) as [Hh Ht].
    split; intros Heq; rewrite Heq in *; discriminate.
  - eexists. split; [vm_compute; reflexivity|reflexivity].
  - eexists. split; [vm_compute; reflexivity|reflexivity].
Qed.

(** ** C7: the reconciliation diff *)

Lemma diff_maps_lookup (a b : gmap string Z) (k : string) :
  Api.diff_maps a b !! k =
    if decide (k ∈ dom a ∪ dom b) then Some (Api.get0 a k - Api.get0 b k) else None.
Proof.
  unfold Api.diff_maps.
  destruct (decide (k ∈ dom a ∪ dom b)) as [Hin|Hout].
  - apply (lookup_set_to_map (fun k => (k, Api.get0 a k - Api.get0 b k))).
    + intros y y' _ _ Heq. exact Heq.
    + exists k. split; [exact Hin|reflexivity].
  - destruct (set_to_map _ _ !! k) as [x|] eqn:Hl; [|reflexivity].
    apply (lookup_set_to_map (fun k => (k, Api.get0 a k - Api.get0 b k))) in Hl.
    + destruct Hl as (y & Hy & Heq). inversion Heq; subst. contradiction.
    + intros y y' _ _ Heq. exact Heq.
Qed.

(** C7.  The diff has a value exactly for the categories of either side;
    the value is the count on disk minus the count in the index, a category
    absent from a side counting for zero there; the endpoint computes its
    two per-category diffs this way; and the example of the specification
    gives [A: 1, B: 0]. *)
Theorem C7_reconciliation_diff :
  (forall (a b : gmap string Z) (k : string),
      Api.diff_maps a b !! k =
        if decide (k ∈ dom a ∪ dom b)
        then Some (default 0 (a !! k) - default 0 (b !! k))
        else None) /\
  (forall E r,
      Api.stats E = Api.Ok r ->
      Api.by_level1_missing (Api.sr_diff r) =
        Api.diff_maps (Api.ds_by_level1 (Api.sr_disk r))
                      (Api.is_by_level1 (Api.sr_index r)) /\
      Api.by_level2_missing (Api.sr_diff r) =
        Api.diff_maps (Api.ds_by_level2 (Api.sr_disk r))
                      (Api.is_by_level2 (Api.sr_index r)) /\
      Api.total_missing (Api.sr_diff r) =
        Api.ds_total (Api.sr_disk r) - Api.is_total (Api.sr_index r)) /\
  Api.diff_maps {[ "A" := 3; "B" := 2 ]} {[ "A" := 2; "B" := 2 ]}
    = {[ "A" := 1; "B" := 0 ]}.
Proof.
  split; [|split].
  - intros a b k. apply diff_maps_lookup.
  - intros E r Hs. unfold Api.stats in Hs.
    destruct (Api._scan_disk_stats _ _) as [disk|e]; [|discriminate].
    destruct (Api._fetch_index_stats E) as [idx|e]; [|discriminate].
    inversion Hs; subst r. simpl. auto.
  - vm_compute. reflexivity.
Qed.

(** The endpoint on the demonstration tree, against an index that holds
    two documents of category [A] and none of category [C]. *)
Lemma C7_witness :
  let E := {| Api.DOC_ROOT := Demo.root; Api.fs := Demo.tree;
              Api.search := Some {| Api.sb_total := Some (Api.TotalObject (Some 2));
                                    Api.sb_buckets_level1 := [("A", 2)];
                                    Api.sb_buckets_level2 := [("B", 2)] |} |} in
  exists r,
    Api.stats E = Api.Ok r /\
    Api.by_level1_missing (Api.sr_diff r) = {[ "A" := 1; "C" := 1 ]} /\
    Api.total_missing (Api.sr_diff r) = 2.
Proof.
  intros E.
  destruct (Api.stats E) as [r|e] eqn:Hs; [|vm_compute in Hs; discriminate].
  exists r. split; [reflexivity|].
  destruct C7_reconciliation_diff as (_ & Hstats & _).
  destruct (Hstats E r Hs) as (H1 & _ & Ht).
  rewrite H1, Ht. vm_compute in Hs. inversion Hs; subst r.
  split; vm_compute; reflexivity.
Defined.

(** ** C8: what the reconciler does when a side is missing *)

(** C8.  When the document root does not exist, the scan returns the empty
    statistics (total zero, no category) instead of raising, and the
    endpoint answers with them if the index does; when the scan returns
    and the aggregation query fails, for whatever reason, the endpoint
    raises an HTTP exception with status 502 that carries the failure. *)
Theorem C8_reconciler_degradation (E : Api.Env) :
  (lookup_path (Api.fs E) (Api.DOC_ROOT E) = None ->
   Api._scan_disk_stats (Api.fs E) (Api.DOC_ROOT E)
     = Api.Ok (Api.empty_stats (Api.DOC_ROOT E)) /\
   Api.ds_total (Api.empty_stats (Api.DOC_ROOT E)) = 0 /\
   Api.ds_by_level1 (Api.empty_stats (Api.DOC_ROOT E)) = ∅ /\
   Api.ds_by_level2 (Api.empty_stats (Api.DOC_ROOT E)) = ∅ /\
   Api.ds_by_level1_level2 (Api.empty_stats (Api.DOC_ROOT E)) = ∅ /\
   forall idx,
     Api._fetch_index_stats E = Api.Ok idx ->
     exists r, Api.stats E = Api.Ok r /\
               Api.sr_disk r = Api.empty_stats (Api.DOC_ROOT E)) /\
  (forall disk e,
      Api._scan_disk_stats (Api.fs E) (Api.DOC_ROOT E) = Api.Ok disk ->
      Api._fetch_index_stats E = Api.Exc e ->
      Api.stats E = Api.Exc (Api.HTTPException 502 e)) /\
  (Api.search E = None -> exists e, Api._fetch_index_stats E = Api.Exc e).
Proof.
  split; [|split].
  - intros Hmissing.
    assert (Hscan : Api._scan_disk_stats (Api.fs E) (Api.DOC_ROOT E)
                    = Api.Ok (Api.empty_stats (Api.DOC_ROOT E))).
    { unfold Api._scan_disk_stats. rewrite Hmissing. reflexivity. }
    repeat split; try assumption.
    intros idx Hidx. unfold Api.stats. rewrite Hscan, Hidx.
    eexists. split; reflexivity.
  - intros disk e Hscan Hfetch. unfold Api.stats. rewrite Hscan, Hfetch. reflexivity.
  - intros Hnone. unfold Api._fetch_index_stats. rewrite Hnone. eauto.
Qed.

(** A root that is not there and an index that does not answer: the scan
    is empty, the endpoint raises the 502. *)
Lemma C8_witness :
  let E := {| Api.DOC_ROOT := ["data"; "gone"]; Api.fs := Demo.tree;
              Api.search := None |} in
  Api._scan_disk_stats (Api.fs E) (Api.DOC_ROOT E)
    = Api.Ok (Api.empty_stats ["data"; "gone"]) /\
  Api.stats E = Api.Exc (Api.HTTPException 502 Api.RequestError).
Proof.
  intros E.
  destruct (C8_reconciler_degradation E) as (Hroot & Hfetch & _).
  destruct (Hroot eq_refl) as (Hscan & _).
  split; [exact Hscan|].
  exact (Hfetch _ Api.RequestError Hscan eq_refl).
Defined.

(** * Further properties of the ingestion and of the endpoints *)

(** ** The cap on the number of documents *)

Lemma capped_take E candidates :
  forall yielded,
    capped E yielded candidates =
      if (MAX_DOCS (cfg E) =? 0)%Z then candidates
      else take (Z.to_nat (Z.max 1 (MAX_DOCS (cfg E) - yielded))) candidates.
Proof.
  induction candidates as [|c rest IH]; intros yielded; simpl.
  - destruct (_ =? 0)%Z; [reflexivity|]. rewrite take_nil. reflexivity.
  - rewrite IH. destruct (MAX_DOCS (cfg E) =? 0)%Z eqn:H0; simpl; [reflexivity|].
    destruct (MAX_DOCS (cfg E) <=? yielded + 1)%Z eqn:Hle.
    + apply Z.leb_le in Hle.
      replace (Z.to_nat (Z.max 1 (MAX_DOCS (cfg E) - yielded))) with 1%nat by lia.
      reflexivity.
    + apply Z.leb_gt in Hle.
      replace (Z.to_nat (Z.max 1 (MAX_DOCS (cfg E) - yielded)))
        with (S (Z.to_nat (Z.max 1 (MAX_DOCS (cfg E) - (yielded + 1))))) by lia.
      reflexivity.
Qed.

(** X1.  Over a root that is a directory, the generator yields the
    candidates in order: all of them when [MAX_DOCS] is zero, the first
    [MAX_DOCS] when it is positive, and the first one only when it is
    negative. *)
Theorem X1_iter_documents_cap (E : Env) (es : list (string * node)) :
  lookup_path (fs E) (ROOT (cfg E)) = Some (Dir es) ->
  exists payloads,
    iter_documents E = Ok payloads /\
    (MAX_DOCS (cfg E) = 0 -> payloads = candidates E es) /\
    (0 < MAX_DOCS (cfg E) ->
     payloads = take (Z.to_nat (MAX_DOCS (cfg E))) (candidates E es)) /\
    (MAX_DOCS (cfg E) < 0 -> payloads = take 1 (candidates E es)).
Proof.
  intros Hlk. unfold iter_documents. rewrite Hlk.
  eexists. split; [reflexivity|]. fold (candidates E es).
  rewrite capped_take.
  split; [|split]; intros H.
  - rewrite H. reflexivity.
  - destruct (_ =? 0)%Z eqn:H0; [apply Z.eqb_eq in H0; lia|].
    f_equal. lia.
  - destruct (_ =? 0)%Z eqn:H0; [apply Z.eqb_eq in H0; lia|].
    f_equal. lia.
Qed.

(** At most one document, only category [C]: one payload. *)
Lemma X1_witness :
  exists payloads,
    iter_documents (Demo.env Demo.config_only_C true true) = Ok payloads /\
    length payloads = 1%nat.
Proof.
  destruct (X1_iter_documents_cap (Demo.env Demo.config_only_C true true) _ eq_refl)
    as (payloads & Hit & _ & Hpos & _).
  exists payloads. split; [exact Hit|].
  rewrite Hpos by (simpl; lia). vm_compute. reflexivity.
Defined.

(** ** Discovery: what is yielded, and that nothing eligible is missed *)

Lemma find_entry_In nm es c : find_entry nm es = Some c -> In (nm, c) es.
Proof.
  induction es as [|[n c'] es IH]; simpl; [discriminate|].
  destruct (String.eqb n nm) eqn:Hn.
  - apply String.eqb_eq in Hn. intros H. inversion H; subst. auto.
  - auto.
Qed.

Lemma lookup_path_app fs p q :
  lookup_path fs (p ++ q) =
    match lookup_path fs p with
    | Some n => lookup_path n q
    | None => None
    end.
Proof.
  revert fs. induction p as [|s p IH]; intros fs; simpl; [reflexivity|].
  destruct fs as [|es]; [reflexivity|].
  destruct (find_entry s es); [apply IH|reflexivity].
Qed.

(** What a lookup finds strictly below a directory, [rglob] lists. *)
Lemma lookup_rglob rest :
  forall n p c,
    rest <> [] -> lookup_path n rest = Some c -> In (p ++ rest, c) (rglob p n).
Proof.
  induction rest as [|s rest IH]; intros n p c Hne Hlk; [contradiction|].
  simpl in Hlk. destruct n as [|es]; [discriminate|].
  destruct (find_entry s es) as [c1|] eqn:Hf; [|discriminate].
  apply find_entry_In in Hf. simpl. apply in_or_app.
  destruct rest as [|s' rest'].
  - left. simpl in Hlk. inversion Hlk; subst c1.
    unfold children. apply in_map_iff. exists (s, c). auto.
  - right. apply in_flat_map. exists (s, c1). split; [exact Hf|]. simpl.
    replace (p ++ s :: s' :: rest') with ((p ++ [s]) ++ s' :: rest')
      by (rewrite <- app_assoc; reflexivity).
    apply IH; [discriminate|exact Hlk].
Qed.

Lemma is_hidden_app p q : is_hidden (p ++ q) = is_hidden p || is_hidden q.
Proof. unfold is_hidden. apply existsb_app. Qed.

Lemma filter_passes_inv (F : gset string) (l : string) :
  F = ∅ \/ l ∈ F -> bool_decide (F ≠ ∅) && bool_decide (l ∉ F) = false.
Proof.
  intros [H|H].
  - rewrite (bool_decide_eq_false_2 (F ≠ ∅)) by (intros Hn; apply Hn; exact H).
    reflexivity.
  - rewrite (bool_decide_eq_false_2 (l ∉ F)) by (intros Hn; apply Hn; exact H).
    apply andb_false_r.
Qed.

Lemma iter_documents_uncapped E es :
  lookup_path (fs E) (ROOT (cfg E)) = Some (Dir es) ->
  MAX_DOCS (cfg E) = 0 ->
  iter_documents E = Ok (flat_map (level1_candidates E) (children (ROOT (cfg E)) es)).
Proof.
  intros Hlk Hcap. unfold iter_documents. rewrite Hlk, capped_take, Hcap. reflexivity.
Qed.

(** X2.  Nothing eligible is missed: when no cap is set, a regular file
    found three segments or more below the root, with no hidden segment on
    its path (the root's own segments included), a name that does not start
    with the lock marker, an allowed extension and categories that the
    allow-lists accept, is yielded with these two categories. *)
Theorem X2_iter_documents_complete
    (E : Env) (l1 l2 : string) (rest : Path)
    (data : list byte) (mtime : Z) (readable : bool) :
  let f := ROOT (cfg E) ++ l1 :: l2 :: rest in
  lookup_path (fs E) f = Some (File data mtime readable) ->
  rest <> [] ->
  is_hidden f = false ->
  startswith (name f) "~$" = false ->
  lower (suffix f) ∈ ALLOW_EXTS ->
  FILTER_LEVEL1 (cfg E) = ∅ \/ l1 ∈ FILTER_LEVEL1 (cfg E) ->
  FILTER_LEVEL2 (cfg E) = ∅ \/ l2 ∈ FILTER_LEVEL2 (cfg E) ->
  MAX_DOCS (cfg E) = 0 ->
  exists payloads pb,
    iter_documents E = Ok payloads /\ In pb payloads /\
    p_path pb = f /\ p_level1 pb = l1 /\ p_level2 pb = l2 /\
    p_file_name pb = name f /\ p_ext pb = lstrip_dot (lower (suffix f)).
Proof.
  intros f Hlk Hne Hh Ht Hext Hf1 Hf2 Hcap. subst f.
  set (f := ROOT (cfg E) ++ l1 :: l2 :: rest) in *.
  (* the directories on the way *)
  unfold f in Hlk. rewrite lookup_path_app in Hlk.
  destruct (lookup_path (fs E) (ROOT (cfg E))) as [nroot|] eqn:Hroot; [|discriminate].
  simpl in Hlk. destruct nroot as [|es]; [discriminate|].
  destruct (find_entry l1 es) as [n1|] eqn:H1; [|discriminate].
  destruct n1 as [|es1]; [discriminate|].
  destruct (find_entry l2 es1) as [n2|] eqn:H2; [|discriminate].
  apply find_entry_In in H1. apply find_entry_In in H2.
  assert (Hdir2 : node_is_dir n2 = true).
  { destruct n2; [|reflexivity]. destruct rest; [contradiction|discriminate]. }
  (* no hidden segment on the way *)
  assert (Hh1 : is_hidden (ROOT (cfg E) ++ [l1]) = false).
  { unfold f in Hh.
    replace (ROOT (cfg E) ++ l1 :: l2 :: rest)
      with ((ROOT (cfg E) ++ [l1]) ++ l2 :: rest) in Hh
      by (rewrite <- app_assoc; reflexivity).
    rewrite is_hidden_app in Hh. apply orb_false_iff in Hh. tauto. }
  assert (Hh2 : is_hidden ((ROOT (cfg E) ++ [l1]) ++ [l2]) = false).
  { unfold f in Hh.
    replace (ROOT (cfg E) ++ l1 :: l2 :: rest)
      with (((ROOT (cfg E) ++ [l1]) ++ [l2]) ++ rest) in Hh
      by (rewrite <- !app_assoc; reflexivity).
    rewrite is_hidden_app in Hh. apply orb_false_iff in Hh. tauto. }
  assert (Hf : f = ((ROOT (cfg E) ++ [l1]) ++ [l2]) ++ rest)
    by (unfold f; rewrite <- !app_assoc; reflexivity).
  pose proof (lookup_rglob rest n2 ((ROOT (cfg E) ++ [l1]) ++ [l2]) _ Hne Hlk) as Hin.
  rewrite <- Hf in Hin.
  pose proof (iter_documents_uncapped E es Hroot Hcap) as Hit.
  exists (flat_map (level1_candidates E) (children (ROOT (cfg E)) es)).
  eexists. split; [exact Hit|]. split.
  - apply in_flat_map. exists (ROOT (cfg E) ++ [l1], Dir es1). split.
    { unfold children. apply in_map_iff. exists (l1, Dir es1). auto. }
    unfold level1_candidates. rewrite Hh1. simpl. rewrite name_snoc.
    rewrite (filter_passes_inv _ _ Hf1).
    apply in_flat_map. exists ((ROOT (cfg E) ++ [l1]) ++ [l2], n2). split.
    { unfold children. apply in_map_iff. exists (l2, n2). auto. }
    unfold level2_candidates. rewrite Hdir2, Hh2. simpl. rewrite name_snoc.
    rewrite (filter_passes_inv _ _ Hf2).
    apply in_flat_map. exists (f, File data mtime readable). split; [exact Hin|].
    unfold candidate. simpl. rewrite Hh, Ht. simpl.
    rewrite bool_decide_eq_false_2 by (intros Hn; apply Hn; exact Hext).
    left. reflexivity.
  - simpl. auto.
Qed.

Lemma X2_witness :
  exists payloads pb,
    iter_documents (Demo.env Demo.config true true) = Ok payloads /\
    In pb payloads /\ p_path pb = Demo.copy /\ p_level1 pb = "A" /\ p_level2 pb = "B".
Proof.
  destruct (X2_iter_documents_complete (Demo.env Demo.config true true)
              "A" "B" ["sub"; "copy.PDF"] Demo.abc 5 true eq_refl)
    as (payloads & pb & Hit & Hin & Hp & H1 & H2 & _).
  - discriminate.
  - reflexivity.
  - reflexivity.
  - vm_compute. reflexivity.
  - left. reflexivity.
  - left. reflexivity.
  - reflexivity.
  - exists payloads, pb. auto.
Defined.

(** Every yielded payload comes from an entry that [rglob] lists strictly
    below a second-level directory. *)
Lemma iter_documents_In E payloads pb :
  iter_documents E = Ok payloads -> In pb payloads ->
  exists l1 l2 rest n,
    rest <> [] /\
    In pb (candidate l1 l2 ((ROOT (cfg E) ++ [l1]) ++ [l2])
             (((ROOT (cfg E) ++ [l1]) ++ [l2]) ++ rest, n)).
Proof.
  intros Hit Hin.
  apply iter_documents_Ok in Hit as [->|(es & _ & ->)]; [contradiction|].
  apply capped_incl in Hin.
  apply in_flat_map in Hin as ([level1_dir n1] & Hc1 & Hin).
  apply in_map_iff in Hc1 as ([l1 n1'] & Heq & _). simpl in Heq.
  inversion Heq; subst level1_dir n1'; clear Heq.
  unfold level1_candidates in Hin.
  destruct (negb (node_is_dir n1) || is_hidden (ROOT (cfg E) ++ [l1]));
    [contradiction|].
  rewrite name_snoc in Hin.
  destruct (bool_decide _ && bool_decide _) in Hin; [contradiction|].
  destruct n1 as [|es1]; [contradiction|].
  apply in_flat_map in Hin as ([level2_dir n2] & Hc2 & Hin).
  apply in_map_iff in Hc2 as ([l2 n2'] & Heq & _). simpl in Heq.
  inversion Heq; subst level2_dir n2'; clear Heq.
  unfold level2_candidates in Hin.
  destruct (negb (node_is_dir n2) || is_hidden ((ROOT (cfg E) ++ [l1]) ++ [l2]));
    [contradiction|].
  rewrite name_snoc in Hin.
  destruct (bool_decide _ && bool_decide _) in Hin; [contradiction|].
  apply in_flat_map in Hin as ([file_path n] & Hr & Hin).
  apply rglob_below in Hr as (rest & Hne & Hpath). simpl in Hpath. subst file_path.
  exists l1, l2, rest, n. auto.
Qed.

Lemma candidate_subpath l1 l2 dir rest n pb :
  rest <> [] ->
  In pb (candidate l1 l2 dir (dir ++ rest, n)) ->
  p_path pb = dir ++ rest /\
  p_relative_subpath pb = String.concat "/" (removelast rest).
Proof.
  intros Hne Hin. unfold candidate in Hin.
  destruct (negb (node_is_file n)); [contradiction|].
  destruct (_ || _); [contradiction|].
  destruct (bool_decide (_ ∉ ALLOW_EXTS)); [contradiction|].
  destruct Hin as [<-|[]]. simpl. split; [reflexivity|].
  unfold parent. rewrite removelast_app by assumption.
  destruct (removelast rest) as [|s rl] eqn:Hrl.
  - rewrite app_nil_r.
    rewrite bool_decide_eq_false_2 by (intros Hn; apply Hn; reflexivity).
    reflexivity.
  - rewrite bool_decide_eq_true_2.
    + rewrite relative_to_app. reflexivity.
    + intros Heq. rewrite <- (app_nil_r dir) in Heq at 2.
      apply app_inv_head in Heq. discriminate.
Qed.

(** X3.  The [relative_subpath] of a yielded payload is made of the
    segments between the second category and the file name, joined by
    ["/"]; it is empty for a file directly in the category directory. *)
Theorem X3_relative_subpath
    (E : Env) (payloads : list Payload) (pb : Payload) (l1 l2 : string) (rest : Path) :
  iter_documents E = Ok payloads -> In pb payloads ->
  p_path pb = ROOT (cfg E) ++ l1 :: l2 :: rest ->
  p_relative_subpath pb = String.concat "/" (removelast rest) /\
  (length rest = 1%nat -> p_relative_subpath pb = "").
Proof.
  intros Hit Hin Hp.
  destruct (iter_documents_In E payloads pb Hit Hin) as (l1' & l2' & rest' & n & Hne & Hc).
  destruct (candidate_subpath _ _ _ _ _ _ Hne Hc) as [Hp' Hs].
  rewrite Hp', <- !app_assoc in Hp. apply app_inv_head in Hp. simpl in Hp.
  inversion Hp; subst l1' l2' rest'.
  split; [exact Hs|]. intros Hlen. rewrite Hs.
  destruct rest as [|s [|s' r]]; try discriminate. reflexivity.
Qed.

Lemma X3_witness :
  let pb := {| p_path := Demo.copy; p_file_name := "copy.PDF"; p_level1 := "A";
               p_level2 := "B"; p_ext := "pdf"; p_relative_subpath := "sub" |} in
  p_relative_subpath pb = String.concat "/" ["sub"] /\
  (length ["sub"; "copy.PDF"] = 1%nat -> p_relative_subpath pb = "").
Proof.
  intros pb.
  eapply (X3_relative_subpath (Demo.env Demo.config true true) _ pb
            "A" "B" ["sub"; "copy.PDF"]).
  - vm_compute. reflexivity.
  - right. right. left. reflexivity.
  - reflexivity.
Defined.

(** X4.  The test for hidden entries reads every segment of the absolute
    path, those of the root included: when the document root itself has a
    hidden segment, the batch pass yields nothing. *)
Theorem X4_hidden_root_yields_nothing (E : Env) (payloads : list Payload) :
  is_hidden (ROOT (cfg E)) = true ->
  iter_documents E = Ok payloads ->
  payloads = [].
Proof.
  intros Hh Hit. destruct payloads as [|pb rest]; [reflexivity|].
  destruct (iter_documents_sound E _ pb Hit (or_introl eq_refl))
    as (l1 & l2 & r & _ & Hp & _ & _ & _ & _ & _ & Hnh & _).
  rewrite Hp, is_hidden_app, Hh in Hnh. discriminate.
Qed.

Lemma X4_witness :
  iter_documents Hidden.env = Ok [] /\
  index (snd (index_path Hidden.env Hidden.report Demo.world0)) <> ∅.
Proof.
  split.
  - destruct (iter_documents Hidden.env) as [payloads|e] eqn:Hit;
      [|vm_compute in Hit; discriminate].
    rewrite (X4_hidden_root_yields_nothing Hidden.env payloads eq_refl Hit).
    reflexivity.
  - vm_compute. discriminate.
Defined.

(** ** What the two trigger paths add, keep and let through *)

(** X5.  Whatever the services and standard output do, each record that
    the initial pass or the watcher adds to the index describes a readable
    regular file of the tree: identifier and [sha256] are the digest of its
    bytes, size and date are the file's, the name is the last segment of
    the path, the extension is one of the five; and the record is kept
    under its own identifier.  The categories of a record of the initial
    pass are the first two segments of its path below the root; those of a
    record of the watcher are the first two segments, below the root, of
    the path that its path resolves to. *)
Theorem X5_added_records_are_faithful (E : Env) (w : World) :
  (forall id doc,
      index (snd (main_initial E w)) !! id = Some doc ->
      index w !! id = Some doc \/
      (faithful_record E doc /\ classified E doc /\ d_id doc = id)) /\
  (forall evs id doc,
      index (snd (dispatch E evs w)) !! id = Some doc ->
      index w !! id = Some doc \/
      (faithful_record E doc /\ classified_resolved E doc /\ d_id doc = id)).
Proof.
  split.
  - intros id doc Hl.
    destruct (proj1 (main_initial_grows E w) id doc Hl) as [H|[HQ Hid]]; [auto|].
    right. split; [exact (proj1 HQ)|]. split; [apply classified_of; exact HQ|exact Hid].
  - intros evs id doc Hl.
    destruct (proj1 (dispatch_grows E evs w) id doc Hl) as [H|[HQ Hid]]; [auto|].
    right. split; [exact (proj1 HQ)|].
    split; [apply classified_resolved_of; exact HQ|exact Hid].
Qed.

(** X8.  Nothing is ever removed: after the initial pass, and after any
    sequence of events (removals and moves included), every identifier of
    the index is still there, and the trace is the former one extended. *)
Theorem X8_index_never_shrinks (E : Env) (w : World) :
  (dom (index w) ⊆ dom (index (snd (main_initial E w))) /\
   exists evs, trace (snd (main_initial E w)) = trace w ++ evs) /\
  (forall events,
      dom (index w) ⊆ dom (index (snd (dispatch E events w))) /\
      exists evs, trace (snd (dispatch E events w)) = trace w ++ evs).
Proof.
  split.
  - apply main_initial_grows.
  - intros events. apply dispatch_grows.
Qed.

(** What [index_path] returns or raises. *)
Lemma index_path_result E f w :
  fst (index_path E f w) = Ok tt \/
  fst (index_path E f w) = Exc UnicodeEncodeError \/
  (fst (index_path E f w) = Exc (OSError f) /\
   lookup_path (fs E) f = None /\ stat_fails E f = true).
Proof.
  destruct (lookup_path (fs E) f) as [[data mtime readable|es]|] eqn:Hlk.
  - rewrite (index_path_file E f data mtime readable w Hlk).
    destruct (bool_decide _); [auto|].
    destruct (derive_levels E f) as [[l1 l2]|]; [|auto].
    rewrite try_build_and_index.
    destruct (watch_finish_world E f (build_and_index E (watch_payload f l1 l2) w))
      as (_ & _ & [H|H]); auto.
  - rewrite index_path_not_file by (unfold is_file; rewrite Hlk; reflexivity).
    unfold exists_. rewrite Hlk. auto.
  - rewrite index_path_not_file by (unfold is_file; rewrite Hlk; reflexivity).
    unfold exists_. rewrite Hlk. simpl. destruct (stat_fails E f); auto.
Qed.

(** X7.  No exception of the extraction, of the index or of the reading of
    a file leaves the handler: what can leave it is the exception of a
    [print] whose line cannot be encoded, or that of the test of existence
    on a path that cannot be examined.  When standard output encodes every
    line and the paths of the events can be examined, the handler never
    raises; and events for directories, moves and removals change nothing
    at all. *)
Theorem X7_what_leaves_the_handler
    (E : Env) (events : list FileSystemEvent) (w : World) :
  (fst (dispatch E events w) = Ok tt \/
   fst (dispatch E events w) = Exc UnicodeEncodeError \/
   exists ev, In ev events /\ stat_fails E (src_path ev) = true /\
              lookup_path (fs E) (src_path ev) = None /\
              fst (dispatch E events w) = Exc (OSError (src_path ev))) /\
  (stdout_accepts_all E ->
   (forall ev, In ev events -> stat_fails E (src_path ev) = false) ->
   fst (dispatch E events w) = Ok tt) /\
  (Forall (fun ev => is_directory ev = true \/ ev_type ev = Moved \/
                     ev_type ev = Deleted) events ->
   dispatch E events w = (Ok tt, w)).
Proof.
  assert (Hhandle : forall ev w',
             fst (handle E ev w') = Ok tt \/
             fst (handle E ev w') = Exc UnicodeEncodeError \/
             (fst (handle E ev w') = Exc (OSError (src_path ev)) /\
              lookup_path (fs E) (src_path ev) = None /\
              stat_fails E (src_path ev) = true)).
  { intros ev w'. rewrite handle_eq. destruct (is_directory ev); [auto|].
    destruct (ev_type ev); auto using index_path_result. }
  split; [|split].
  - revert w. induction events as [|ev rest IH]; intros w; [left; reflexivity|].
    rewrite dispatch_step.
    destruct (Hhandle ev w) as [H|[H|(H & Hlk & Hst)]];
      destruct (handle E ev w) as [[[]|e] w1]; simpl in H; try discriminate.
    + destruct (IH w1) as [H1|[H1|(ev' & Hin & Hst & Hlk & H1)]]; auto.
      right. right. exists ev'. repeat split; try assumption. right. exact Hin.
    + inversion H. auto.
    + inversion H. right. right. exists ev. repeat split; auto. left. reflexivity.
  - intros Hout. revert w. induction events as [|ev rest IH]; intros w Hst; [reflexivity|].
    rewrite dispatch_step.
    assert (Hok : fst (handle E ev w) = Ok tt).
    { rewrite handle_eq. destruct (is_directory ev); [reflexivity|].
      destruct (ev_type ev); try reflexivity.
      all: destruct (index_path_cases E (src_path ev) w)
             as [->|[H|(l1 & l2 & _ & _ & _ & ->)]];
        [reflexivity| |rewrite watch_finish_accepted by exact Hout; reflexivity].
      all: destruct (index_path_result E (src_path ev) w)
             as [H'|[H'|(_ & _ & H')]];
        [exact H'|rewrite H in H'; discriminate|].
      all: rewrite (Hst ev (or_introl eq_refl)) in H'; discriminate. }
    destruct (handle E ev w) as [[[]|e] w1]; simpl in Hok; [|discriminate].
    apply IH. intros ev' Hin. apply Hst. right. exact Hin.
  - revert w. induction events as [|ev rest IH]; intros w Hall; [reflexivity|].
    inversion Hall as [|? ? Hev Hrest]; subst. rewrite dispatch_step, handle_eq.
    destruct (is_directory ev) eqn:Hd; [apply IH; exact Hrest|].
    destruct Hev as [Hev|[Hev|Hev]]; [discriminate| |]; rewrite Hev;
      apply IH; exact Hrest.
Qed.

(** Events that change nothing, events that are handled, and an event for a
    path that cannot be examined. *)
Lemma X7_witness :
  let E := Demo.env Demo.config true true in
  dispatch E
    [ {| ev_type := Created; is_directory := true; src_path := Demo.root ++ ["A"] |};
      {| ev_type := Deleted; is_directory := false; src_path := Demo.report |};
      {| ev_type := Moved; is_directory := false; src_path := Demo.copy |} ]
    Demo.world0
  = (Ok tt, Demo.world0) /\
  fst (dispatch E [modified Demo.report; modified Demo.locked] Demo.world0) = Ok tt.
Proof.
  intros E. split.
  - apply (X7_what_leaves_the_handler E).
    constructor; [left; reflexivity|].
    constructor; [right; right; reflexivity|].
    constructor; [right; left; reflexivity|].
    constructor.
  - apply (X7_what_leaves_the_handler E).
    + intros line. reflexivity.
    + intros ev Hin. reflexivity.
Defined.

(** ** The suggestion terms *)

Lemma suggest_terms_spec (a b c t : string) :
  t ∈ remove_dups
        (filter (fun t => t <> "")
           ((if a is EmptyString then [] else [a]) ++
            (if b is EmptyString then [] else [b]) ++
            (if c is EmptyString then [] else [c])))
  <-> t <> "" /\ (t = a \/ t = b \/ t = c).
Proof.
  rewrite elem_of_remove_dups, list_elem_of_filter, !elem_of_app.
  split.
  - intros (Hne & H). split; [exact Hne|].
    destruct H as [H|[H|H]]; [destruct a|destruct b|destruct c];
      try (apply elem_of_nil in H; contradiction);
      apply list_elem_of_singleton in H; auto.
  - intros (Hne & H). split; [exact Hne|].
    destruct H as [H|[H|H]]; [left|right; left|right; right]; rewrite <- H;
      destruct t; try contradiction; apply list_elem_of_singleton; reflexivity.
Qed.

(** X6.  The [suggest] field of a built record has no repetition and no
    empty string, and its terms are exactly the non-empty ones among the
    two categories and the title of the record. *)
Theorem X6_suggest_terms (E : Env) (payload : Payload) (doc : Doc) (w w' : World) :
  build_doc E payload w = (Ok doc, w') ->
  p_file_name payload = name (p_path payload) ->
  NoDup (d_suggest doc) /\
  forall t,
    t ∈ d_suggest doc <->
    t <> "" /\ (t = d_level1 doc \/ t = d_level2 doc \/ t = d_title doc).
Proof.
  intros Hb Hn.
  apply build_doc_Ok in Hb as (data & mtime & meta & _ & Hx & ->).
  pose proof (extract_title E _ _ _ _ _ Hx) as Ht.
  assert (Htitle : py_or (m_title meta) (stem_of_name (p_file_name payload))
                   = m_title meta).
  { destruct (m_title meta) eqn:Hm; [|reflexivity]. simpl.
    rewrite Hn. apply Ht. reflexivity. }
  unfold build_doc_record. simpl. split; [apply NoDup_remove_dups|].
  intros t. rewrite Htitle. apply suggest_terms_spec.
Qed.

(** A document filed under a category that bears its title: two terms. *)
Lemma X6_witness :
  let E := Demo.env Demo.config false true in
  let payload :=
    {| p_path := Demo.report; p_file_name := "report.pdf"; p_level1 := "report";
       p_level2 := "B"; p_ext := "pdf"; p_relative_subpath := "" |} in
  exists doc w',
    build_doc E payload Demo.world0 = (Ok doc, w') /\
    NoDup (d_suggest doc) /\
    length (d_suggest doc) = 2%nat /\
    "report" ∈ d_suggest doc.
Proof.
  intros E payload.
  destruct (build_doc E payload Demo.world0) as [[doc|e] w'] eqn:Hb;
    [|vm_compute in Hb; discriminate].
  exists doc, w'. split; [reflexivity|].
  destruct (X6_suggest_terms E payload doc Demo.world0 w' Hb eq_refl) as [Hnd Hin].
  split; [exact Hnd|]. split.
  - vm_compute in Hb. inversion Hb. reflexivity.
  - apply Hin. split; [discriminate|]. left.
    vm_compute in Hb. inversion Hb. reflexivity.
Defined.

(** ** The counter of the initial pass *)

Lemma main_loop_count E payloads :
  stdout_accepts_all E ->
  forall total w total' w',
    main_loop E total payloads w = (Ok total', w') ->
    total <= total' <= total + Z.of_nat (length payloads) /\
    Z.of_nat (size (index w')) <= Z.of_nat (size (index w)) + (total' - total).
Proof.
  intros Hout.
  induction payloads as [|payload rest IH]; intros total w total' w' H; simpl in H.
  - unfold_monad. inversion H; subst. simpl. lia.
  - unfold mbind, M_bind in H. rewrite (main_step_accepted E _ _ _ Hout) in H.
    destruct (build_and_index_cases E payload w)
      as [(e & Hr & Hi)|(Hr & data & mtime & meta & _ & _ & Hi)];
      destruct (build_and_index E payload w) as [[[]|e'] w1];
      simpl in Hr, Hi; try discriminate.
    + apply IH in H as [Hc Hs]. cbn [say index] in Hs. rewrite Hi in Hs.
      rewrite length_cons, Nat2Z.inj_succ. split; lia.
    + assert (Hsz : Z.of_nat (size (index w1)) <= Z.of_nat (size (index w)) + 1).
      { rewrite Hi.
        destruct (index w !! sha256_hexdigest E data) as [old|] eqn:Hold.
        - rewrite map_size_insert_Some by eauto. lia.
        - rewrite map_size_insert_None by assumption. lia. }
      destruct (_ || _); apply IH in H as [Hc Hs]; cbn [say index] in Hs;
        rewrite length_cons, Nat2Z.inj_succ. all: split; lia.
Qed.

(** X9.  When [iter_documents] raises (a root that is a regular file, or
    that cannot be examined), the initial pass raises the same exception
    before any request.  When it yields its payloads and standard output
    encodes every line, the pass ends normally with the line that gives its
    counter; the counter is at most the number of payloads, and the index
    has at most that many entries more. *)
Theorem X9_initial_pass_counter (E : Env) (w : World) :
  (forall e, iter_documents E = Exc e -> main_initial E w = (Exc e, w)) /\
  (forall payloads,
      iter_documents E = Ok payloads ->
      stdout_accepts_all E ->
      exists total w1,
        main_initial E w = (Ok tt, say (LogBatchDone total) w1) /\
        0 <= total <= Z.of_nat (length payloads) /\
        Z.of_nat (size (index w1)) <= Z.of_nat (size (index w)) + total).
Proof.
  split.
  - intros e Hit. unfold main_initial. rewrite Hit. reflexivity.
  - intros payloads Hit Hout. unfold main_initial. rewrite Hit. unfold mbind, M_bind.
    destruct (main_loop_total E payloads Hout 0 w) as (total & w1 & Hl). rewrite Hl.
    exists total, w1. split; [rewrite print_eq, Hout; reflexivity|].
    apply (main_loop_count E payloads Hout) in Hl. lia.
Qed.

(** The demonstration tree: four payloads, one of them unreadable, two of
    them with the same bytes; the counter is 3 and the index has two
    entries.  With a regular file as root, the pass raises at once. *)
Lemma X9_witness :
  (exists total w1,
     main_initial (Demo.env Demo.config true true) Demo.world0
       = (Ok tt, say (LogBatchDone total) w1) /\
     0 <= total <= 4 /\
     Z.of_nat (size (index w1)) <= 0 + total) /\
  main_initial
    (Demo.env {| ROOT := Demo.report; FILTER_LEVEL1 := ∅; FILTER_LEVEL2 := ∅;
                 MAX_DOCS := 0; MAX_OCR_MB := 30 |} true true) Demo.world0
    = (Exc (NotADirectoryError Demo.report), Demo.world0).
Proof.
  split.
  - destruct (iter_documents (Demo.env Demo.config true true)) as [payloads|e] eqn:Hit;
      [|vm_compute in Hit; discriminate].
    destruct (proj2 (X9_initial_pass_counter (Demo.env Demo.config true true)
                       Demo.world0) payloads Hit (fun line => eq_refl))
      as (total & w1 & Hm & Hc & Hs).
    exists total, w1. split; [exact Hm|].
    vm_compute in Hit. inversion Hit; subst payloads. split; [exact Hc|exact Hs].
  - apply X9_initial_pass_counter. reflexivity.
Defined.

(** ** One event touches one record *)

(** X11.  A watch event for a regular file can only change the record
    kept under the digest of that file's bytes; when it does, the record
    found there afterwards bears the path of that file, whatever file was
    recorded there before (another one with the same bytes, for example). *)
Theorem X11_event_touches_one_record
    (E : Env) (f : Path) (data : list byte) (mtime : Z) (readable : bool) (w : World) :
  lookup_path (fs E) f = Some (File data mtime readable) ->
  (forall id,
      id <> sha256_hexdigest E data ->
      index (snd (index_path E f w)) !! id = index w !! id) /\
  (index (snd (index_path E f w)) !! sha256_hexdigest E data
     = index w !! sha256_hexdigest E data \/
   exists doc,
     index (snd (index_path E f w)) !! sha256_hexdigest E data = Some doc /\
     d_path doc = f /\ d_file_name doc = name f).
Proof.
  intros Hlk.
  destruct (index_path_cases E f w)
    as [->|[->|(l1 & l2 & _ & _ & _ & ->)]]; [auto|auto|].
  rewrite (proj1 (watch_finish_world E f (build_and_index E (watch_payload f l1 l2) w))).
  destruct (build_and_index_cases E (watch_payload f l1 l2) w)
    as [(e & _ & Hi)|(_ & data' & mtime' & meta & Hlk' & _ & Hi)]; rewrite Hi; [auto|].
  simpl in Hlk'. rewrite Hlk in Hlk'. inversion Hlk'; subst data' mtime' readable.
  split.
  - intros id Hne. apply lookup_insert_ne. auto.
  - right. eexists. split; [apply lookup_insert_eq|]. auto.
Qed.

(** The report, then its copy: one record, that of the copy. *)
Lemma X11_witness :
  let E := Demo.env Demo.config true true in
  let w := snd (index_path E Demo.report Demo.world0) in
  exists doc,
    index (snd (index_path E Demo.copy w)) !! "abc" = Some doc /\
    d_path doc = Demo.copy /\
    index w !! "abc" <> Some doc.
Proof.
  intros E w.
  destruct (X11_event_touches_one_record E Demo.copy Demo.abc 5 true w eq_refl)
    as [_ [Hsame|(doc & Hl & Hp & _)]].
  - vm_compute in Hsame. discriminate.
  - exists doc. split; [exact Hl|]. split; [exact Hp|].
    intros Hw. vm_compute in Hw. inversion Hw as [Hd]. rewrite <- Hd in Hp.
    vm_compute in Hp. discriminate.
Defined.

(** ** Steady services: repeating and reordering *)

Lemma stateless_ret {A} (a : A) : stateless (mret a : M A).
Proof. exists (Ok a), []. intros [i t]. unfold_monad. simpl. rewrite app_nil_r. reflexivity. Qed.

Lemma stateless_raise {A} (e : exn) : stateless (raise e : M A).
Proof. exists (Exc e), []. intros [i t]. unfold_monad. simpl. rewrite app_nil_r. reflexivity. Qed.

Lemma stateless_bind {A B} (m : M A) (f : A -> M B) :
  stateless m -> (forall a, stateless (f a)) -> stateless (m ≫= f).
Proof.
  intros (r & evs & Hm) Hf. destruct r as [a|e].
  - destruct (Hf a) as (r' & evs' & Hfa). exists r', (evs ++ evs'). intros w.
    unfold mbind, M_bind. rewrite Hm, Hfa. simpl. rewrite app_assoc. reflexivity.
  - exists (Exc e), evs. intros w. unfold mbind, M_bind. rewrite Hm. reflexivity.
Qed.

Lemma stateless_try {A} (m : M A) (h : exn -> M A) :
  stateless m -> (forall e, stateless (h e)) -> stateless (try_except m h).
Proof.
  intros (r & evs & Hm) Hh. destruct r as [a|e].
  - exists (Ok a), evs. intros w. unfold try_except. rewrite Hm. reflexivity.
  - destruct (Hh e) as (r' & evs' & Hhe). exists r', (evs ++ evs'). intros w.
    unfold try_except. rewrite Hm, Hhe. simpl. rewrite app_assoc. reflexivity.
Qed.

Lemma stateless_emit e : stateless (emit e).
Proof. exists (Ok tt), [e]. intros w. reflexivity. Qed.

Lemma stateless_retry_from {A} wait (f : M A) :
  stateless f -> forall remaining k, stateless (retry_from wait remaining k f).
Proof.
  intros Hf remaining. induction remaining as [|n IH]; intros k; simpl.
  - apply stateless_try; [exact Hf|]. intros e. apply stateless_raise.
  - apply stateless_try; [exact Hf|]. intros e.
    apply stateless_bind; [apply stateless_emit|]. intros _. apply IH.
Qed.

Lemma stateless_read_bytes E p : stateless (read_bytes E p).
Proof.
  unfold read_bytes.
  destruct (lookup_path (fs E) p) as [[data mtime [|]|es]|];
    auto using stateless_ret, stateless_raise.
Qed.

Lemma stateless_request {A} (req : event) (oracle : nat -> response A) :
  (forall t t', oracle t = oracle t') ->
  stateless (t ← now; _ ← emit req; of_response (oracle t)).
Proof.
  intros Hs. exists (match oracle 0%nat with Success b => Ok b | Failure => Exc HTTPError end),
    [req].
  intros w. unfold_monad. simpl. rewrite (Hs (length (trace w)) 0%nat).
  destruct (oracle 0%nat); reflexivity.
Qed.

Lemma stateless_build_doc E payload : steady E -> stateless (build_doc E payload).
Proof.
  intros (Hmeta & Htext & _). unfold build_doc, stat, compute_sha256.
  apply stateless_bind.
  { destruct (lookup_path _ _) as [[? ? ?|?]|]; auto using stateless_ret, stateless_raise. }
  intros [size mtime].
  apply stateless_bind.
  { apply stateless_bind; [apply stateless_read_bytes|]. intros. apply stateless_ret. }
  intros sha. apply stateless_bind; [|intros; apply stateless_ret].
  unfold extract_or_default. apply stateless_try; [|intros; apply stateless_ret].
  destruct (_ <=? _)%Z; [|apply stateless_ret].
  apply stateless_retry_from. unfold tika_extract_text_once.
  apply stateless_bind.
  { unfold tika_put_meta. apply stateless_bind; [apply stateless_read_bytes|].
    intros data. apply (stateless_request _ (fun t => tika_meta E t data)).
    intros. apply Hmeta. }
  intros md. apply stateless_bind; [|intros; apply stateless_ret].
  unfold tika_put_text. apply stateless_bind; [apply stateless_read_bytes|].
  intros data. apply (stateless_request _ (fun t => tika_text E t data)).
  intros. apply Htext.
Qed.

(** With a steady index, an upsert has one outcome, the same in every
    world: the record is put under its identifier, or nothing changes. *)
Lemma steady_index_document E doc remaining :
  steady E ->
  forall k, exists (r : result unit),
    forall w,
      index (snd (retry_from (wait_exponential 1 1 8) remaining k
                    (index_document_once E doc) w))
        = match r with
          | Ok _ => <[doc_id_of doc := doc]> (index w)
          | Exc _ => index w
          end /\
      fst (retry_from (wait_exponential 1 1 8) remaining k
             (index_document_once E doc) w) = r.
Proof.
  intros (_ & _ & Hput).
  assert (Honce : forall w,
             index_document_once E doc w =
               match opensearch_put E 0%nat (doc_id_of doc) doc with
               | Success _ =>
                   (Ok tt, {| index := <[doc_id_of doc := doc]> (index w);
                              trace := trace w ++ [IndexPutRequest (doc_id_of doc)] |})
               | Failure =>
                   (Exc HTTPError,
                    {| index := index w;
                       trace := trace w ++ [IndexPutRequest (doc_id_of doc)] |})
               end).
  { intros w. rewrite index_document_once_eq.
    rewrite (Hput (length (trace w)) 0%nat). reflexivity. }
  induction remaining as [|n IH]; intros k.
  - destruct (opensearch_put E 0%nat (doc_id_of doc) doc) as [[]|] eqn:Ho.
    + exists (Ok tt). intros w. simpl. unfold try_except. rewrite Honce. auto.
    + exists (Exc (RetryError HTTPError)). intros w. simpl. unfold try_except.
      rewrite Honce. auto.
  - destruct (opensearch_put E 0%nat (doc_id_of doc) doc) as [[]|] eqn:Ho.
    + exists (Ok tt). intros w. simpl. unfold try_except. rewrite Honce. auto.
    + destruct (IH (S k)) as (r & Hr). exists r. intros w. simpl.
      unfold try_except. rewrite Honce. unfold_monad. simpl.
      apply (Hr {| index := index w;
                   trace := (trace w ++ [IndexPutRequest (doc_id_of doc)])
                            ++ [Sleep (wait_exponential 1 1 8 k)] |}).
Qed.

(** With steady services, the two calls for a payload have one result and
    act on the index as one fixed upsert, or as nothing; the upsert is
    under the digest of the file and its record bears the path of the
    payload. *)
Lemma steady_build_and_index E payload :
  steady E ->
  exists o r,
    (forall w, index (snd (build_and_index E payload w)) = upsert o (index w) /\
               fst (build_and_index E payload w) = r) /\
    (forall id doc,
        o = Some (id, doc) ->
        exists data mtime,
          lookup_path (fs E) (p_path payload) = Some (File data mtime true) /\
          id = sha256_hexdigest E data).
Proof.
  intros Hs. destruct (stateless_build_doc E payload Hs) as (r & evs & Hb).
  destruct r as [doc|e].
  - destruct (steady_index_document E doc 4 Hs 1%nat) as (r2 & Hi).
    destruct r2 as [[]|e].
    + exists (Some (doc_id_of doc, doc)), (Ok tt). split.
      * intros w. unfold build_and_index, mbind, M_bind. rewrite Hb.
        apply (Hi {| index := index w; trace := trace w ++ evs |}).
      * intros id doc' Heq. inversion Heq; subst id doc'.
        pose proof (Hb {| index := ∅; trace := [] |}) as Hb0.
        apply build_doc_Ok in Hb0 as (data & mtime & meta & Hlk & _ & ->).
        exists data, mtime. split; [exact Hlk|]. apply doc_id_of_record.
    + exists None, (Exc e). split; [|discriminate].
      intros w. unfold build_and_index, mbind, M_bind. rewrite Hb.
      apply (Hi {| index := index w; trace := trace w ++ evs |}).
  - exists None, (Exc e). split; [|discriminate].
    intros w. unfold build_and_index, mbind, M_bind. rewrite Hb. auto.
Qed.

(** What [print] returns does not depend on the world. *)
Lemma print_result E line w :
  fst (print E line w) =
    if stdout_accepts E line then Ok tt else Exc UnicodeEncodeError.
Proof. rewrite print_eq. destruct (stdout_accepts E line); reflexivity. Qed.

Lemma watch_finish_result E f rw rw' :
  fst rw = fst rw' -> fst (watch_finish E f rw) = fst (watch_finish E f rw').
Proof.
  intros H. unfold watch_finish, try_except. rewrite <- H.
  destruct (fst rw) as [[]|e]; rewrite ?(print_eq E _ (snd rw)), ?(print_eq E _ (snd rw')).
  - destruct (stdout_accepts E (LogIndexed f)); [reflexivity|].
    rewrite !print_result. reflexivity.
  - destruct (stdout_accepts E (LogIndexError f e)); reflexivity.
Qed.

Lemma main_step_result E total payload w w' :
  fst (build_and_index E payload w) = fst (build_and_index E payload w') ->
  fst (main_step E total payload w) = fst (main_step E total payload w').
Proof.
  intros H. rewrite !main_step_eq.
  destruct (build_and_index E payload w) as [r w1],
           (build_and_index E payload w') as [r' w1'].
  simpl in H. subst r'. destruct r as [[]|e].
  - destruct (_ || _); [|reflexivity]. rewrite !print_eq.
    destruct (stdout_accepts E (LogProgress _ _)); [reflexivity|].
    rewrite !print_eq. destruct (stdout_accepts E (LogBatchError _ _)); reflexivity.
  - rewrite !print_eq. destruct (stdout_accepts E (LogBatchError _ _)); reflexivity.
Qed.

(** The checks of [index_path] do not read the world. *)
Lemma index_path_decide E f :
  (forall w, index_path E f w = (Ok tt, w)) \/
  (forall w, index_path E f w = (Exc (OSError f), w)) \/
  exists l1 l2,
    is_file (fs E) f = true /\
    forall w, index_path E f w =
              watch_finish E f (build_and_index E (watch_payload f l1 l2) w).
Proof.
  destruct (lookup_path (fs E) f) as [[data mtime readable|es]|] eqn:Hlk.
  - assert (Hfile : is_file (fs E) f = true) by (unfold is_file; rewrite Hlk; reflexivity).
    destruct (bool_decide (lower (suffix f) ∉ ALLOW_EXTS)) eqn:Hext.
    + left. intros w. rewrite (index_path_file E f data mtime readable w Hlk), Hext.
      reflexivity.
    + destruct (derive_levels E f) as [[l1 l2]|] eqn:Hd.
      * right. right. exists l1, l2. split; [exact Hfile|]. intros w.
        rewrite (index_path_file E f data mtime readable w Hlk), Hext, Hd.
        apply try_build_and_index.
      * left. intros w.
        rewrite (index_path_file E f data mtime readable w Hlk), Hext, Hd.
        reflexivity.
  - left. intros w.
    rewrite index_path_not_file by (unfold is_file; rewrite Hlk; reflexivity).
    unfold exists_. rewrite Hlk. reflexivity.
  - destruct (stat_fails E f) eqn:Hst; [right|]; left; intros w;
      rewrite index_path_not_file by (unfold is_file; rewrite Hlk; reflexivity);
      unfold exists_; rewrite Hlk, Hst; reflexivity.
Qed.

Lemma steady_index_path E f :
  steady E ->
  exists o r,
    (forall w, index (snd (index_path E f w)) = upsert o (index w) /\
               fst (index_path E f w) = r) /\
    (forall id doc,
        o = Some (id, doc) ->
        exists data mtime,
          lookup_path (fs E) f = Some (File data mtime true) /\
          id = sha256_hexdigest E data).
Proof.
  intros Hs.
  destruct (index_path_decide E f) as [Hno|[Hno|(l1 & l2 & Hfile & Hyes)]].
  - exists None, (Ok tt). split; [|discriminate]. intros w. rewrite Hno. auto.
  - exists None, (Exc (OSError f)). split; [|discriminate]. intros w. rewrite Hno. auto.
  - destruct (steady_build_and_index E (watch_payload f l1 l2) Hs) as (o & r & Ho & Hid).
    exists o, (fst (watch_finish E f (r, Demo.world0))).
    split; [|exact Hid]. intros w. rewrite Hyes.
    rewrite (proj1 (watch_finish_world E f _)). split; [apply Ho|].
    apply watch_finish_result. apply Ho.
Qed.

Lemma lookup_upserts os :
  forall idx k,
    upserts os idx !! k =
      match last_upsert os k with
      | Some doc => Some doc
      | None => idx !! k
      end.
Proof.
  induction os as [|o rest IH]; intros idx k; simpl; [reflexivity|].
  rewrite IH. destruct (last_upsert rest k); [reflexivity|].
  destruct o as [[id doc]|]; simpl; [|reflexivity].
  destruct (decide (id = k)) as [->|Hne].
  - apply lookup_insert_eq.
  - apply lookup_insert_ne. exact Hne.
Qed.

Lemma upserts_idempotent os idx : upserts os (upserts os idx) = upserts os idx.
Proof.
  apply map_eq. intros k. rewrite !lookup_upserts.
  destruct (last_upsert os k); reflexivity.
Qed.

Lemma steady_main_step E total payload :
  steady E ->
  exists o r,
    forall w, index (snd (main_step E total payload w)) = upsert o (index w) /\
              fst (main_step E total payload w) = r.
Proof.
  intros Hs. destruct (steady_build_and_index E payload Hs) as (o & r & Ho & _).
  exists o, (fst (main_step E total payload Demo.world0)). intros w.
  rewrite main_step_index. split; [apply Ho|].
  apply main_step_result. rewrite (proj2 (Ho w)), (proj2 (Ho Demo.world0)). reflexivity.
Qed.

Lemma steady_main_loop E payloads :
  steady E ->
  forall total, exists os, forall w,
    index (snd (main_loop E total payloads w)) = upserts os (index w).
Proof.
  intros Hs. induction payloads as [|payload rest IH]; intros total.
  - exists []. intros w. reflexivity.
  - destruct (steady_main_step E total payload Hs) as (o & r & Ho).
    destruct r as [t1|e].
    + destruct (IH t1) as (os & Hos). exists (o :: os). intros w.
      simpl. unfold mbind, M_bind. destruct (Ho w) as [Hi Hr].
      destruct (main_step E total payload w) as [r1 w1]. simpl in Hi, Hr. subst r1.
      rewrite Hos, Hi. reflexivity.
    + exists [o]. intros w.
      simpl. unfold mbind, M_bind. destruct (Ho w) as [Hi Hr].
      destruct (main_step E total payload w) as [r1 w1]. simpl in Hi, Hr. subst r1.
      exact Hi.
Qed.

Lemma steady_handle E ev :
  steady E ->
  exists o r,
    (forall w, index (snd (handle E ev w)) = upsert o (index w) /\
               fst (handle E ev w) = r) /\
    (forall id doc,
        o = Some (id, doc) ->
        is_directory ev = false /\
        exists data mtime,
          lookup_path (fs E) (src_path ev) = Some (File data mtime true) /\
          id = sha256_hexdigest E data).
Proof.
  intros Hs. destruct (steady_index_path E (src_path ev) Hs) as (o & r & Ho & Hid).
  destruct (is_directory ev) eqn:Hd.
  { exists None, (Ok tt). split; [|discriminate].
    intros w. rewrite handle_eq, Hd. auto. }
  destruct (ev_type ev) eqn:Ht.
  1, 2: exists o, r; split;
    [intros w; rewrite handle_eq, Hd, Ht; apply Ho
    |intros id doc Heq; split; [reflexivity|eapply Hid; exact Heq]].
  all: exists None, (Ok tt); split; [|discriminate];
    intros w; rewrite handle_eq, Hd, Ht; auto.
Qed.

Lemma steady_dispatch E events :
  steady E ->
  exists os, forall w,
    index (snd (dispatch E events w)) = upserts os (index w).
Proof.
  intros Hs. induction events as [|ev rest (os & IH)].
  - exists []. intros w. reflexivity.
  - destruct (steady_handle E ev Hs) as (o & r & Ho & _).
    destruct r as [[]|e].
    + exists (o :: os). intros w. rewrite dispatch_step. destruct (Ho w) as [Hi Hr].
      destruct (handle E ev w) as [r1 w1]. simpl in Hi, Hr. subst r1.
      rewrite IH, Hi. reflexivity.
    + exists [o]. intros w. rewrite dispatch_step. destruct (Ho w) as [Hi Hr].
      destruct (handle E ev w) as [r1 w1]. simpl in Hi, Hr. subst r1. exact Hi.
Qed.

(** X10.  Idempotence.  With services whose answers do not depend on the
    instant, running the initial pass a second time, or handing the same
    sequence of events to the watcher a second time, leaves the index
    exactly as the first run left it. *)
Theorem X10_repeating_changes_nothing (E : Env) (w : World) :
  steady E ->
  index (snd (main_initial E (snd (main_initial E w))))
    = index (snd (main_initial E w)) /\
  (forall events,
      index (snd (dispatch E events (snd (dispatch E events w))))
        = index (snd (dispatch E events w))).
Proof.
  intros Hs. split.
  - assert (H : exists os, forall w,
                 index (snd (main_initial E w)) = upserts os (index w)).
    { destruct (iter_documents E) as [payloads|e] eqn:Hit.
      - destruct (steady_main_loop E payloads Hs 0) as (os & Hos). exists os.
        intros w0. rewrite main_initial_index, Hit. apply Hos.
      - exists []. intros w0. rewrite main_initial_index, Hit. reflexivity. }
    destruct H as (os & Hos). rewrite !Hos. apply upserts_idempotent.
  - intros events. destruct (steady_dispatch E events Hs) as (os & Hos).
    rewrite !Hos. apply upserts_idempotent.
Qed.

Lemma X10_witness :
  let E := Demo.env Demo.config true true in
  index (snd (main_initial E (snd (main_initial E Demo.world0))))
    = index (snd (main_initial E Demo.world0)) /\
  size (index (snd (main_initial E Demo.world0))) = 2%nat.
Proof.
  intros E.
  assert (Hs : steady E) by (repeat split; reflexivity).
  split.
  - exact (proj1 (X10_repeating_changes_nothing E Demo.world0 Hs)).
  - vm_compute. reflexivity.
Defined.

(** X12.  Order.  With steady services and a standard output that encodes
    every line (an exception that leaves the handler ends the dispatch),
    two events for files whose digests differ leave the same index in
    either order. *)
Theorem X12_events_commute
    (E : Env) (f1 f2 : Path) (data1 data2 : list byte) (mtime1 mtime2 : Z)
    (readable1 readable2 : bool) (w : World) :
  steady E ->
  stdout_accepts_all E ->
  lookup_path (fs E) f1 = Some (File data1 mtime1 readable1) ->
  lookup_path (fs E) f2 = Some (File data2 mtime2 readable2) ->
  sha256_hexdigest E data1 <> sha256_hexdigest E data2 ->
  index (snd (dispatch E [modified f1; modified f2] w))
    = index (snd (dispatch E [modified f2; modified f1] w)).
Proof.
  intros Hs Hout Hl1 Hl2 Hne.
  destruct (steady_index_path E f1 Hs) as (o1 & r1 & Ho1 & Hid1).
  destruct (steady_index_path E f2 Hs) as (o2 & r2 & Ho2 & Hid2).
  assert (Hok : forall f data mtime readable w',
             lookup_path (fs E) f = Some (File data mtime readable) ->
             fst (index_path E f w') = Ok tt).
  { intros f data mtime readable w' Hlk.
    destruct (index_path_result E f w') as [H|[H|(_ & H & _)]];
      [exact H| |rewrite Hlk in H; discriminate].
    destruct (index_path_cases E f w') as [H'|[H'|(l1 & l2 & _ & _ & _ & H')]];
      rewrite H' in *; try discriminate.
    rewrite watch_finish_accepted in H by exact Hout. discriminate. }
  assert (Hstep : forall f data mtime readable rest w',
             lookup_path (fs E) f = Some (File data mtime readable) ->
             dispatch E (modified f :: rest) w' =
               dispatch E rest (snd (index_path E f w'))).
  { intros f data mtime readable rest w' Hlk. rewrite dispatch_step, handle_eq. simpl.
    pose proof (Hok f data mtime readable w' Hlk) as H.
    destruct (index_path E f w') as [[[]|e] w1]; simpl in H; [reflexivity|discriminate]. }
  rewrite (Hstep f1 _ _ _ _ _ Hl1), (Hstep f2 _ _ _ _ _ Hl2).
  rewrite (Hstep f2 _ _ _ _ _ Hl2), (Hstep f1 _ _ _ _ _ Hl1). simpl.
  rewrite (proj1 (Ho2 _)), (proj1 (Ho1 _)), (proj1 (Ho1 _)), (proj1 (Ho2 _)).
  destruct o1 as [[id1 doc1]|], o2 as [[id2 doc2]|]; simpl; try reflexivity.
  destruct (Hid1 _ _ eq_refl) as (d1 & m1 & Hl1' & ->).
  destruct (Hid2 _ _ eq_refl) as (d2 & m2 & Hl2' & ->).
  rewrite Hl1 in Hl1'. rewrite Hl2 in Hl2'.
  inversion Hl1'; inversion Hl2'; subst.
  apply insert_insert_ne. auto.
Qed.

Lemma X12_witness :
  let E := Demo.env Demo.config true true in
  index (snd (dispatch E [modified Demo.report; modified Demo.sheet] Demo.world0))
    = index (snd (dispatch E [modified Demo.sheet; modified Demo.report] Demo.world0)).
Proof.
  intros E.
  apply (X12_events_commute E Demo.report Demo.sheet Demo.abc [x78; x79]%byte
           0 0 true true Demo.world0).
  - repeat split; reflexivity.
  - intros line. reflexivity.
  - reflexivity.
  - reflexivity.
  - vm_compute. discriminate.
Defined.

(** Where a line cannot be printed the order matters: the handler raises
    on the file whose name standard output cannot encode, once its record
    is stored, and the events that come after it are not handled. *)
Example order_matters_when_a_line_is_refused :
  let E := Strict.installation true in
  steady E /\
  sha256_hexdigest E [x62]%byte <> sha256_hexdigest E [x6e]%byte /\
  size (index (snd (dispatch E [modified Strict.bad; modified Strict.next]
                      Demo.world0))) = 1%nat /\
  size (index (snd (dispatch E [modified Strict.next; modified Strict.bad]
                      Demo.world0))) = 2%nat.
Proof.
  intros E. split; [repeat split; reflexivity|].
  split; [vm_compute; discriminate|].
  split; vm_compute; reflexivity.
Qed.

(** ** The disk scan counts what the batch pass yields *)

Lemma get0_insert (d : gmap string Z) k v l :
  Api.get0 (<[k := v]> d) l = if String.eqb k l then v else Api.get0 d l.
Proof.
  unfold Api.get0. destruct (String.eqb k l) eqn:Hkl.
  - apply String.eqb_eq in Hkl. subst. rewrite lookup_insert_eq. reflexivity.
  - apply String.eqb_neq in Hkl. rewrite lookup_insert_ne by assumption. reflexivity.
Qed.

Lemma get0_nonneg d l : positive_counts d -> 0 <= Api.get0 d l.
Proof.
  intros Hp. unfold Api.get0. destruct (d !! l) as [v|] eqn:Hl; simpl; [|lia].
  apply Hp in Hl. lia.
Qed.

Lemma positive_insert d k v : positive_counts d -> 0 < v -> positive_counts (<[k := v]> d).
Proof.
  intros Hp Hv l x Hl. destruct (decide (k = l)) as [->|Hne].
  - rewrite lookup_insert_eq in Hl. inversion Hl; subst. exact Hv.
  - rewrite lookup_insert_ne in Hl by assumption. eapply Hp. exact Hl.
Qed.

Lemma count_level1_app l a b :
  count_level1 l (a ++ b) = count_level1 l a + count_level1 l b.
Proof. unfold count_level1. rewrite List.filter_app, length_app. lia. Qed.

Lemma count_level2_app l a b :
  count_level2 l (a ++ b) = count_level2 l a + count_level2 l b.
Proof. unfold count_level2. rewrite List.filter_app, length_app. lia. Qed.

(** The payloads of one entry: none or one, with the given categories. *)
Lemma candidate_counts l1 l2 dir entry l :
  (candidate l1 l2 dir entry = [] \/ length (candidate l1 l2 dir entry) = 1%nat) /\
  count_level1 l (candidate l1 l2 dir entry) =
    (if String.eqb l1 l then Z.of_nat (length (candidate l1 l2 dir entry)) else 0) /\
  count_level2 l (candidate l1 l2 dir entry) =
    (if String.eqb l2 l then Z.of_nat (length (candidate l1 l2 dir entry)) else 0).
Proof.
  destruct entry as [fp n]. unfold candidate, count_level1, count_level2.
  destruct (negb (node_is_file n)); [destruct (l1 =? l)%string, (l2 =? l)%string; auto|].
  destruct (_ || _); [destruct (l1 =? l)%string, (l2 =? l)%string; auto|].
  destruct (bool_decide _); [destruct (l1 =? l)%string, (l2 =? l)%string; auto|].
  simpl. destruct (l1 =? l)%string, (l2 =? l)%string; auto.
Qed.

(** One entry of [rglob] in the scan: counted when the batch pass yields a
    payload for it. *)
Lemma scan_file_step l1 l2 dir stats t c entry :
  Api.scan_file l2 (stats, t, c) entry =
    match candidate l1 l2 dir entry with
    | [] => (stats, t, c)
    | _ =>
        ({| Api.ds_root := Api.ds_root stats;
            Api.ds_total := Api.ds_total stats + 1;
            Api.ds_by_level1 := Api.ds_by_level1 stats;
            Api.ds_by_level2 :=
              <[l2 := Api.get0 (Api.ds_by_level2 stats) l2 + 1]> (Api.ds_by_level2 stats);
            Api.ds_by_level1_level2 := Api.ds_by_level1_level2 stats |},
         t + 1, c + 1)
    end.
Proof.
  destruct entry as [fp n]. unfold Api.scan_file, candidate.
  change (Api._is_hidden fp) with (is_hidden fp).
  change Api.ALLOW_EXTS with ALLOW_EXTS.
  destruct (negb (node_is_file n)); [reflexivity|]. simpl.
  destruct (is_hidden fp || startswith (name fp) "~$"); [reflexivity|].
  destruct (bool_decide _); reflexivity.
Qed.

Lemma scan_files l1 l2 dir entries :
  forall stats t c,
    positive_counts (Api.ds_by_level2 stats) ->
    exists stats',
      foldl (Api.scan_file l2) (stats, t, c) entries =
        (stats', t + Z.of_nat (length (flat_map (candidate l1 l2 dir) entries)),
         c + Z.of_nat (length (flat_map (candidate l1 l2 dir) entries))) /\
      Api.ds_total stats' =
        Api.ds_total stats + Z.of_nat (length (flat_map (candidate l1 l2 dir) entries)) /\
      Api.ds_by_level1 stats' = Api.ds_by_level1 stats /\
      positive_counts (Api.ds_by_level2 stats') /\
      forall l,
        Api.get0 (Api.ds_by_level2 stats') l =
          Api.get0 (Api.ds_by_level2 stats) l +
          (if String.eqb l2 l
           then Z.of_nat (length (flat_map (candidate l1 l2 dir) entries)) else 0).
Proof.
  induction entries as [|entry rest IH]; intros stats t c Hpos.
  - exists stats. cbn [foldl flat_map length]. rewrite !Z.add_0_r.
    repeat split; try assumption. intros l. destruct (_ =? _)%string; lia.
  - cbn [foldl flat_map]. rewrite (scan_file_step l1 l2 dir), length_app, Nat2Z.inj_add.
    destruct (candidate_counts l1 l2 dir entry "") as ([Hnil|Hone] & _).
    + rewrite Hnil. cbn [length]. destruct (IH stats t c Hpos) as (s' & Hf & Htot & H1 & Hp & H2).
      exists s'. rewrite Hf. repeat split; try assumption; try (f_equal; lia).
    + destruct (candidate l1 l2 dir entry) as [|p [|p' ps]]; try discriminate.
      cbn [length].
      match goal with |- context [foldl _ (?s, _, _) rest] =>
        destruct (IH s (t + 1) (c + 1)) as (s' & Hf & Htot & H1 & Hp & H2) end.
      { cbn [Api.ds_by_level2]. apply positive_insert; [exact Hpos|].
        pose proof (get0_nonneg _ l2 Hpos). lia. }
      cbn [Api.ds_total Api.ds_by_level1 Api.ds_by_level2] in Htot, H1, H2.
      exists s'. rewrite Hf. split; [f_equal; [f_equal|]; lia|].
      split; [lia|]. split; [exact H1|]. split; [exact Hp|].
      intros l. rewrite H2, get0_insert.
      destruct (l2 =? l)%string eqn:Hl; [|lia].
      apply String.eqb_eq in Hl. subst l. lia.
Qed.

Lemma candidates_counts l1 l2 dir entries l :
  count_level1 l (flat_map (candidate l1 l2 dir) entries) =
    (if String.eqb l1 l
     then Z.of_nat (length (flat_map (candidate l1 l2 dir) entries)) else 0) /\
  count_level2 l (flat_map (candidate l1 l2 dir) entries) =
    (if String.eqb l2 l
     then Z.of_nat (length (flat_map (candidate l1 l2 dir) entries)) else 0).
Proof.
  induction entries as [|entry rest [IH1 IH2]]; simpl.
  - destruct (l1 =? l)%string, (l2 =? l)%string; auto.
  - rewrite count_level1_app, count_level2_app, length_app, IH1, IH2.
    destruct (candidate_counts l1 l2 dir entry l) as (_ & -> & ->).
    destruct (l1 =? l)%string, (l2 =? l)%string; split; lia.
Qed.

Section Unfiltered.

Variable E : Env.
Hypothesis no_filter1 : FILTER_LEVEL1 (cfg E) = ∅.
Hypothesis no_filter2 : FILTER_LEVEL2 (cfg E) = ∅.

Lemma level2_candidates_unfiltered l1 dir n :
  level2_candidates E l1 (dir, n) =
    if negb (node_is_dir n) || is_hidden dir then []
    else flat_map (candidate l1 (name dir) dir) (rglob dir n).
Proof.
  unfold level2_candidates. destruct (_ || _); [reflexivity|].
  rewrite no_filter2.
  rewrite (bool_decide_eq_false_2 (∅ ≠ ∅)) by (intros H; apply H; reflexivity).
  reflexivity.
Qed.

Lemma level1_candidates_unfiltered dir n :
  level1_candidates E (dir, n) =
    if negb (node_is_dir n) || is_hidden dir then []
    else match n with
         | Dir es => flat_map (level2_candidates E (name dir)) (children dir es)
         | File _ _ _ => []
         end.
Proof.
  unfold level1_candidates. destruct (_ || _); [reflexivity|].
  rewrite no_filter1.
  rewrite (bool_decide_eq_false_2 (∅ ≠ ∅)) by (intros H; apply H; reflexivity).
  reflexivity.
Qed.

Lemma level2_counts l1 entries l :
  count_level1 l (flat_map (level2_candidates E l1) entries) =
    if String.eqb l1 l
    then Z.of_nat (length (flat_map (level2_candidates E l1) entries)) else 0.
Proof.
  induction entries as [|[dir n] rest IH]; cbn [flat_map].
  - destruct (l1 =? l)%string; reflexivity.
  - rewrite count_level1_app, length_app, IH, level2_candidates_unfiltered.
    destruct (_ || _).
    + cbn [length]. destruct (l1 =? l)%string; reflexivity.
    + rewrite (proj1 (candidates_counts l1 (name dir) dir (rglob dir n) l)).
      destruct (l1 =? l)%string; lia.
Qed.

Lemma scan_level2_step l1 dir n stats t :
  positive_counts (Api.ds_by_level2 stats) ->
  exists stats',
    Api.scan_level2 l1 (stats, t) (dir, n) =
      (stats', t + Z.of_nat (length (level2_candidates E l1 (dir, n)))) /\
    Api.ds_total stats' =
      Api.ds_total stats + Z.of_nat (length (level2_candidates E l1 (dir, n))) /\
    Api.ds_by_level1 stats' = Api.ds_by_level1 stats /\
    positive_counts (Api.ds_by_level2 stats') /\
    forall l,
      Api.get0 (Api.ds_by_level2 stats') l =
        Api.get0 (Api.ds_by_level2 stats) l +
        count_level2 l (level2_candidates E l1 (dir, n)).
Proof.
  intros Hpos. rewrite level2_candidates_unfiltered.
  unfold Api.scan_level2. change (Api._is_hidden dir) with (is_hidden dir).
  destruct (negb (node_is_dir n) || is_hidden dir).
  - exists stats. cbn [length]. rewrite !Z.add_0_r.
    repeat split; try assumption. intros l. unfold count_level2. simpl. lia.
  - destruct (scan_files l1 (name dir) dir (rglob dir n) stats t 0 Hpos)
      as (s' & Hf & Htot & H1 & Hp & H2).
    rewrite Hf.
    set (K := Z.of_nat (length (flat_map (candidate l1 (name dir) dir) (rglob dir n)))) in *.
    assert (Hl2 : forall l,
               Api.get0 (Api.ds_by_level2 s') l =
                 Api.get0 (Api.ds_by_level2 stats) l +
                 count_level2 l (flat_map (candidate l1 (name dir) dir) (rglob dir n))).
    { intros l. rewrite H2.
      rewrite (proj2 (candidates_counts l1 (name dir) dir (rglob dir n) l)).
      reflexivity. }
    destruct (0 + K =? 0)%Z; eexists; (split; [reflexivity|]);
      cbn [Api.ds_total Api.ds_by_level1 Api.ds_by_level2]; auto.
Qed.

Lemma scan_level2s l1 entries :
  forall stats t,
    positive_counts (Api.ds_by_level2 stats) ->
    exists stats',
      foldl (Api.scan_level2 l1) (stats, t) entries =
        (stats', t + Z.of_nat (length (flat_map (level2_candidates E l1) entries))) /\
      Api.ds_total stats' =
        Api.ds_total stats +
        Z.of_nat (length (flat_map (level2_candidates E l1) entries)) /\
      Api.ds_by_level1 stats' = Api.ds_by_level1 stats /\
      positive_counts (Api.ds_by_level2 stats') /\
      forall l,
        Api.get0 (Api.ds_by_level2 stats') l =
          Api.get0 (Api.ds_by_level2 stats) l +
          count_level2 l (flat_map (level2_candidates E l1) entries).
Proof.
  induction entries as [|[dir n] rest IH]; intros stats t Hpos.
  - exists stats. cbn [foldl flat_map length]. rewrite !Z.add_0_r.
    repeat split; try assumption. intros l. unfold count_level2. simpl. lia.
  - cbn [foldl flat_map].
    destruct (scan_level2_step l1 dir n stats t Hpos) as (s1 & Hs & Htot & H1 & Hp & H2).
    rewrite Hs.
    destruct (IH s1 (t + Z.of_nat (length (level2_candidates E l1 (dir, n)))) Hp)
      as (s2 & Hf & Htot' & H1' & Hp' & H2').
    exists s2. rewrite Hf, length_app, Nat2Z.inj_add.
    split; [f_equal; lia|]. split; [lia|]. split; [congruence|].
    split; [exact Hp'|].
    intros l. rewrite H2', H2, count_level2_app. lia.
Qed.

Lemma scan_level1_step dir n stats :
  positive_counts (Api.ds_by_level1 stats) ->
  positive_counts (Api.ds_by_level2 stats) ->
  Api.ds_total (Api.scan_level1 stats (dir, n)) =
    Api.ds_total stats + Z.of_nat (length (level1_candidates E (dir, n))) /\
  positive_counts (Api.ds_by_level1 (Api.scan_level1 stats (dir, n))) /\
  positive_counts (Api.ds_by_level2 (Api.scan_level1 stats (dir, n))) /\
  forall l,
    Api.get0 (Api.ds_by_level1 (Api.scan_level1 stats (dir, n))) l =
      Api.get0 (Api.ds_by_level1 stats) l +
      count_level1 l (level1_candidates E (dir, n)) /\
    Api.get0 (Api.ds_by_level2 (Api.scan_level1 stats (dir, n))) l =
      Api.get0 (Api.ds_by_level2 stats) l +
      count_level2 l (level1_candidates E (dir, n)).
Proof.
  intros Hp1 Hp2. rewrite level1_candidates_unfiltered.
  unfold Api.scan_level1. change (Api._is_hidden dir) with (is_hidden dir).
  assert (Hnone : Api.ds_total stats = Api.ds_total stats + Z.of_nat (length (@nil Payload)) /\
                  positive_counts (Api.ds_by_level1 stats) /\
                  positive_counts (Api.ds_by_level2 stats) /\
                  forall l,
                    Api.get0 (Api.ds_by_level1 stats) l =
                      Api.get0 (Api.ds_by_level1 stats) l + count_level1 l [] /\
                    Api.get0 (Api.ds_by_level2 stats) l =
                      Api.get0 (Api.ds_by_level2 stats) l + count_level2 l []).
  { cbn [length]. unfold count_level1, count_level2. simpl.
    repeat split; try assumption; lia. }
  destruct (negb (node_is_dir n) || is_hidden dir); [exact Hnone|].
  destruct n as [data mtime readable|es]; [exact Hnone|]. clear Hnone.
  destruct (scan_level2s (name dir) (children dir es) stats 0 Hp2)
    as (s' & Hf & Htot & H1 & Hp & H2).
  rewrite Hf.
  set (cands := flat_map (level2_candidates E (name dir)) (children dir es)) in *.
  destruct (0 + Z.of_nat (length cands) =? 0)%Z eqn:H0.
  - apply Z.eqb_eq in H0.
    split; [lia|]. split; [rewrite H1; exact Hp1|]. split; [exact Hp|].
    intros l. split; [|apply H2].
    rewrite H1. unfold cands at 1. rewrite level2_counts. fold cands.
    destruct (_ =? _)%string; lia.
  - apply Z.eqb_neq in H0. cbn [Api.ds_total Api.ds_by_level1 Api.ds_by_level2].
    split; [lia|]. split.
    { apply positive_insert; [rewrite H1; exact Hp1|].
      rewrite H1. pose proof (get0_nonneg _ (name dir) Hp1). lia. }
    split; [exact Hp|].
    intros l. split; [|apply H2].
    rewrite get0_insert, H1. unfold cands at 2. rewrite level2_counts. fold cands.
    destruct (name dir =? l)%string eqn:Hl; [|lia].
    apply String.eqb_eq in Hl. subst l. lia.
Qed.

Lemma scan_level1s entries :
  forall stats,
    positive_counts (Api.ds_by_level1 stats) ->
    positive_counts (Api.ds_by_level2 stats) ->
    Api.ds_total (foldl Api.scan_level1 stats entries) =
      Api.ds_total stats + Z.of_nat (length (flat_map (level1_candidates E) entries)) /\
    positive_counts (Api.ds_by_level1 (foldl Api.scan_level1 stats entries)) /\
    positive_counts (Api.ds_by_level2 (foldl Api.scan_level1 stats entries)) /\
    forall l,
      Api.get0 (Api.ds_by_level1 (foldl Api.scan_level1 stats entries)) l =
        Api.get0 (Api.ds_by_level1 stats) l +
        count_level1 l (flat_map (level1_candidates E) entries) /\
      Api.get0 (Api.ds_by_level2 (foldl Api.scan_level1 stats entries)) l =
        Api.get0 (Api.ds_by_level2 stats) l +
        count_level2 l (flat_map (level1_candidates E) entries).
Proof.
  induction entries as [|[dir n] rest IH]; intros stats Hp1 Hp2.
  - cbn [foldl flat_map length]. unfold count_level1, count_level2. simpl.
    repeat split; try assumption; lia.
  - cbn [foldl flat_map].
    destruct (scan_level1_step dir n stats Hp1 Hp2) as (Htot & Hq1 & Hq2 & Hl).
    destruct (IH _ Hq1 Hq2) as (Htot' & Hr1 & Hr2 & Hl').
    rewrite length_app, Nat2Z.inj_add.
    split; [lia|]. split; [exact Hr1|]. split; [exact Hr2|].
    intros l. destruct (Hl l) as [A1 A2]. destruct (Hl' l) as [B1 B2].
    rewrite count_level1_app, count_level2_app. split; lia.
Qed.

End Unfiltered.

(** X18.  The disk scan of the statistics endpoint and the batch pass see
    the same files: without allow-list and cap, over the same root, the
    scan's total is the number of payloads that [iter_documents] yields,
    its count for each category of either level is the number of payloads
    of that category, and a category has an entry exactly when it has a
    payload. *)
Theorem X18_scan_counts_what_batch_yields (E : Env) (payloads : list Payload) :
  FILTER_LEVEL1 (cfg E) = ∅ ->
  FILTER_LEVEL2 (cfg E) = ∅ ->
  MAX_DOCS (cfg E) = 0 ->
  iter_documents E = Ok payloads ->
  exists stats,
    Api._scan_disk_stats (fs E) (ROOT (cfg E)) = Api.Ok stats /\
    Api.ds_total stats = Z.of_nat (length payloads) /\
    forall l,
      Api.get0 (Api.ds_by_level1 stats) l = count_level1 l payloads /\
      Api.get0 (Api.ds_by_level2 stats) l = count_level2 l payloads /\
      (l ∈ dom (Api.ds_by_level1 stats) <-> 0 < count_level1 l payloads) /\
      (l ∈ dom (Api.ds_by_level2 stats) <-> 0 < count_level2 l payloads).
Proof.
  intros Hf1 Hf2 Hcap Hit. unfold Api._scan_disk_stats.
  unfold iter_documents in Hit.
  assert (Hempty : positive_counts ∅)
    by (intros l v H; rewrite lookup_empty in H; discriminate).
  destruct (lookup_path (fs E) (ROOT (cfg E))) as [[data mtime readable|es]|] eqn:Hlk;
    [discriminate| |].
  - rewrite capped_take, Hcap in Hit. simpl in Hit. inversion Hit; subst payloads.
    destruct (scan_level1s E Hf1 Hf2 (children (ROOT (cfg E)) es)
                (Api.empty_stats (ROOT (cfg E))) Hempty Hempty)
      as (Htot & Hp1 & Hp2 & Hl).
    eexists. split; [reflexivity|]. split; [rewrite Htot; simpl; lia|].
    intros l. destruct (Hl l) as [H1 H2]. simpl in H1, H2.
    unfold Api.get0 in H1 at 2. unfold Api.get0 in H2 at 2.
    rewrite lookup_empty in H1, H2. cbn [default] in H1, H2.
    rewrite Z.add_0_l in H1, H2.
    split; [exact H1|]. split; [exact H2|].
    split; rewrite elem_of_dom; [rewrite <- H1|rewrite <- H2]; unfold Api.get0.
    + split.
      * intros [v Hv]. rewrite Hv. simpl. eapply Hp1. exact Hv.
      * intros Hpos. destruct (_ !! l); [eauto|simpl in Hpos; lia].
    + split.
      * intros [v Hv]. rewrite Hv. simpl. eapply Hp2. exact Hv.
      * intros Hpos. destruct (_ !! l); [eauto|simpl in Hpos; lia].
  - destruct (stat_fails E (ROOT (cfg E))); [discriminate|].
    inversion Hit; subst payloads. eexists. split; [reflexivity|].
    split; [reflexivity|]. intros l. unfold count_level1, count_level2.
    cbn [Api.empty_stats Api.ds_by_level1 Api.ds_by_level2 List.filter length].
    unfold Api.get0. rewrite lookup_empty, dom_empty_L.
    split; [reflexivity|]. split; [reflexivity|].
    split; (split; [intros H; apply elem_of_empty in H; contradiction|simpl; lia]).
Qed.

Lemma X18_witness :
  exists stats,
    Api._scan_disk_stats Demo.tree Demo.root = Api.Ok stats /\
    Api.ds_total stats = 4 /\
    Api.get0 (Api.ds_by_level1 stats) "A" = 3 /\
    Api.get0 (Api.ds_by_level2 stats) "D" = 1 /\
    ("Z" ∈ dom (Api.ds_by_level1 stats) <-> 0 < 0).
Proof.
  destruct (iter_documents (Demo.env Demo.config true true)) as [payloads|e] eqn:Hit;
    [|vm_compute in Hit; discriminate].
  destruct (X18_scan_counts_what_batch_yields (Demo.env Demo.config true true)
              payloads eq_refl eq_refl eq_refl Hit) as (stats & Hs & Htot & Hl).
  exists stats. split; [exact Hs|].
  vm_compute in Hit. inversion Hit; subst payloads.
  split; [exact Htot|].
  split; [exact (proj1 (Hl "A"))|].
  split; [exact (proj1 (proj2 (Hl "D")))|].
  exact (proj1 (proj2 (proj2 (Hl "Z")))).
Defined.

(** ** Serving files *)

Lemma collapse_no_dotdot segments :
  forall done, ".." ∉ done -> ".." ∉ Api.collapse done segments.
Proof.
  induction segments as [|seg rest IH]; intros done Hd; simpl.
  - rewrite list_elem_of_In, <- in_rev, <- list_elem_of_In. exact Hd.
  - destruct (String.eqb seg "..") eqn:Hs.
    + apply IH. destruct done as [|d done']; simpl; [exact Hd|].
      intros Hin. apply Hd. right. exact Hin.
    + apply IH. apply String.eqb_neq in Hs.
      intros Hin. apply elem_of_cons in Hin as [Heq|Hin]; [|contradiction].
      apply Hs. symmetry. exact Heq.
Qed.

Lemma resolve_no_dotdot cwd path :
  ".." ∉ cwd -> ".." ∉ Api.resolve cwd path.
Proof.
  intros Hc. unfold Api.resolve, Api.parse_path.
  apply collapse_no_dotdot.
  destruct (startswith path "/"); [apply not_elem_of_nil|].
  rewrite list_elem_of_In, <- in_rev, <- list_elem_of_In. exact Hc.
Qed.

Lemma checked_path_Accepted E stat_fails cwd path p :
  Api.checked_path E stat_fails cwd path = Api.Accepted p ->
  p = Api.resolve cwd path /\
  Api.has_nul path = false /\
  (exists rel, p = Api.collapse [] (Api.DOC_ROOT E) ++ rel) /\
  is_file (Api.fs E) p = true.
Proof.
  unfold Api.checked_path, is_file. intros H.
  destruct (Api.has_nul path); [discriminate|].
  destruct (relative_to _ _) as [rel|] eqn:Hrel; [|discriminate].
  destruct (lookup_path _ _) as [n|] eqn:Hlk.
  - destruct (node_is_file n) eqn:Hn; [|discriminate].
    inversion H; subst p. rewrite Hlk. apply relative_to_Some in Hrel. eauto.
  - destruct (stat_fails _); discriminate.
Qed.

Lemma checked_path_Refused E stat_fails cwd path status_code :
  Api.checked_path E stat_fails cwd path = Api.Refused status_code ->
  (status_code = 403 /\
   (Api.has_nul path = true \/
    relative_to (Api.resolve cwd path) (Api.collapse [] (Api.DOC_ROOT E)) = None)) \/
  (status_code = 404 /\
   Api.has_nul path = false /\
   relative_to (Api.resolve cwd path) (Api.collapse [] (Api.DOC_ROOT E)) <> None /\
   is_file (Api.fs E) (Api.resolve cwd path) = false /\
   (lookup_path (Api.fs E) (Api.resolve cwd path) = None ->
    stat_fails (Api.resolve cwd path) = false)).
Proof.
  unfold Api.checked_path, is_file. intros H.
  destruct (Api.has_nul path); [inversion H; auto|].
  destruct (relative_to _ _) as [rel|] eqn:Hrel; [|inversion H; auto].
  right. destruct (lookup_path _ _) as [n|] eqn:Hlk.
  - destruct (node_is_file n) eqn:Hn; [discriminate|].
    inversion H. repeat split; try reflexivity; discriminate.
  - destruct (stat_fails _) eqn:Hs; [discriminate|].
    inversion H. repeat split; try reflexivity; discriminate.
Qed.

Lemma checked_path_Unexamined E stat_fails cwd path p :
  Api.checked_path E stat_fails cwd path = Api.Unexamined p ->
  p = Api.resolve cwd path /\
  Api.has_nul path = false /\
  (exists rel, p = Api.collapse [] (Api.DOC_ROOT E) ++ rel) /\
  lookup_path (Api.fs E) p = None /\
  stat_fails p = true.
Proof.
  unfold Api.checked_path. intros H.
  destruct (Api.has_nul path); [discriminate|].
  destruct (relative_to _ _) as [rel|] eqn:Hrel; [|discriminate].
  destruct (lookup_path _ _) as [n|] eqn:Hlk.
  - destruct (node_is_file n); discriminate.
  - destruct (stat_fails _) eqn:Hs; [|discriminate].
    inversion H; subst p. apply relative_to_Some in Hrel.
    repeat split; try assumption; try reflexivity. eauto.
Qed.

(** X15.  Whatever the string it is given (relative or absolute, with any
    number of [".."], ["."] and repeated separators), [get_file] serves
    only a regular file whose resolved path lies under the resolved
    document root and has no [".."] left.  It answers 403 exactly when the
    string cannot be resolved or the resolved path is not under the root,
    and 404 when the path is under the root, can be examined and is not a
    regular file.  The only other outcome is the [OSError] of the tests
    [exists] and [is_file], which are outside the [try]: it leaves the
    endpoint when the path is under the root, is not in the tree and
    cannot be examined.  Nothing else decides: hidden files and files of
    any extension are served. *)
Theorem X15_get_file_stays_under_root
    (E : Api.Env) (stat_fails : Path -> bool) (cwd : Path) (path : string) :
  ".." ∉ cwd ->
  match Api.get_file E stat_fails cwd path with
  | Api.FileResponse p media_type filename =>
      p = Api.resolve cwd path /\
      (exists rel, p = Api.collapse [] (Api.DOC_ROOT E) ++ rel) /\
      (".." ∉ p) /\
      is_file (Api.fs E) p = true /\
      filename = name p /\
      media_type = Api.media_type_of (lower (suffix p))
  | Api.FileError status_code =>
      (status_code = 403 /\
       (Api.has_nul path = true \/
        relative_to (Api.resolve cwd path) (Api.collapse [] (Api.DOC_ROOT E)) = None)) \/
      (status_code = 404 /\
       Api.has_nul path = false /\
       relative_to (Api.resolve cwd path) (Api.collapse [] (Api.DOC_ROOT E)) <> None /\
       is_file (Api.fs E) (Api.resolve cwd path) = false /\
       (lookup_path (Api.fs E) (Api.resolve cwd path) = None ->
        stat_fails (Api.resolve cwd path) = false))
  | Api.FileOSError p =>
      p = Api.resolve cwd path /\
      Api.has_nul path = false /\
      (exists rel, p = Api.collapse [] (Api.DOC_ROOT E) ++ rel) /\
      lookup_path (Api.fs E) p = None /\
      stat_fails p = true
  end.
Proof.
  intros Hcwd. unfold Api.get_file.
  destruct (Api.checked_path E stat_fails cwd path) as [status_code|p|p] eqn:Hc.
  - apply (checked_path_Refused E stat_fails). exact Hc.
  - apply (checked_path_Unexamined E stat_fails cwd path). exact Hc.
  - destruct (checked_path_Accepted E stat_fails cwd path p Hc)
      as (Hp & _ & Hrel & Hfile).
    repeat split; try assumption.
    rewrite Hp. apply resolve_no_dotdot. exact Hcwd.
Qed.

(** A hidden file inside the root, asked for through a path that leaves
    the root and comes back; and a name under the root that the system
    refuses to examine. *)
Lemma X15_witness :
  let E := {| Api.DOC_ROOT := Demo.root; Api.fs := Demo.tree; Api.search := None |} in
  let too_long := Demo.root ++ ["long"] in
  let stat_fails := fun p : Path => bool_decide (p = too_long) in
  (".." ∉ ["srv"]) /\
  Api.get_file E stat_fails ["srv"] "../data/other/..//ndf/A/./B/.secret.pdf"
    = Api.FileResponse Demo.secret "application/pdf" ".secret.pdf" /\
  (".." ∉ Demo.secret) /\
  is_file Demo.tree Demo.secret = true /\
  Api.get_file E stat_fails ["srv"] "/data/ndf/long" = Api.FileOSError too_long /\
  Api.get_file E stat_fails ["srv"] "/data/ndf/short" = Api.FileError 404.
Proof.
  intros E too_long stat_fails.
  assert (Hcwd : ".." ∉ ["srv"]).
  { rewrite list_elem_of_In. simpl. intuition discriminate. }
  pose proof (X15_get_file_stays_under_root E stat_fails ["srv"]
                "../data/other/..//ndf/A/./B/.secret.pdf" Hcwd) as H.
  assert (Hg : Api.get_file E stat_fails ["srv"]
                 "../data/other/..//ndf/A/./B/.secret.pdf"
               = Api.FileResponse Demo.secret "application/pdf" ".secret.pdf")
    by (vm_compute; reflexivity).
  rewrite Hg in H. destruct H as (_ & _ & Hdd & Hfile & _).
  repeat split; try assumption; vm_compute; reflexivity.
Defined.

(** ** Streaming a file *)

Lemma file_iterator_concat n fuel :
  (0 < n)%nat ->
  forall data, (length data < fuel)%nat ->
               concat (Api.file_iterator fuel n data) = data.
Proof.
  intros Hn. induction fuel as [|fuel IH]; intros data Hlt; [lia|].
  cbn [Api.file_iterator].
  destruct data as [|b data]; [rewrite take_nil; reflexivity|].
  destruct (take n (b :: data)) as [|c chunk] eqn:Htake.
  - apply (f_equal length) in Htake. rewrite length_take in Htake. simpl in Htake. lia.
  - rewrite <- Htake. cbn [concat]. rewrite IH.
    + apply take_drop.
    + rewrite length_drop. simpl in *. lia.
Qed.

Lemma file_iterator_lookup n fuel :
  (0 < n)%nat ->
  forall data i,
    (length data < fuel)%nat ->
    Api.file_iterator fuel n data !! i =
      if decide (i * n < length data)%nat
      then Some (take n (drop (i * n) data))
      else None.
Proof.
  intros Hn. induction fuel as [|fuel IH]; intros data i Hlt; [lia|].
  cbn [Api.file_iterator].
  destruct data as [|b data].
  - rewrite take_nil. case_decide as H; [simpl in H; lia|reflexivity].
  - destruct (take n (b :: data)) as [|c chunk] eqn:Htake.
    { apply (f_equal length) in Htake. rewrite length_take in Htake.
      simpl in Htake. lia. }
    rewrite <- Htake. destruct i as [|i].
    + cbn [lookup list_lookup]. case_decide as H; [reflexivity|simpl in H; lia].
    + cbn [lookup list_lookup]. rewrite IH by (rewrite length_drop; simpl in *; lia).
      rewrite length_drop, drop_drop.
      replace (n + i * n)%nat with (S i * n)%nat by lia.
      repeat case_decide; try reflexivity; lia.
Qed.

(** X14.  When [get_file_inline] streams a readable file, the chunks of
    the body put end to end are the bytes of the file; the chunk number
    [i] is the slice of 8192 bytes at offset [i * 8192], so that no chunk
    is empty and all but the last are full; and the status and media type
    are those of [get_file].  The path is one that [resolve] accepts and
    the file is in the tree, so that neither it nor the tests raise. *)
Theorem X14_inline_streams_the_file
    (E : Api.Env) (stat_fails : Path -> bool) (cwd : Path) (path : string)
    (data : list byte) (mtime : Z) :
  Api.has_nul path = false ->
  lookup_path (Api.fs E) (Api.resolve cwd path) = Some (File data mtime true) ->
  relative_to (Api.resolve cwd path) (Api.collapse [] (Api.DOC_ROOT E)) <> None ->
  exists chunks media_type disposition,
    Api.get_file_inline E stat_fails cwd path
      = Api.StreamingResponse (Some chunks) media_type disposition /\
    Api.get_file E stat_fails cwd path
      = Api.FileResponse (Api.resolve cwd path) media_type
          (name (Api.resolve cwd path)) /\
    concat chunks = data /\
    (forall i,
        chunks !! i =
          if decide (i * 8192 < length data)%nat
          then Some (take 8192 (drop (i * 8192) data))
          else None).
Proof.
  intros Hnul Hlk Hrel.
  assert (Hc : Api.checked_path E stat_fails cwd path
               = Api.Accepted (Api.resolve cwd path)).
  { unfold Api.checked_path. rewrite Hnul.
    destruct (relative_to _ _); [|contradiction]. rewrite Hlk. reflexivity. }
  unfold Api.get_file_inline, Api.get_file. rewrite Hc, Hlk.
  eexists _, _, _. split; [reflexivity|]. split; [reflexivity|]. split.
  - apply file_iterator_concat; [apply Nat.ltb_lt; reflexivity|lia].
  - intros i. apply file_iterator_lookup; [apply Nat.ltb_lt; reflexivity|lia].
Qed.

Lemma X14_witness :
  let E := {| Api.DOC_ROOT := Demo.root; Api.fs := Demo.tree; Api.search := None |} in
  exists chunks media_type disposition,
    Api.get_file_inline E (fun _ => false) [] "/data/ndf/A/B/report.pdf"
      = Api.StreamingResponse (Some chunks) media_type disposition /\
    concat chunks = Demo.abc.
Proof.
  intros E.
  destruct (X14_inline_streams_the_file E (fun _ => false) []
              "/data/ndf/A/B/report.pdf" Demo.abc 0)
    as (chunks & mt & disp & Hs & _ & Hcat & _).
  - reflexivity.
  - reflexivity.
  - vm_compute. discriminate.
  - exists chunks, mt, disp. auto.
Defined.

(** ** Creation of the index *)

(** X13.  [ensure_index] returns normally exactly when the existence check
    is answered with a status outside 400..599, or with 404 and the
    creation request is answered with a status outside 400..599; it raises
    otherwise.  So the statuses of the existence check other than 200 and
    404 are fatal only from 400 to 599.  It sends the creation request
    exactly when the existence check answers 404, once, after the check,
    with the content of the mapping file or, when that cannot be read, with
    the minimal mapping. *)
Theorem X13_ensure_index_outcomes
    (get : answer) (mapping_file : option string) (create : answer) :
  let body := match mapping_file with
              | Some content => MappingFile content
              | None => MappingDefault
              end in
  (fst (ensure_index get mapping_file create) = Ok tt <->
   exists status_code,
     get = Status status_code /\
     if (status_code =? 404)%Z
     then exists created, create = Status created /\ rejected created = false
     else rejected status_code = false) /\
  (fst (ensure_index get mapping_file create) <> Ok tt ->
   fst (ensure_index get mapping_file create) = Exc HTTPError) /\
  snd (ensure_index get mapping_file create) =
    match get with
    | Status status_code =>
        if (status_code =? 404)%Z then [GetIndex; PutIndex body] else [GetIndex]
    | NoAnswer => [GetIndex]
    end.
Proof.
  intros body. unfold ensure_index.
  destruct get as [status_code|].
  - destruct (status_code =? 200)%Z eqn:H200.
    + apply Z.eqb_eq in H200. subst status_code.
      split; [|split]; cbn [fst snd].
      * split; [|reflexivity]. intros _. exists 200. split; reflexivity.
      * intros H. contradiction.
      * reflexivity.
    + destruct (status_code =? 404)%Z eqn:H404.
      * apply Z.eqb_eq in H404. subst status_code.
        destruct create as [created|].
        -- destruct (rejected created) eqn:Hr; (split; [|split]); cbn [fst snd];
             try reflexivity;
             try (intros _; reflexivity); try (intros H; contradiction).
           ++ split; [discriminate|].
              intros (s & Hs & Hc). inversion Hs; subst s. simpl in Hc.
              destruct Hc as (c & Hc & Hrc). inversion Hc; subst c. congruence.
           ++ split; [|reflexivity]. intros _. exists 404. split; [reflexivity|].
              simpl. eauto.
        -- split; [|split]; cbn [fst snd].
           ++ split; [discriminate|].
              intros (s & Hs & Hc). inversion Hs; subst s. simpl in Hc.
              destruct Hc as (c & Hc & _). discriminate.
           ++ intros _. reflexivity.
           ++ reflexivity.
      * destruct (rejected status_code) eqn:Hr; (split; [|split]); cbn [fst snd];
          try reflexivity;
          try (intros _; reflexivity); try (intros H; contradiction).
        -- split; [discriminate|].
           intros (s & Hs & Hc). inversion Hs; subst s. rewrite H404 in Hc. congruence.
        -- split; [|reflexivity]. intros _. exists status_code.
           split; [reflexivity|]. rewrite H404. exact Hr.
  - split; [|split]; cbn [fst snd].
    + split; [discriminate|]. intros (s & Hs & _). discriminate.
    + intros _. reflexivity.
    + reflexivity.
Qed.

(** ** The diff of the statistics *)

(** X20.  The diff of two dictionaries of counts is zero for every category
    exactly when the two give every category the same count, a category
    that one of them lacks counting for zero; an entry is positive exactly
    when the first count is the larger; and exchanging the dictionaries
    changes the sign of every entry. *)
Theorem X20_diff_reads_as_agreement (a b : gmap string Z) :
  ((forall k v, Api.diff_maps a b !! k = Some v -> v = 0) <->
   (forall k, Api.get0 a k = Api.get0 b k)) /\
  (forall k v, Api.diff_maps a b !! k = Some v ->
               (0 < v <-> Api.get0 b k < Api.get0 a k)) /\
  Api.diff_maps b a = Z.opp <$> Api.diff_maps a b.
Proof.
  split; [|split].
  - split.
    + intros H k.
      destruct (decide (k ∈ dom a ∪ dom b)) as [Hin|Hout].
      * specialize (H k (Api.get0 a k - Api.get0 b k)).
        rewrite diff_maps_lookup in H. rewrite decide_True in H by exact Hin.
        specialize (H eq_refl). lia.
      * apply not_elem_of_union in Hout. destruct Hout as [Ha Hb].
        apply not_elem_of_dom in Ha. apply not_elem_of_dom in Hb. unfold Api.get0.
        rewrite Ha, Hb. reflexivity.
    + intros H k v Hv. rewrite diff_maps_lookup in Hv.
      case_decide; [|discriminate]. inversion Hv.
      specialize (H k). lia.
  - intros k v Hv. rewrite diff_maps_lookup in Hv.
    case_decide; [|discriminate]. inversion Hv. lia.
  - apply map_eq. intros k. rewrite lookup_fmap, !diff_maps_lookup.
    rewrite (union_comm_L (dom b) (dom a)).
    destruct (decide (k ∈ dom a ∪ dom b)) as [Hin|Hout]; [|reflexivity].
    simpl. f_equal. lia.
Qed.

(** ** The outcomes of the statistics endpoint *)











(** ** Search filters *)

Lemma split_nonempty sep s : Api.split sep s <> [].
Proof.
  destruct s as [|a rest]; simpl; [discriminate|].
  destruct (Ascii.eqb a sep); [discriminate|].
  destruct (Api.split sep rest); discriminate.
Qed.

Lemma split_app sep (a b : string) :
  Api.split sep (a ++ String sep b) = Api.split sep a ++ Api.split sep b.
Proof.
  induction a as [|c a IH]; simpl.
  - rewrite Ascii.eqb_refl. reflexivity.
  - destruct (Ascii.eqb c sep); [rewrite IH; reflexivity|].
    rewrite IH. pose proof (split_nonempty sep a) as Hne.
    destruct (Api.split sep a) as [|piece pieces]; [contradiction|reflexivity].
Qed.

Lemma split_no_sep sep s piece :
  In piece (Api.split sep s) -> ~ In sep (list_ascii_of_string piece).
Proof.
  revert piece. induction s as [|a rest IH]; simpl; intros piece Hin.
  - destruct Hin as [<-|[]]. simpl. tauto.
  - destruct (Ascii.eqb a sep) eqn:Ha.
    + destruct Hin as [<-|Hin]; [simpl; tauto|]. apply IH. exact Hin.
    + apply Ascii.eqb_neq in Ha.
      destruct (Api.split sep rest) as [|p ps].
      * destruct Hin as [<-|[]]. simpl. intuition congruence.
      * destruct Hin as [<-|Hin].
        -- simpl. intros [Heq|Hp]; [congruence|].
           apply (IH p); [left; reflexivity|exact Hp].
        -- apply IH. right. exact Hin.
Qed.

Section Stripping.

Variable p1 : ascii -> bool.
Variable p2 : ascii -> ascii -> bool.
Variable p3 : ascii -> ascii -> ascii -> bool.

(** What [lstrip_with] leaves is the end of what it is given. *)
Lemma lstrip_with_suffix :
  forall n l, (length l <= n)%nat ->
              exists pre, l = pre ++ lstrip_with p1 p2 p3 l.
Proof.
  induction n as [|n IH]; intros l Hn.
  - destruct l; [exists []; reflexivity|simpl in Hn; lia].
  - destruct l as [|a r1]; [exists []; reflexivity|].
    cbn [lstrip_with]. destruct (p1 a).
    { destruct (IH r1) as [pre Hpre]; [simpl in Hn; lia|].
      exists (a :: pre). simpl. rewrite <- Hpre. reflexivity. }
    destruct r1 as [|b r2]; [exists []; reflexivity|].
    destruct (p2 a b).
    { destruct (IH r2) as [pre Hpre]; [simpl in Hn; lia|].
      exists (a :: b :: pre). simpl. rewrite <- Hpre. reflexivity. }
    destruct r2 as [|c r3]; [exists []; reflexivity|].
    destruct (p3 a b c); [|exists []; reflexivity].
    destruct (IH r3) as [pre Hpre]; [simpl in Hn; lia|].
    exists (a :: b :: c :: pre). simpl. rewrite <- Hpre. reflexivity.
Qed.

Lemma lstrip_with_length l :
  (length (lstrip_with p1 p2 p3 l) <= length l)%nat.
Proof.
  destruct (lstrip_with_suffix (length l) l) as [pre Hpre]; [lia|].
  rewrite Hpre at 2. rewrite length_app. lia.
Qed.

Lemma lstrip_with_In c l :
  In c (lstrip_with p1 p2 p3 l) -> In c l.
Proof.
  destruct (lstrip_with_suffix (length l) l) as [pre Hpre]; [lia|].
  intros Hin. rewrite Hpre. apply in_or_app. right. exact Hin.
Qed.

Lemma lstrip_with_idempotent :
  forall n l, (length l <= n)%nat ->
              lstrip_with p1 p2 p3 (lstrip_with p1 p2 p3 l) = lstrip_with p1 p2 p3 l.
Proof.
  induction n as [|n IH]; intros l Hn.
  - destruct l; [reflexivity|simpl in Hn; lia].
  - destruct l as [|a r1]; [reflexivity|].
    cbn [lstrip_with]. destruct (p1 a) eqn:H1; [apply IH; simpl in Hn; lia|].
    destruct r1 as [|b r2]; [cbn [lstrip_with]; rewrite H1; reflexivity|].
    destruct (p2 a b) eqn:H2; [apply IH; simpl in Hn; lia|].
    destruct r2 as [|c r3]; [cbn [lstrip_with]; rewrite H1, H2; reflexivity|].
    destruct (p3 a b c) eqn:H3; [apply IH; simpl in Hn; lia|].
    cbn [lstrip_with]. rewrite H1, H2, H3. reflexivity.
Qed.

Lemma lstrip_with_one a r :
  p1 a = true -> lstrip_with p1 p2 p3 (a :: r) = lstrip_with p1 p2 p3 r.
Proof. intros H. cbn [lstrip_with]. rewrite H. reflexivity. Qed.

Lemma lstrip_with_two a b r :
  p1 a = false -> p2 a b = true ->
  lstrip_with p1 p2 p3 (a :: b :: r) = lstrip_with p1 p2 p3 r.
Proof. intros H1 H2. cbn [lstrip_with]. rewrite H1, H2. reflexivity. Qed.

Lemma lstrip_with_three a b c r :
  p1 a = false -> p2 a b = false -> p3 a b c = true ->
  lstrip_with p1 p2 p3 (a :: b :: c :: r) = lstrip_with p1 p2 p3 r.
Proof. intros H1 H2 H3. cbn [lstrip_with]. rewrite H1, H2, H3. reflexivity. Qed.

Lemma lstrip_with_shorter r l :
  lstrip_with p1 p2 p3 r = l -> (length l <= length r)%nat.
Proof. intros <-. apply lstrip_with_length. Qed.

(** A list that does not start with white space has no beginning that
    does. *)
Lemma lstrip_with_prefix x y rest :
  lstrip_with p1 p2 p3 x = x -> x = y ++ rest ->
  lstrip_with p1 p2 p3 y = y.
Proof.
  intros Hfix Hx.
  destruct y as [|a y]; [reflexivity|].
  subst x. cbn [app] in Hfix.
  destruct (p1 a) eqn:H1.
  { rewrite lstrip_with_one in Hfix by exact H1.
    apply lstrip_with_shorter in Hfix. simpl in Hfix. lia. }
  destruct y as [|b y]; [cbn [lstrip_with]; rewrite H1; reflexivity|].
  cbn [app] in Hfix.
  destruct (p2 a b) eqn:H2.
  { rewrite lstrip_with_two in Hfix by assumption.
    apply lstrip_with_shorter in Hfix. simpl in Hfix. lia. }
  destruct y as [|c y]; [cbn [lstrip_with]; rewrite H1, H2; reflexivity|].
  cbn [app] in Hfix.
  destruct (p3 a b c) eqn:H3.
  { rewrite lstrip_with_three in Hfix by assumption.
    apply lstrip_with_shorter in Hfix. simpl in Hfix. lia. }
  cbn [lstrip_with]. rewrite H1, H2, H3. reflexivity.
Qed.

End Stripping.

Lemma lstrip_chars c s :
  In c (list_ascii_of_string (lstrip s)) -> In c (list_ascii_of_string s).
Proof.
  unfold lstrip. rewrite list_ascii_of_string_of_list_ascii.
  apply lstrip_with_In.
Qed.

Lemma rstrip_chars c s :
  In c (list_ascii_of_string (rstrip s)) -> In c (list_ascii_of_string s).
Proof.
  unfold rstrip. rewrite list_ascii_of_string_of_list_ascii.
  intros Hin. apply in_rev in Hin. apply lstrip_with_In in Hin.
  apply in_rev in Hin. exact Hin.
Qed.

Lemma rstrip_idempotent s : rstrip (rstrip s) = rstrip s.
Proof.
  unfold rstrip. rewrite list_ascii_of_string_of_list_ascii, rev_involutive.
  rewrite (lstrip_with_idempotent _ _ _ _ _ (le_n _)). reflexivity.
Qed.

Lemma lstrip_rstrip_lstrip s : lstrip (rstrip (lstrip s)) = rstrip (lstrip s).
Proof.
  unfold rstrip, lstrip at 1. rewrite !list_ascii_of_string_of_list_ascii.
  f_equal.
  set (x := list_ascii_of_string (lstrip s)).
  set (back := lstrip_with is_space _ _ (rev x)).
  destruct (lstrip_with_suffix is_space (fun b a => is_space2 a b)
              (fun c b a => is_space3 a b c) (length (rev x)) (rev x) (le_n _))
    as [pre Hpre].
  fold back in Hpre.
  apply (lstrip_with_prefix _ _ _ x (rev back) (rev pre)).
  - unfold x, lstrip. rewrite list_ascii_of_string_of_list_ascii.
    apply (lstrip_with_idempotent _ _ _ _ _ (le_n _)).
  - rewrite <- rev_app_distr, <- Hpre, rev_involutive. reflexivity.
Qed.

Lemma strip_idempotent s : strip (strip s) = strip s.
Proof.
  unfold strip. rewrite lstrip_rstrip_lstrip. apply rstrip_idempotent.
Qed.

Lemma terms_of_clean v t :
  t ∈ Api.terms_of v ->
  t <> "" /\ strip t = t /\ ~ In ","%char (list_ascii_of_string t).
Proof.
  unfold Api.terms_of. intros Hin.
  apply list_elem_of_filter in Hin as [Hne Hin].
  apply list_elem_of_fmap in Hin as (piece & -> & Hpiece).
  split; [exact Hne|]. split; [apply strip_idempotent|].
  intros Hc. apply (split_no_sep ","%char v piece).
  - apply list_elem_of_In. exact Hpiece.
  - apply lstrip_chars. apply rstrip_chars. exact Hc.
Qed.

Lemma terms_of_empty : Api.terms_of "" = [].
Proof. reflexivity. Qed.

Lemma expanded_eq values :
  flat_map (fun v : string => if v is EmptyString then [] else Api.terms_of v) values
  = flat_map Api.terms_of values.
Proof.
  induction values as [|v values IH]; simpl; [reflexivity|].
  rewrite IH. destruct v; reflexivity.
Qed.

Lemma terms_of_comma (a b : string) :
  Api.terms_of (a ++ String "," b) = Api.terms_of a ++ Api.terms_of b.
Proof.
  unfold Api.terms_of. rewrite split_app, map_app. apply filter_app.
Qed.

(** X17.  When [_terms_filter] builds a filter, it is for the field asked
    for, it has at least one term, and every term is non-empty, free of
    white space at both ends (stripping it again changes nothing, for the
    white space of Unicode that [str.strip] removes) and free of commas.
    It builds none exactly when no value has a piece between commas that
    is more than white space. *)
Theorem X17_terms_filter_terms (field : string) (values : option (list string)) :
  (forall f terms,
      Api._terms_filter field values = Some (f, terms) ->
      f = field /\ terms <> [] /\
      forall t, t ∈ terms ->
                t <> "" /\ strip t = t /\ ~ In ","%char (list_ascii_of_string t)) /\
  (Api._terms_filter field values = None <->
   forall v, v ∈ default [] values -> Api.terms_of v = []).
Proof.
  unfold Api._terms_filter.
  destruct values as [[|v values]|].
  - split; [discriminate|]. split; [|reflexivity].
    intros _ v Hv. apply elem_of_nil in Hv. contradiction.
  - rewrite expanded_eq. cbn [default].
    destruct (flat_map Api.terms_of (v :: values)) as [|t terms] eqn:Hexp.
    + split; [discriminate|]. split; [|reflexivity].
      intros _ v' Hv'.
      destruct (Api.terms_of v') as [|t ts] eqn:Ht; [reflexivity|].
      assert (Hin : In t (flat_map Api.terms_of (v :: values))).
      { apply in_flat_map. exists v'. split; [apply list_elem_of_In; exact Hv'|].
        rewrite Ht. left. reflexivity. }
      rewrite Hexp in Hin. destruct Hin.
    + split.
      * intros f terms' H. inversion H; subst f terms'.
        split; [reflexivity|]. split; [discriminate|].
        intros t' Ht'. rewrite <- Hexp in Ht'.
        apply list_elem_of_In, in_flat_map in Ht' as (v' & _ & Hv').
        apply (terms_of_clean v'). apply list_elem_of_In. exact Hv'.
      * split; [discriminate|]. intros Hall. exfalso.
        assert (Hin : In t (flat_map Api.terms_of (v :: values)))
          by (rewrite Hexp; left; reflexivity).
        apply in_flat_map in Hin as (v' & Hv' & Ht).
        rewrite (Hall v') in Ht by (apply list_elem_of_In; exact Hv').
        destruct Ht.
  - split; [discriminate|]. split; [|reflexivity].
    intros _ v Hv. apply elem_of_nil in Hv. contradiction.
Qed.

(** X16.  A value with commas filters as its pieces given one by one: the
    filter for the values [a,b] and [rest] is the filter for [a], [b] and
    [rest], whatever [a], [b] and [rest] are. *)
Theorem X16_terms_filter_commas (field a b : string) (rest : list string) :
  Api._terms_filter field (Some ((a ++ String "," b)%string :: rest))
  = Api._terms_filter field (Some (a :: b :: rest)).
Proof.
  unfold Api._terms_filter. rewrite !expanded_eq.
  cbn [flat_map]. rewrite terms_of_comma, <- app_assoc. reflexivity.
Qed.

(** Two values, one of them with commas, blanks and an empty piece; and
    values whose pieces are white space only, among them the no-break
    space U+00A0 and the ideographic space U+3000. *)
Lemma X17_witness :
  let nbsp := String (ascii_of_nat 194) (String (ascii_of_nat 160) "") in
  let wide := String (ascii_of_nat 227) (String (ascii_of_nat 128)
                (String (ascii_of_nat 128) "")) in
  Api._terms_filter "level1" (Some [(nbsp ++ "A , B,, ")%string; (wide ++ "C" ++ nbsp)%string])
    = Some ("level1", ["A"; "B"; "C"]) /\
  (forall t, t ∈ ["A"; "B"; "C"] ->
             t <> "" /\ strip t = t /\ ~ In ","%char (list_ascii_of_string t)) /\
  Api._terms_filter "level1" (Some [" , "; ""; (nbsp ++ "," ++ wide)%string]) = None.
Proof.
  intros nbsp wide.
  destruct (X17_terms_filter_terms "level1"
              (Some [(nbsp ++ "A , B,, ")%string; (wide ++ "C" ++ nbsp)%string]))
    as [Hsome _].
  destruct (Hsome "level1" ["A"; "B"; "C"] eq_refl) as (_ & _ & Hterms).
  repeat split; try exact Hterms; apply (Hterms t H).
Defined.
